(** * Economic-trends dashboard: data acquisition, query cache, analytics

    A shallow embedding of the core of the dashboard:

    - [src/app.py]               : [fetch_data];
    - [src/src/api/world_bank.py]: [WorldBankAPI.fetch_indicator],
                                   [WorldBankAPI._fetch_country_indicator],
                                   the indicator wrappers and
                                   [WorldBankAPI.get_all_countries];
    - [src/src/utils/helpers.py] : [calculate_statistics],
                                   [calculate_growth_rate], [calculate_cagr],
                                   [save_data_cache], [load_data_cache],
                                   [compare_countries], [get_latest_values],
                                   [get_year_range], [format_large_number];
    - [src/src/visualizations/charts.py]: the frame plotted by
                                   [create_growth_rate_chart].

    Modelling conventions.

    - Python [int] is [Z].  Python [float] is idealised: finite values are
      rationals ([Q]) without rounding, and the special values the code can
      produce (a division by zero, an empty mean) are explicit constructors
      of [float].  Results of [sqrt] and of a fractional power are real
      numbers ([R]); [None] in an [option R] stands for NaN.  The one
      overflow that raises, [float] of an integer too large for a double,
      is modelled.
    - A [pandas.DataFrame] of observations is the list of its rows, in row
      order, carrying the default [RangeIndex]: the index label of a row is
      its position.  Both producers of frames in the program
      ([fetch_indicator], which ends in [reset_index], and [load_data_cache],
      which builds a fresh frame) give that index.  A frame whose name or
      code cells are not strings is a frame of another kind; what pandas
      does with it is taken as given.
    - Exceptions are values of [exn]; a computation that may raise returns
      [result A].  Every member of [exn] is a subclass of Python's
      [Exception], so [except Exception] catches all of them.
    - The file system is a finite map from path strings to file contents:
      two paths are the same file when they are the same string, which is
      how plain file names inside one directory behave.
    - [print] output is not modelled. *)

From Stdlib Require Import ZArith QArith Qminmax Reals Lra Lia.
From Stdlib Require Lqa.
From Stdlib Require Import Strings.String Strings.Ascii Numbers.DecimalString.
From Stdlib Require Import Sorting.Permutation Sorting.Sorted.
From stdpp Require Import gmap strings list.

Open Scope Z_scope.

#[local] Arguments String.append _ _ : simpl nomatch.
#[local] Set Warnings "-register-all".

(** ** Python strings and the formatting used by f-strings *)

Module Py.

(** [str(n)] for an [int]: decimal digits, a leading minus sign when
    negative. *)
Definition str_of_int (n : Z) : string :=
  NilZero.string_of_int (Z.to_int n).

(** [sep.join(parts)] *)
Definition join (sep : string) (parts : list string) : string :=
  String.concat sep parts.

End Py.

(** ** app.py: the cache key of [fetch_data] *)

(** [cache_key = f"{indicator}_{'_'.join(countries)}_{start_year}_{end_year}"] *)
Definition cache_key (indicator : string) (countries : list string)
    (start_year end_year : Z) : string :=
  indicator +:+ "_" +:+ Py.join "_" countries +:+ "_" +:+
  Py.str_of_int start_year +:+ "_" +:+ Py.str_of_int end_year.

(** A country code as the dashboard offers them: non-empty and free of the
    separator character. *)
Definition iso_code (c : string) : Prop :=
  c <> "" /\ ~ In "_"%char (list_ascii_of_string c).

(** A separator-free word followed by either nothing or the separator
    determines the word. *)
Definition sep_or_end (r : string) : Prop :=
  r = "" \/ exists r', r = String "_"%char r'.

(** ** Idealised floats *)

(** A [float] cell: a finite value, an infinity or NaN. *)
Inductive pyfloat : Type :=
  | Fin (q : Q)
  | PosInf
  | NegInf
  | NaN.

(** Equality of cells up to the representation of a rational. *)
Definition feq (a b : pyfloat) : Prop :=
  match a, b with
  | Fin x, Fin y => (x == y)%Q
  | PosInf, PosInf | NegInf, NegInf | NaN, NaN => True
  | _, _ => False
  end.

Definition Qgtb (a b : Q) : bool := negb (Qle_bool a b).
Definition Qltb (a b : Q) : bool := negb (Qle_bool b a).

(** [a / b] on [float64] operands: a zero divisor gives an infinity of the
    sign of [a], or NaN for [0 / 0]; no exception is raised. *)
Definition fdiv (a b : Q) : pyfloat :=
  if Qeq_bool b 0 then
    if Qgtb a 0 then PosInf else if Qltb a 0 then NegInf else NaN
  else Fin (a / b).

(** [x - c] and [x * c] for a finite constant [c]; [c] is positive in every
    use of [fscale]. *)
Definition fsub_const (x : pyfloat) (c : Q) : pyfloat :=
  match x with Fin q => Fin (q - c) | other => other end.

Definition fscale (x : pyfloat) (c : Q) : pyfloat :=
  match x with Fin q => Fin (q * c) | other => other end.

Definition fsub (x y : pyfloat) : pyfloat :=
  match x, y with
  | Fin a, Fin b => Fin (a - b)
  | NaN, _ | _, NaN => NaN
  | PosInf, PosInf | NegInf, NegInf => NaN
  | PosInf, _ => PosInf
  | NegInf, _ => NegInf
  | Fin _, PosInf => NegInf
  | Fin _, NegInf => PosInf
  end.

(** ** The observation table *)

Record observation : Type := mkObs {
  country : string;
  country_code : string;
  year : Z;
  value : Q
}.

Abbreviation table := (list observation).

(** ** Sorting, as [DataFrame.sort_values] does it

    [sort_values] on several keys is a stable lexicographic sort.  On one
    key pandas' default algorithm is not guaranteed stable; it is modelled
    by the same stable insertion sort, which agrees with every sorting
    algorithm when the keys are pairwise distinct. *)

Section StableSort.
Context {A : Type} (leb : A -> A -> bool).

Fixpoint insert_sorted (x : A) (l : list A) : list A :=
  match l with
  | [] => [x]
  | y :: l' => if leb x y then x :: l else y :: insert_sorted x l'
  end.

Fixpoint stable_sort (l : list A) : list A :=
  match l with
  | [] => []
  | x :: l' => insert_sorted x (stable_sort l')
  end.
End StableSort.

Definition year_leb (a b : observation) : bool := year a <=? year b.

Definition country_year_leb (a b : observation) : bool :=
  match String.compare (country a) (country b) with
  | Lt => true
  | Gt => false
  | Eq => year a <=? year b
  end.

(** [df.sort_values('year')] and [df.sort_values(['country', 'year'])] *)
Definition sort_by_year : table -> table := stable_sort year_leb.
Definition sort_by_country_year : table -> table :=
  stable_sort country_year_leb.

(** [df[df['country'] == c]] with the index labels of the selected rows. *)
Definition indexed (df : table) : list (nat * observation) :=
  combine (seq 0 (length df)) df.

Definition select_country (df : table) (c : string) : list (nat * observation) :=
  List.filter (fun ir => String.eqb (country (snd ir)) c) (indexed df).

Definition rows_of (df : table) (c : string) : table :=
  List.filter (fun r => String.eqb (country r) c) df.

(** [series.unique()]: the distinct values in order of first appearance. *)
Fixpoint unique (l : list string) : list string :=
  match l with
  | [] => []
  | x :: l' => x :: List.filter (fun y => negb (String.eqb y x)) (unique l')
  end.

(** ** Aggregations of a column of values *)

Definition Qsum (vs : list Q) : Q := fold_right Qplus 0%Q vs.

Definition Qlen (vs : list Q) : Q := inject_Z (Z.of_nat (length vs)).

Definition agg_mean (vs : list Q) : pyfloat :=
  match vs with
  | [] => NaN
  | _ => Fin (Qsum vs / Qlen vs)
  end.

Definition agg_median (vs : list Q) : pyfloat :=
  let s := stable_sort Qle_bool vs in
  let n := length vs in
  match n with
  | O => NaN
  | _ =>
      if Nat.even n
      then Fin ((nth (n / 2 - 1) s 0%Q + nth (n / 2) s 0%Q) / 2)
      else Fin (nth (n / 2) s 0%Q)
  end.

Definition agg_min (vs : list Q) : pyfloat :=
  match vs with
  | [] => NaN
  | v :: vs' => Fin (fold_left Qmin vs' v)
  end.

Definition agg_max (vs : list Q) : pyfloat :=
  match vs with
  | [] => NaN
  | v :: vs' => Fin (fold_left Qmax vs' v)
  end.

(** Sum of squared deviations from the mean. *)
Definition sq_dev (vs : list Q) : Q :=
  let m := (Qsum vs / Qlen vs)%Q in
  Qsum (map (fun v => (v - m) * (v - m))%Q vs).

(** Sample standard deviation ([ddof = 1]); NaN for fewer than two
    values. *)
Definition agg_std (vs : list Q) : option R :=
  match vs with
  | [] | [_] => None
  | _ => Some (sqrt (Q2R (sq_dev vs / (Qlen vs - 1))))
  end.

(** ['last']: the last value of the group in row order. *)
Definition agg_last (vs : list Q) : pyfloat :=
  match vs with
  | [] => NaN
  | v :: vs' => Fin (List.last vs' v)
  end.

(** ** helpers.py: [calculate_statistics] *)

Record stats_row : Type := mkStats {
  st_country : string;
  st_mean : pyfloat;
  st_median : pyfloat;
  st_min : pyfloat;
  st_max : pyfloat;
  st_std : option R;
  st_latest : pyfloat
}.

(** The keys of [df.groupby('country')]: the distinct countries, sorted. *)
Definition group_keys (df : table) : list string :=
  stable_sort String.leb (unique (map country df)).

Definition calculate_statistics (df : table) : list stats_row :=
  map (fun c =>
         let vs := map value (rows_of df c) in
         {| st_country := c;
            st_mean := agg_mean vs;
            st_median := agg_median vs;
            st_min := agg_min vs;
            st_max := agg_max vs;
            st_std := agg_std vs;
            st_latest := agg_last vs |})
      (group_keys df).

(** The reading of 'latest' in the specification: the value of the
    observation with the greatest year among a country's rows. *)
Definition value_at_max_year (rows : table) : pyfloat :=
  match rows with
  | [] => NaN
  | r :: rows' =>
      Fin (value (fold_left (fun best o => if year best <? year o then o else best)
                            rows' r))
  end.

(** ** helpers.py: [calculate_growth_rate] *)

Record growth_row : Type := mkGrowth {
  g_obs : observation;
  growth_rate : pyfloat
}.

(** The value of the closest earlier row of the same country; [seen] holds
    the earlier rows, nearest first. *)
Definition prev_value (seen : table) (c : string) : option Q :=
  match rows_of seen c with
  | [] => None
  | p :: _ => Some (value p)
  end.

(** One cell of [pct_change]: [v / prev - 1], NaN without a previous row. *)
Definition pct_cell (prev : option Q) (v : Q) : pyfloat :=
  match prev with
  | None => NaN
  | Some p => fsub_const (fdiv v p) 1
  end.

(** [df.groupby('country')['value'].pct_change()]: for each row, its value
    divided by the value of the previous row of its group, minus one; NaN
    on the first row of a group. *)
Fixpoint pct_change_by_country (seen : table) (rows : table) : list pyfloat :=
  match rows with
  | [] => []
  | r :: rest =>
      pct_cell (prev_value seen (country r)) (value r)
      :: pct_change_by_country (r :: seen) rest
  end.

Definition calculate_growth_rate (df : table) : list growth_row :=
  let df := sort_by_country_year df in
  map (fun rg => {| g_obs := fst rg; growth_rate := fscale (snd rg) 100 |})
      (combine df (pct_change_by_country [] df)).

(** Row [i] opens its country's group: it is the first row, or the row
    before it belongs to another country. *)
Definition first_of_country (out : list growth_row) (i : nat) : Prop :=
  match i with
  | O => True
  | S j => exists p r, out !! j = Some p /\ out !! i = Some r /\
                       country (g_obs p) <> country (g_obs r)
  end.

(** ** helpers.py: [calculate_cagr] *)

Record cagr_row : Type := mkCagr {
  cg_country : string;
  cg_start_year : Z;
  cg_end_year : Z;
  cg_start_value : Q;
  cg_end_value : Q;
  cg_cagr : option R
}.

(** Truth value of an [Optional[int]] argument: [None] and [0] are false. *)
Definition truthy (y : option Z) : bool :=
  match y with
  | Some n => negb (n =? 0)
  | None => false
  end.

(** [x ** (1 / years)] for [years > 0] on [float64]: a negative base with a
    fractional exponent is NaN, a zero base gives zero. *)
Definition float_root (x : Q) (years : Z) : option R :=
  if Qltb 0 x then Some (Rpower (Q2R x) (1 / IZR years))
  else if Qeq_bool x 0 then Some 0%R
  else if years =? 1 then Some (Q2R x)
  else None.

Definition cagr_value (start_val end_val : Q) (years : Z) : option R :=
  option_map (fun p => ((p - 1) * 100)%R)
             (float_root (end_val / start_val) years).

(** The start and end rows the loop body selects for one country. *)
Definition start_data (country_data : table) (start_year : option Z) : table :=
  if truthy start_year
  then List.filter (fun r => year r =? default 0 start_year) country_data
  else firstn 1 country_data.

Definition end_data (country_data : table) (end_year : option Z) : table :=
  if truthy end_year
  then List.filter (fun r => year r =? default 0 end_year) country_data
  else match country_data with
       | [] => []
       | r :: rest => [List.last rest r]
       end.

(** One iteration of the loop: [None] when the country is skipped. *)
Definition cagr_of_country (df : table) (start_year end_year : option Z)
    (c : string) : option cagr_row :=
  let country_data := sort_by_year (rows_of df c) in
  match start_data country_data start_year,
        end_data country_data end_year with
  | s :: _, e :: _ =>
      let years := year e - year s in
      if (0 <? years) && Qltb 0 (value s)
      then Some {| cg_country := c;
                   cg_start_year := year s;
                   cg_end_year := year e;
                   cg_start_value := value s;
                   cg_end_value := value e;
                   cg_cagr := cagr_value (value s) (value e) years |}
      else None
  | _, _ => None
  end.

Definition calculate_cagr (df : table) (start_year end_year : option Z)
    : list cagr_row :=
  omap (cagr_of_country df start_year end_year) (unique (map country df)).

(** ** helpers.py: [compare_countries] *)

(** A value stored in the returned dictionary. *)
Inductive cell : Type :=
  | CStr (s : string)
  | CFloat (f : pyfloat)
  | CCorr (r : option R)   (* a correlation; [None] is NaN *)
  | CNone.                 (* Python's [None] *)

(** [a.align(b, join='inner')]: the pairs of values carried by a common
    index label. *)
Definition align_inner (a b : list (nat * Q)) : list (Q * Q) :=
  flat_map (fun x =>
              map (fun y => (snd x, snd y))
                  (List.filter (fun y => Nat.eqb (fst x) (fst y)) b))
           a.

(** Pearson's coefficient of the aligned pairs; NaN when there are fewer
    than two pairs or a series is constant. *)
Definition pearson (ps : list (Q * Q)) : option R :=
  let xs := map fst ps in
  let ys := map snd ps in
  let mx := (Qsum xs / Qlen xs)%Q in
  let my := (Qsum ys / Qlen ys)%Q in
  let sxy := Qsum (map (fun p => (fst p - mx) * (snd p - my))%Q ps) in
  let sxx := sq_dev xs in
  let syy := sq_dev ys in
  match ps with
  | [] | [_] => None
  | _ => if Qeq_bool (sxx * syy) 0 then None
         else Some (Q2R sxy / sqrt (Q2R (sxx * syy)))%R
  end.

(** [a.corr(b)] *)
Definition series_corr (a b : list (nat * Q)) : option R :=
  pearson (align_inner a b).

Definition series (rows : list (nat * observation)) : list (nat * Q) :=
  map (fun ir => (fst ir, value (snd ir))) rows.

Definition compare_countries (df : table) (country1 country2 : string)
    : gmap string cell :=
  let data1 := select_country df country1 in
  let data2 := select_country df country2 in
  match data1, data2 with
  | [], _ | _, [] => ∅
  | _, _ =>
      let v1 := map snd (series data1) in
      let v2 := map snd (series data2) in
      <["country1" := CStr country1]>
      (<["country2" := CStr country2]>
      (<["mean_diff" := CFloat (fsub (agg_mean v1) (agg_mean v2))]>
      (<["median_diff" := CFloat (fsub (agg_median v1) (agg_median v2))]>
      (<["latest_diff" := CFloat (fsub (agg_last v1) (agg_last v2))]>
      (<["correlation" :=
           if Nat.eqb (length data1) (length data2)
           then CCorr (series_corr (series data1) (series data2))
           else CNone]> ∅)))))
  end.

(** The correlation the specification describes: each series sorted by
    year, then paired by position. *)
Definition positional_corr (df : table) (country1 country2 : string)
    : option R :=
  pearson (combine (map value (sort_by_year (rows_of df country1)))
                   (map value (sort_by_year (rows_of df country2)))).

(** ** Readings of the specification used to state the CAGR property *)

(** The start observation of a country, as the specification and the
    docstring of [calculate_cagr] have it: its row at [start_year] when
    that argument is given ("if None, uses min year"), and its row of least
    year otherwise; the end observation is the row at [end_year], or the
    row of greatest year. *)
Definition is_start (df : table) (start_year : option Z) (c : string)
    (s : observation) : Prop :=
  In s df /\ country s = c /\
  match start_year with
  | Some y => year s = y
  | None => forall o, In o df -> country o = c -> year s <= year o
  end.

Definition is_end (df : table) (end_year : option Z) (c : string)
    (e : observation) : Prop :=
  In e df /\ country e = c /\
  match end_year with
  | Some y => year e = y
  | None => forall o, In o df -> country o = c -> year o <= year e
  end.

(** The key invariant of a table, on the column the analytics group by: a
    country has at most one row per year. *)
Definition key_unique (df : table) : Prop :=
  forall a b, In a df -> In b df ->
              country a = country b -> year a = year b -> a = b.

(** The growth rate of the specification, over the reals. *)
Definition cagr_formula (start_value end_value : Q) (years : Z) : R :=
  ((Rpower (Q2R end_value / Q2R start_value) (1 / IZR years) - 1) * 100)%R.

(** What [((end_value / start_value) ** (1 / years) - 1) * 100] is worth on
    floats for a positive start value and a positive number of years, by
    the sign of the end value: the real formula when it is positive; -100
    when it is zero ([0 ** y] is [0]); the plain rate when it is negative
    and the span is one year ([x ** 1.0] is [x]); NaN when it is negative
    and the span is longer (a fractional power of a negative number). *)
Definition is_cagr (start_value end_value : Q) (years : Z)
    (cagr : option R) : Prop :=
  ((0 < end_value)%Q ->
   cagr = Some (cagr_formula start_value end_value years)) /\
  ((end_value == 0)%Q -> cagr = Some (-100)%R) /\
  ((end_value < 0)%Q -> years = 1 ->
   cagr = Some ((Q2R end_value / Q2R start_value - 1) * 100)%R) /\
  ((end_value < 0)%Q -> 1 < years -> cagr = None).

(** ** Python values, exceptions and the operations the client applies to
    a decoded JSON document *)

(** The exceptions the modelled code can meet; every one derives from
    [Exception]. *)
Inductive exn : Type :=
  | TypeError
  | KeyError
  | IndexError
  | ValueError
  | JSONDecodeError
  | ConnectionError
  | HTTPError
  | OSError
  | OverflowError.

(** [inl e]: the computation raised [e]; [inr a]: it returned [a]. *)
Definition result (A : Type) : Type := (exn + A)%type.

Definition raise {A : Type} (e : exn) : result A := inl e.
Definition ret {A : Type} (a : A) : result A := inr a.

Definition bind {A B : Type} (c : result A) (k : A -> result B) : result B :=
  match c with
  | inl e => inl e
  | inr a => k a
  end.

Notation "'let*' x := c 'in' k" := (bind c (fun x => k))
  (at level 10, x name, c at level 100, k at level 200).

(** [try: body except Exception: handler] *)
Definition try_except {A : Type} (body : result A) (handler : exn -> result A)
    : result A :=
  match body with
  | inl e => handler e
  | inr a => inr a
  end.

(** What [json.loads] builds: standard JSON only (no NaN or Infinity
    literal).  A dictionary is the list of its items, one per key. *)
Inductive pyval : Type :=
  | PNone
  | PBool (b : bool)
  | PInt (n : Z)
  | PFloat (q : Q)
  | PStr (s : string)
  | PList (items : list pyval)
  | PDict (fields : list (string * pyval)).

Definition is_none (v : pyval) : bool :=
  match v with PNone => true | _ => false end.

Fixpoint assoc (k : string) (d : list (string * pyval)) : option pyval :=
  match d with
  | [] => None
  | (k', v) :: d' => if String.eqb k k' then Some v else assoc k d'
  end.

Definition chars (s : string) : list pyval :=
  map (fun a => PStr (String a "")) (list_ascii_of_string s).

(** [len(v)] *)
Definition py_len (v : pyval) : result nat :=
  match v with
  | PList l => ret (length l)
  | PDict d => ret (length d)
  | PStr s => ret (String.length s)
  | _ => raise TypeError
  end.

(** [v[i]] for a non-negative integer literal [i] *)
Definition py_getitem_int (v : pyval) (i : nat) : result pyval :=
  match v with
  | PList l => match nth_error l i with
               | Some x => ret x
               | None => raise IndexError
               end
  | PStr s => match nth_error (chars s) i with
              | Some x => ret x
              | None => raise IndexError
              end
  | PDict _ => raise KeyError     (* the keys of a decoded object are strings *)
  | _ => raise TypeError
  end.

(** [v['key']] *)
Definition py_getitem (v : pyval) (key : string) : result pyval :=
  match v with
  | PDict d => match assoc key d with
               | Some x => ret x
               | None => raise KeyError
               end
  | _ => raise TypeError
  end.

(** The items a [for] loop draws from [v]. *)
Definition py_iter (v : pyval) : result (list pyval) :=
  match v with
  | PList l => ret l
  | PStr s => ret (chars s)
  | PDict d => ret (map (fun kv => PStr (fst kv)) d)
  | _ => raise TypeError
  end.

(** Truncation toward zero, as [int] does on a float. *)
Definition Qtrunc (q : Q) : Z := Z.quot (Qnum q) (Zpos (Qden q)).

(** The least magnitude of an [int] that [float] refuses ("int too large
    to convert to float"): the nearest double would be [2 ** 1024]. *)
Definition FLOAT_OVERFLOW : Z := 2 ^ 1024 - 2 ^ 970.

(** The text-to-number conversions of the Python runtime are taken as
    given: [int_of_string s] is [Some n] when [int(s)] returns [n] and
    [None] when it raises [ValueError]; likewise for [float]. *)
Class Builtins : Type := {
  int_of_string : string -> option Z;
  float_of_string : string -> option Q
}.

Section PythonConversions.
Context `{Builtins}.

(** [int(v)] *)
Definition py_int (v : pyval) : result Z :=
  match v with
  | PInt n => ret n
  | PBool b => ret (if b then 1 else 0)
  | PFloat q => ret (Qtrunc q)
  | PStr s => match int_of_string s with
              | Some n => ret n
              | None => raise ValueError
              end
  | _ => raise TypeError
  end.

(** [float(v)] *)
Definition py_float (v : pyval) : result Q :=
  match v with
  | PInt n => if Z.abs n <? FLOAT_OVERFLOW then ret (inject_Z n)
              else raise OverflowError
  | PBool b => ret (if b then 1%Q else 0%Q)
  | PFloat q => ret q
  | PStr s => match float_of_string s with
              | Some q => ret q
              | None => raise ValueError
              end
  | _ => raise TypeError
  end.
End PythonConversions.

(** Plain decimal numerals, enough to run the model on examples. *)
Definition decimal_int (s : string) : option Z :=
  option_map Z.of_int (NilZero.int_of_string s).

Definition decimal_builtins : Builtins :=
  {| int_of_string := decimal_int;
     float_of_string := fun s => option_map inject_Z (decimal_int s) |}.

(** ** api/world_bank.py: the client *)

(** The outcome of [session.get]: no response at all, or a response with
    a status code whose body either decodes as JSON or does not. *)
Inductive http_reply : Type :=
  | NoReply
  | Reply (status : Z) (body : option pyval).

(** The remote provider: a reply for every URL and parameter list. *)
Definition provider : Type := string -> list (string * string) -> http_reply.

Definition BASE_URL : string := "https://api.worldbank.org/v2".

(** [response.raise_for_status()] *)
Definition raise_for_status (status : Z) : result unit :=
  if (400 <=? status) && (status <? 600) then raise HTTPError else ret tt.

(** [response.json()] *)
Definition response_json (body : option pyval) : result pyval :=
  match body with
  | Some v => ret v
  | None => raise JSONDecodeError
  end.

(** One dictionary appended to [data_records]: the name and the code are
    stored as found, the year and the value converted. *)
Record raw_record : Type := mkRaw {
  r_country : pyval;
  r_country_code : pyval;
  r_year : Z;
  r_value : Q
}.


(** A record as the JSON object it is. *)
Definition record_json (r : raw_record) : pyval :=
  PDict [ ("country", r_country r); ("country_code", r_country_code r);
          ("year", PInt (r_year r)); ("value", PFloat (r_value r)) ].

(** A [pandas.DataFrame] as the program meets them: an observation table,
    or a frame of another shape, given by the decoded value [pd.DataFrame]
    builds it from. *)
Inductive frame : Type :=
  | Obs (t : table)
  | Foreign (data : pyval).

(** A name cell pandas can order among strings: a string, or a null, which
    [sort_values] puts last ([na_position='last']). *)
Definition name_cell (v : pyval) : Prop :=
  v = PNone \/ exists s, v = PStr s.

(** Library behaviour taken as given for frames that are not observation
    tables (a name or a code cell is not a string): the order
    [sort_values(['country', 'year'])] gives the rows, or the exception it
    raises when the names cannot be ordered, and the list
    [to_dict(orient='records')] makes of such a frame.  Sorting only
    reorders the rows, and it returns when every name is a string or a
    null. *)
Class Pandas : Type := {
  sort_values_country_year : list raw_record -> result (list raw_record);
  sort_values_permutes :
    forall rows sorted,
      sort_values_country_year rows = inr sorted -> Permutation sorted rows;
  sort_values_names :
    forall rows,
      Forall (fun r => name_cell (r_country r)) rows ->
      exists sorted, sort_values_country_year rows = inr sorted;
  to_dict_records_foreign : pyval -> pyval
}.

(** [f"{self.BASE_URL}/country/{country_code}/indicator/{indicator_code}"] *)
Definition request_url (indicator_code country_code : string) : string :=
  BASE_URL +:+ "/country/" +:+ country_code +:+
  "/indicator/" +:+ indicator_code.

Definition request_params (start_year end_year : Z) : list (string * string) :=
  [ ("date", Py.str_of_int start_year +:+ ":" +:+ Py.str_of_int end_year);
    ("format", "json");
    ("per_page", "1000") ].

Section Client.
Context `{Builtins} `{Pandas} (session_get : provider).

(** The body of [for entry in json_data[1]]: the record to append, if
    any. *)
Definition record_of_entry (entry : pyval) : result (option raw_record) :=
  let* v := py_getitem entry "value" in
  if is_none v then ret None
  else
    let* c := py_getitem entry "country" in
    let* name := py_getitem c "value" in
    let* code := py_getitem entry "countryiso3code" in
    let* d := py_getitem entry "date" in
    let* y := py_int d in
    let* v' := py_getitem entry "value" in
    let* x := py_float v' in
    ret (Some {| r_country := name; r_country_code := code;
                 r_year := y; r_value := x |}).

Fixpoint collect_records (entries : list pyval) (data_records : list raw_record)
    : result (list raw_record) :=
  match entries with
  | [] => ret data_records
  | entry :: rest =>
      let* r := record_of_entry entry in
      collect_records rest
        (match r with
         | Some rec => data_records ++ [rec]
         | None => data_records
         end)
  end.

Definition _fetch_country_indicator
    (indicator_code country_code : string) (start_year end_year : Z)
    : result (list raw_record) :=
  let url := request_url indicator_code country_code in
  let params := request_params start_year end_year in
  match session_get url params with
  | NoReply => raise ConnectionError
  | Reply status body =>
      let* _ok := raise_for_status status in
      let* json_data := response_json body in
      let* n := py_len json_data in
      if (n <? 2)%nat then ret []
      else
        let* records := py_getitem_int json_data 1 in
        if is_none records then ret []
        else
          let* entries := py_iter records in
          collect_records entries []
  end.

(** The loop of [fetch_indicator]: a country whose fetch raises is
    skipped. *)
Fixpoint fetch_loop (indicator_code : string) (country_codes : list string)
    (start_year end_year : Z) (all_data : list raw_record)
    : list raw_record :=
  match country_codes with
  | [] => all_data
  | country_code :: rest =>
      match try_except
              (let* data := _fetch_country_indicator indicator_code
                              country_code start_year end_year in
               ret (all_data ++ data))
              (fun _ => ret all_data)
      with
      | inr all_data' =>
          fetch_loop indicator_code rest start_year end_year all_data'
      | inl _ => fetch_loop indicator_code rest start_year end_year all_data
      end
  end.

(** The row of an observation table a record makes: its name and its code
    are strings. *)
Definition row_of_record (r : raw_record) : option observation :=
  match r_country r, r_country_code r with
  | PStr name, PStr code =>
      Some {| country := name; country_code := code;
              year := r_year r; value := r_value r |}
  | _, _ => None
  end.

(** [pd.DataFrame(all_data).sort_values(['country', 'year'])
    .reset_index(drop=True)]: the sorted observation table when every
    record is an observation; otherwise the frame of the records in the
    order pandas sorts them, or the exception that sort raises. *)
Definition DataFrame_sorted (all_data : list raw_record) : result frame :=
  match mapM row_of_record all_data with
  | Some df => ret (Obs (sort_by_country_year df))
  | None =>
      let* sorted := sort_values_country_year all_data in
      ret (Foreign (PList (map record_json sorted)))
  end.

(** What one country contributes to [all_data]: its records, or nothing
    when its fetch raises. *)
Definition contribution (indicator_code : string) (start_year end_year : Z)
    (country_code : string) : list raw_record :=
  match _fetch_country_indicator indicator_code country_code
          start_year end_year with
  | inr data => data
  | inl _ => []
  end.

Definition fetch_indicator
    (indicator_code : string) (country_codes : list string)
    (start_year end_year : Z) : result frame :=
  let all_data :=
    fetch_loop indicator_code country_codes start_year end_year [] in
  match all_data with
  | [] => ret (Obs [])
  | _ => DataFrame_sorted all_data
  end.


End Client.

(** ** helpers.py: the on-disk cache *)

(** What a path of the file system can hold.  [json.dump] followed by
    [json.load] gives back the document written (integers, floats and
    strings are printed so as to be read back exactly), so a file written
    by [json.dump] is represented by the document itself. *)
Inductive file : Type :=
  | Unreadable                (* exists, but [open] raises [OSError] *)
  | Garbage (text : string)   (* text that [json.load] rejects *)
  | JsonFile (doc : pyval).   (* text that [json.load] decodes to [doc] *)

(** A [datetime], counted in microseconds; [fromisoformat] returns an aware
    value when the text carries a UTC offset. *)
Inductive datetime : Type :=
  | Naive (us : Z)
  | Aware (us : Z).

(** Library behaviour taken as given: the ISO-8601 printer and parser of
    [datetime], and whether the [DataFrame] constructor accepts a decoded
    value that is not a list of observation records. *)
Class Runtime : Type := {
  isoformat : Z -> string;
  fromisoformat : string -> option datetime;
  frame_accepts : pyval -> bool
}.

(** Whether the cache file at a path can be written ([os.makedirs], [open]
    and [json.dump] all succeed) on a given file system; taken as
    given. *)
Class Disk : Type := {
  writable : gmap string file -> string -> bool
}.

Definition starts_with_slash (s : string) : bool :=
  match s with
  | String "/" _ => true
  | _ => false
  end.

Fixpoint ends_with_slash (s : string) : bool :=
  match s with
  | EmptyString => false
  | String a EmptyString => Ascii.eqb a "/"
  | String _ s' => ends_with_slash s'
  end.

(** [os.path.join(a, b)] on POSIX. *)
Definition path_join (a b : string) : string :=
  if starts_with_slash b then b
  else if String.eqb a "" || ends_with_slash a then a +:+ b
  else a +:+ "/" +:+ b.

(** [data.to_dict(orient='records')] *)
Definition record_dict (o : observation) : pyval :=
  PDict [ ("country", PStr (country o));
          ("country_code", PStr (country_code o));
          ("year", PInt (year o));
          ("value", PFloat (value o)) ].

Definition to_dict_records (data : table) : pyval :=
  PList (map record_dict data).

Definition row_of_dict (v : pyval) : option observation :=
  match v with
  | PDict d =>
      match assoc "country" d, assoc "country_code" d,
            assoc "year" d, assoc "value" d with
      | Some (PStr name), Some (PStr code), Some (PInt y), Some (PFloat x) =>
          if (length d =? 4)%nat
          then Some {| country := name; country_code := code;
                       year := y; value := x |}
          else None
      | _, _, _, _ => None
      end
  | _ => None
  end.

Definition DEFAULT_CACHE_DIR : string := "data".
Definition DEFAULT_MAX_AGE_HOURS : Z := 24.

(** [elapsed.total_seconds() / 3600] for a [timedelta] of [elapsed]
    microseconds. *)
Definition age_hours (elapsed : Z) : Q :=
  (inject_Z elapsed / 1000000 / 3600)%Q.

Section Cache.
Context `{Runtime}.

(** [pd.DataFrame(data)] on a decoded JSON value. *)
Definition pd_DataFrame (data : pyval) : result frame :=
  let foreign :=
    if frame_accepts data then ret (Foreign data) else raise ValueError in
  match data with
  | PList rows =>
      match mapM row_of_dict rows with
      | Some t => ret (Obs t)
      | None => foreign
      end
  | _ => foreign
  end.

(** [with open(filepath, 'r') as f: json.load(f)] *)
Definition json_load (f : file) : result pyval :=
  match f with
  | Unreadable => raise OSError
  | Garbage _ => raise JSONDecodeError
  | JsonFile doc => ret doc
  end.

(** [datetime.fromisoformat(v)] *)
Definition datetime_fromisoformat (v : pyval) : result datetime :=
  match v with
  | PStr s => match fromisoformat s with
              | Some t => ret t
              | None => raise ValueError
              end
  | _ => raise TypeError
  end.

(** [datetime.now() - cache_time], in microseconds: subtracting an aware
    value from the naive [now] raises. *)
Definition since (now : Z) (cache_time : datetime) : result Z :=
  match cache_time with
  | Naive t => ret (now - t)
  | Aware _ => raise TypeError
  end.

(** The body of the [try] statement of [load_data_cache]. *)
Definition read_entry (f : file) (now max_age_hours : Z)
    : result (option frame) :=
  let* cache_data := json_load f in
  let* stamp := py_getitem cache_data "timestamp" in
  let* cache_time := datetime_fromisoformat stamp in
  let* elapsed := since now cache_time in
  if Qgtb (age_hours elapsed) (inject_Z max_age_hours) then ret None
  else
    let* data := py_getitem cache_data "data" in
    let* df := pd_DataFrame data in
    ret (Some df).

(** [load_data_cache(filename, cache_dir, max_age_hours)] at time [now];
    [None] is a miss. *)
Definition load_data_cache (fs : gmap string file) (now : Z)
    (filename cache_dir : string) (max_age_hours : Z)
    : result (option frame) :=
  let filepath := path_join cache_dir (filename +:+ ".json") in
  match fs !! filepath with
  | None => ret None
  | Some f =>
      try_except (read_entry f now max_age_hours) (fun _ => ret None)
  end.

(** [save_data_cache(data, filename, cache_dir)] at time [now]: the file
    system a write that succeeds leaves behind. *)
Definition save_data_cache (fs : gmap string file) (now : Z)
    (data : table) (filename cache_dir : string) : gmap string file :=
  let filepath := path_join cache_dir (filename +:+ ".json") in
  let cache_data :=
    PDict [ ("timestamp", PStr (isoformat now));
            ("data", to_dict_records data) ] in
  <[filepath := JsonFile cache_data]> fs.
End Cache.

(** The triples the round-trip property compares. *)
Definition triples (t : table) : list (string * Z * Q) :=
  map (fun o => (country_code o, year o, value o)) t.

(** A runtime for running the model on examples: a timestamp is printed as
    its count of microseconds. *)
Definition sample_runtime : Runtime :=
  {| isoformat := Py.str_of_int;
     fromisoformat := fun s => option_map Naive (decimal_int s);
     frame_accepts := fun _ => true |}.

(** For running examples: a file system on which every write succeeds. *)
Definition sample_disk : Disk := {| writable := fun _ _ => true |}.

(** For running examples: a pandas that leaves the rows of a frame outside
    the observation tables in the order of arrival. *)
Definition sample_pandas : Pandas :=
  {| sort_values_country_year := fun rows => inr rows;
     sort_values_permutes := fun rows sorted E =>
       match E in (_ = r)
             return (match r with
                     | inr l => Permutation l rows
                     | inl _ => True
                     end)
       with eq_refl => Permutation_refl rows end;
     sort_values_names := fun rows _ => ex_intro _ rows eq_refl;
     to_dict_records_foreign := fun d => d |}.

(** ** Reading of the parsing policy *)

(** An entry, a JSON object, in which the value member is absent
    altogether. *)
Definition lacks_value (entry : pyval) : Prop :=
  exists d, entry = PDict d /\ assoc "value" d = None.

Section EntryShape.
Context `{Builtins}.

(** The entry carries a value that is not null. *)
Definition has_value (entry : pyval) : bool :=
  match py_getitem entry "value" with
  | inr v => negb (is_none v)
  | inl _ => false
  end.

(** [r] is the observation made from [entry]: name and code as found,
    the year by [int], the value by [float]. *)
Definition converted (entry : pyval) (r : raw_record) : Prop :=
  exists c d v,
    py_getitem entry "country" = ret c /\
    py_getitem c "value" = ret (r_country r) /\
    py_getitem entry "countryiso3code" = ret (r_country_code r) /\
    py_getitem entry "date" = ret d /\ py_int d = ret (r_year r) /\
    py_getitem entry "value" = ret v /\ v <> PNone /\
    py_float v = ret (r_value r).

(** An entry of the shape the provider documents: an object with a
    "value" member which is null or else comes with a country object, a
    code, a date [int] accepts and a value [float] accepts. *)
Definition well_formed_entry (entry : pyval) : Prop :=
  exists d v,
    entry = PDict d /\ assoc "value" d = Some v /\
    (v = PNone \/
     exists cd name code dt y x,
       assoc "country" d = Some (PDict cd) /\ assoc "value" cd = Some name /\
       assoc "countryiso3code" d = Some code /\
       assoc "date" d = Some dt /\ py_int dt = ret y /\ py_float v = ret x).
End EntryShape.

(** ** Sample provider replies *)

Definition usa_entry (date : string) (v : pyval) : pyval :=
  PDict [ ("indicator", PDict [("id", PStr "NY.GDP.MKTP.CD")]);
          ("country", PDict [("id", PStr "US"); ("value", PStr "United States")]);
          ("countryiso3code", PStr "USA");
          ("date", PStr date);
          ("value", v) ].

Definition entry_without_value : pyval :=
  PDict [ ("country", PDict [("id", PStr "US"); ("value", PStr "United States")]);
          ("countryiso3code", PStr "USA");
          ("date", PStr "2001") ].

Definition metadata : pyval := PDict [("page", PInt 1); ("pages", PInt 1)].

(** A provider that answers for the United States only. *)
Definition usa_only (records : pyval) : provider :=
  fun url _ =>
    if String.eqb url (request_url "NY.GDP.MKTP.CD" "USA")
    then Reply 200 (Some (PList [metadata; records]))
    else NoReply.

Definition gdp : string := "NY.GDP.MKTP.CD".

(** Two entries, the second with a null value. *)
Definition records_with_null : list pyval :=
  [ usa_entry "2000" (PFloat 1); usa_entry "2001" PNone ].

(** Two entries, the second without a value member. *)
Definition records_with_gap : list pyval :=
  [ usa_entry "2000" (PFloat 1); entry_without_value ].

Definition usa_2000 : raw_record :=
  {| r_country := PStr "United States"; r_country_code := PStr "USA";
     r_year := 2000; r_value := 1 |}.

(** ** Sample inputs *)

Definition sample_codes : list string := ["USA"; "CHN"; "IND"].

Definition unsorted_rows : table :=
  [ mkObs "A" "AAA" 2020 5; mkObs "A" "AAA" 2019 3 ].

Definition series_2018_2020 : table :=
  [ mkObs "A" "AAA" 2018 100; mkObs "A" "AAA" 2019 110;
    mkObs "A" "AAA" 2020 99 ].

Definition zero_base_series : table :=
  [ mkObs "A" "AAA" 2018 0; mkObs "A" "AAA" 2019 5 ].

Definition two_series : table :=
  [ mkObs "A" "AAA" 2000 1; mkObs "A" "AAA" 2001 2; mkObs "A" "AAA" 2002 3;
    mkObs "B" "BBB" 2000 2; mkObs "B" "BBB" 2001 4; mkObs "B" "BBB" 2002 6 ].

Definition doubling : table :=
  [ mkObs "A" "AAA" 2000 100; mkObs "A" "AAA" 2010 200;
    mkObs "B" "BBB" 2000 (-5); mkObs "B" "BBB" 2010 7 ].

(** A series with an observation at year 0. *)
Definition around_zero : table :=
  [ mkObs "A" "AAA" (-10) 1; mkObs "A" "AAA" 0 3; mkObs "A" "AAA" 10 4 ].

Definition one_hour : Z := 3600 * 1000000.

(** ** helpers.py: [get_latest_values] and [get_year_range] *)

(** [frame.groupby('country').tail(1)]: the last row of every group, in
    frame order. *)
Fixpoint group_tail (rows : table) : table :=
  match rows with
  | [] => []
  | r :: rest =>
      if existsb (fun o => String.eqb (country o) (country r)) rest
      then group_tail rest
      else r :: group_tail rest
  end.

(** The comparison of [sort_values('value', ascending=False)]. *)
Definition value_desc_leb (a b : observation) : bool :=
  Qle_bool (value b) (value a).

Definition get_latest_values (df : table) : table :=
  let latest := group_tail (sort_by_year df) in
  stable_sort value_desc_leb latest.

(** [get_year_range]; a [table] always has its 'year' column, so the
    fallback is taken on the empty frame only. *)
Definition get_year_range (df : table) : Z * Z :=
  match df with
  | [] => (2000, 2023)
  | r :: rest =>
      (fold_left Z.min (map year rest) (year r),
       fold_left Z.max (map year rest) (year r))
  end.

(** [r] is a row of [df] with the greatest year of its country. *)
Definition latest_row (df : table) (r : observation) : Prop :=
  In r df /\ forall o, In o df -> country o = country r -> year o <= year r.

(** Rows of one country follow each other by strictly increasing year, as
    in a frame sorted by (country, year) that holds each year once. *)
Definition year_ordered (df : table) : Prop :=
  StronglySorted (fun a b => country a = country b -> year a < year b) df.

(** What the aggregates of a non-empty column satisfy. *)
Definition within_range (vs : list Q) : Prop :=
  exists mn mx mean med la,
    agg_min vs = Fin mn /\ agg_max vs = Fin mx /\ agg_mean vs = Fin mean /\
    agg_median vs = Fin med /\ agg_last vs = Fin la /\
    (mn <= mean <= mx)%Q /\ (mn <= med <= mx)%Q /\ (mn <= la <= mx)%Q /\
    (forall v, In v vs -> mn <= v <= mx)%Q.

(** A statistics row whose minimum, maximum and latest figure are values
    of observations of its country in [df], the minimum and the maximum
    bounding every observation of the country. *)
Definition stats_attained (df : table) (s : stats_row) : Prop :=
  exists lo hi la,
    (In lo df /\ country lo = st_country s /\ st_min s = Fin (value lo)) /\
    (In hi df /\ country hi = st_country s /\ st_max s = Fin (value hi)) /\
    (In la df /\ country la = st_country s /\
     st_latest s = Fin (value la)) /\
    forall o, In o df -> country o = st_country s ->
              (value lo <= value o)%Q /\ (value o <= value hi)%Q.

(** What can be said of a CAGR record whatever the table: it comes from two
    rows of its country, spans a positive number of years and starts from a
    positive value. *)
Definition cagr_record_sound (df : table) (start_year end_year : option Z)
    (r : cagr_row) : Prop :=
  (exists s e,
     In s df /\ In e df /\ country s = cg_country r /\
     country e = cg_country r /\
     cg_start_year r = year s /\ cg_start_value r = value s /\
     cg_end_year r = year e /\ cg_end_value r = value e) /\
  cg_start_year r < cg_end_year r /\
  (0 < cg_start_value r)%Q /\
  (truthy start_year = true -> Some (cg_start_year r) = start_year) /\
  (truthy end_year = true -> Some (cg_end_year r) = end_year) /\
  cg_cagr r = cagr_value (cg_start_value r) (cg_end_value r)
                         (cg_end_year r - cg_start_year r).

(** The endpoints of a CAGR record as the loop resolves them: a year
    argument that is given and not zero is the year of the endpoint; one
    that is absent, or zero, selects the least year of the country's rows
    for the start and the greatest for the end. *)
Definition cagr_endpoints_resolved (df : table)
    (start_year end_year : option Z) (r : cagr_row) : Prop :=
  (forall y, start_year = Some y -> y <> 0 -> cg_start_year r = y) /\
  (start_year = None \/ start_year = Some 0 ->
   forall o, In o df -> country o = cg_country r ->
             cg_start_year r <= year o) /\
  (forall y, end_year = Some y -> y <> 0 -> cg_end_year r = y) /\
  (end_year = None \/ end_year = Some 0 ->
   forall o, In o df -> country o = cg_country r ->
             year o <= cg_end_year r).

(** What holds of a CAGR record whatever the table: it comes from two rows
    of its country, resolved as above, spans a positive number of years,
    starts from a positive value and carries the value of the growth
    expression on its own fields. *)
Definition cagr_record_resolved (df : table)
    (start_year end_year : option Z) (r : cagr_row) : Prop :=
  (exists s e,
     In s df /\ In e df /\ country s = cg_country r /\
     country e = cg_country r /\
     cg_start_year r = year s /\ cg_start_value r = value s /\
     cg_end_year r = year e /\ cg_end_value r = value e) /\
  cg_start_year r < cg_end_year r /\
  (0 < cg_start_value r)%Q /\
  cagr_endpoints_resolved df start_year end_year r /\
  is_cagr (cg_start_value r) (cg_end_value r)
          (cg_end_year r - cg_start_year r) (cg_cagr r).

(** A file name without a path separator: a plain name inside the cache
    directory. *)
Definition plain_name (s : string) : Prop :=
  ~ In "/"%char (list_ascii_of_string s).

(** ** api/world_bank.py: the indicator wrappers; app.py: [fetch_data] *)

(** [WorldBankAPI.INDICATORS] *)
Definition INDICATORS : list (string * string) :=
  [ ("gdp", "NY.GDP.MKTP.CD");
    ("inflation", "FP.CPI.TOTL.ZG");
    ("unemployment", "SL.UEM.TOTL.ZS") ].

(** [self.INDICATORS[name]] for one of the three names above. *)
Definition indicator_code_of (name : string) : string :=
  match List.find (fun kv => String.eqb (fst kv) name) INDICATORS with
  | Some kv => snd kv
  | None => ""
  end.

(** The indicator names [fetch_data] knows, each with the key of
    [INDICATORS] its wrapper looks up. *)
Definition DASHBOARD_INDICATORS : list (string * string) :=
  [ ("GDP", "gdp"); ("Inflation", "inflation");
    ("Unemployment", "unemployment") ].

Section FetchData.
Context `{Builtins} `{Runtime} `{Pandas} `{Disk} (session_get : provider).

Definition fetch_gdp (country_codes : list string) (start_year end_year : Z)
    : result frame :=
  fetch_indicator session_get (indicator_code_of "gdp") country_codes
                  start_year end_year.

Definition fetch_inflation (country_codes : list string)
    (start_year end_year : Z) : result frame :=
  fetch_indicator session_get (indicator_code_of "inflation") country_codes
                  start_year end_year.

Definition fetch_unemployment (country_codes : list string)
    (start_year end_year : Z) : result frame :=
  fetch_indicator session_get (indicator_code_of "unemployment") country_codes
                  start_year end_year.

(** [save_data_cache(data, cache_key)] as [fetch_data] calls it on the
    frame it has fetched: the file system the write leaves, or [OSError]
    when the file cannot be written. *)
Definition store_fetched (fs : gmap string file) (now : Z) (data : frame)
    (filename : string) : result (gmap string file) :=
  let filepath := path_join DEFAULT_CACHE_DIR (filename +:+ ".json") in
  if writable fs filepath then
    ret match data with
        | Obs t => save_data_cache fs now t filename DEFAULT_CACHE_DIR
        | Foreign d =>
            <[filepath :=
                JsonFile (PDict [ ("timestamp", PStr (isoformat now));
                                  ("data", to_dict_records_foreign d) ])]> fs
        end
  else raise OSError.

(** The body of [fetch_data] (the Streamlit memo around it is not
    modelled).  The clock is read at [read_time] by the cache lookup and at
    [write_time] by the cache write; the result comes with the file system
    the call leaves behind.  A fetched frame is empty only as the empty
    observation table. *)
Definition fetch_data (fs : gmap string file) (read_time write_time : Z)
    (indicator : string) (countries : list string) (start_year end_year : Z)
    : result (frame * gmap string file) :=
  let key := cache_key indicator countries start_year end_year in
  let* cached_data := load_data_cache fs read_time key DEFAULT_CACHE_DIR
                        DEFAULT_MAX_AGE_HOURS in
  match cached_data with
  | Some df => ret (df, fs)
  | None =>
      let fetched :=
        if String.eqb indicator "GDP"
        then Some (fetch_gdp countries start_year end_year)
        else if String.eqb indicator "Inflation"
        then Some (fetch_inflation countries start_year end_year)
        else if String.eqb indicator "Unemployment"
        then Some (fetch_unemployment countries start_year end_year)
        else None in
      match fetched with
      | None => ret (Obs [], fs)
      | Some fetch =>
          let* data := fetch in
          match data with
          | Obs [] => ret (data, fs)
          | _ =>
              let* fs' := store_fetched fs write_time data key in
              ret (data, fs')
          end
      end
  end.
End FetchData.

(** ** api/world_bank.py: [get_all_countries] *)

(** [WorldBankAPI.POPULAR_COUNTRIES], in source order. *)
Definition POPULAR_COUNTRIES_ITEMS : list (string * string) :=
  [ ("USA", "United States"); ("CHN", "China"); ("JPN", "Japan");
    ("DEU", "Germany"); ("GBR", "United Kingdom"); ("IND", "India");
    ("FRA", "France"); ("BRA", "Brazil"); ("ITA", "Italy");
    ("CAN", "Canada"); ("KOR", "Korea, Rep."); ("RUS", "Russian Federation");
    ("AUS", "Australia"); ("MEX", "Mexico"); ("IDN", "Indonesia");
    ("NLD", "Netherlands"); ("SAU", "Saudi Arabia"); ("TUR", "Turkey");
    ("CHE", "Switzerland"); ("POL", "Poland"); ("ESP", "Spain");
    ("ZAF", "South Africa"); ("ARG", "Argentina"); ("NGA", "Nigeria");
    ("EGY", "Egypt, Arab Rep.") ].

(** The dictionary itself; names are held as Python values, as in the
    dictionary built from a reply. *)
Definition POPULAR_COUNTRIES : gmap string pyval :=
  list_to_map (map (fun kv => (fst kv, PStr (snd kv))) POPULAR_COUNTRIES_ITEMS).

(** Truth value of a Python value in an [if]. *)
Definition py_truthy (v : pyval) : bool :=
  match v with
  | PNone => false
  | PBool b => b
  | PInt n => negb (n =? 0)
  | PFloat q => negb (Qeq_bool q 0)
  | PStr s => negb (String.eqb s "")
  | PList l => match l with [] => false | _ => true end
  | PDict d => match d with [] => false | _ => true end
  end.

(** The key of [countries[code] = name]: a list or a dictionary is not
    hashable; the other values of a length are strings. *)
Definition dict_key (code : pyval) : result string :=
  match code with
  | PStr s => ret s
  | _ => raise TypeError
  end.

Definition countries_url : string := BASE_URL +:+ "/country".

Definition countries_params : list (string * string) :=
  [ ("format", "json"); ("per_page", "500") ].

(** The loop of [get_all_countries] over [json_data[1]]. *)
Fixpoint collect_countries (entries : list pyval)
    (countries : gmap string pyval) : result (gmap string pyval) :=
  match entries with
  | [] => ret countries
  | entry :: rest =>
      let* capital := py_getitem entry "capitalCity" in
      if py_truthy capital then
        let* code := py_getitem entry "iso2Code" in
        let* name := py_getitem entry "name" in
        let* n := py_len code in
        if (n =? 2)%nat || (n =? 3)%nat then
          let* k := dict_key code in
          collect_countries rest (<[k := name]> countries)
        else collect_countries rest countries
      else collect_countries rest countries
  end.

(** The body of the [try] statement of [get_all_countries]. *)
Definition read_countries (session_get : provider)
    : result (gmap string pyval) :=
  match session_get countries_url countries_params with
  | NoReply => raise ConnectionError
  | Reply status body =>
      let* _ok := raise_for_status status in
      let* json_data := response_json body in
      let* n := py_len json_data in
      if (n <? 2)%nat then ret POPULAR_COUNTRIES
      else
        let* records := py_getitem_int json_data 1 in
        let* entries := py_iter records in
        let* countries := collect_countries entries ∅ in
        if decide (countries = ∅) then ret POPULAR_COUNTRIES
        else ret countries
  end.

Definition get_all_countries (session_get : provider)
    : result (gmap string pyval) :=
  try_except (read_countries session_get) (fun _ => ret POPULAR_COUNTRIES).

(** A country code of two or three characters. *)
Definition code_length_ok (k : string) : Prop :=
  String.length k = 2%nat \/ String.length k = 3%nat.

(** A binding of the result that was read off an entry of the reply. *)
Definition from_entry (entries : list pyval) (k : string) (v : pyval) : Prop :=
  exists entry capital,
    In entry entries /\
    py_getitem entry "capitalCity" = ret capital /\
    py_truthy capital = true /\
    py_getitem entry "iso2Code" = ret (PStr k) /\
    py_getitem entry "name" = ret v.

(** A reply listing two countries and one aggregate. *)
Definition countries_reply : list pyval :=
  [ PDict [ ("iso2Code", PStr "US"); ("name", PStr "United States");
            ("capitalCity", PStr "Washington D.C.") ];
    PDict [ ("iso2Code", PStr "1W"); ("name", PStr "World");
            ("capitalCity", PStr "") ];
    PDict [ ("iso2Code", PStr "FR"); ("name", PStr "France");
            ("capitalCity", PStr "Paris") ] ].

Definition countries_provider : provider :=
  fun url _ =>
    if String.eqb url countries_url
    then Reply 200 (Some (PList [metadata; PList countries_reply]))
    else NoReply.

(** ** visualizations/charts.py: the frame plotted by
    [create_growth_rate_chart] *)

(** [series.pct_change()] on one series; [prev] is the value before the
    first one, if any. *)
Fixpoint pct_change (prev : option Q) (vs : list Q) : list pyfloat :=
  match vs with
  | [] => []
  | v :: rest => pct_cell prev v :: pct_change (Some v) rest
  end.

Definition is_nan (f : pyfloat) : bool :=
  match f with NaN => true | _ => false end.

(** One iteration of the loop: the rows of a country by year, with their
    growth rate. *)
Definition country_growth (df : table) (c : string) : list growth_row :=
  let country_data := sort_by_year (rows_of df c) in
  map (fun rg => {| g_obs := fst rg; growth_rate := fscale (snd rg) 100 |})
      (combine country_data (pct_change None (map value country_data))).

(** [pd.concat(frames, ignore_index=True)]: an empty list of frames is a
    [ValueError]. *)
Definition pd_concat {A : Type} (frames : list (list A)) : result (list A) :=
  match frames with
  | [] => raise ValueError
  | _ => ret (concat frames)
  end.

(** [df_growth] as handed to the plotting library: the growth rows of all
    countries, those with an undefined rate dropped ([dropna]). *)
Definition chart_growth_data (df : table) : result (list growth_row) :=
  let growth_data := map (country_growth df) (unique (map country df)) in
  let* df_growth := pd_concat growth_data in
  ret (List.filter (fun g => negb (is_nan (growth_rate g))) df_growth).

(** ** helpers.py: [format_large_number] and [format_percentage] *)

(** Fixed-point printing of a float, [f"{x:.{precision}f}"], is taken as
    given. *)
Class Formatter : Type := {
  format_fixed : pyfloat -> Z -> string
}.

(** [abs(value)] *)
Definition fabs (x : pyfloat) : pyfloat :=
  match x with
  | Fin q => Fin (Qabs.Qabs q)
  | PosInf | NegInf => PosInf
  | NaN => NaN
  end.

(** [x < 0] and [x >= c] for a finite [c]; comparisons with NaN are
    false. *)
Definition fneg_b (x : pyfloat) : bool :=
  match x with
  | Fin q => Qltb q 0
  | NegInf => true
  | _ => false
  end.

Definition fge_b (x : pyfloat) (c : Q) : bool :=
  match x with
  | Fin q => Qle_bool c q
  | PosInf => true
  | _ => false
  end.

(** [x / c] for a finite non-zero [c]. *)
Definition fdiv_const (x : pyfloat) (c : Q) : pyfloat :=
  match x with Fin q => Fin (q / c) | other => other end.

Section Formatting.
Context `{Formatter}.

Definition format_large_number (value : pyfloat) (precision : Z) : string :=
  if is_nan value then "N/A"
  else
    let abs_value := fabs value in
    let sign := if fneg_b value then "-" else "" in
    if fge_b abs_value 1000000000000
    then sign +:+ format_fixed (fdiv_const abs_value 1000000000000) precision
              +:+ "T"
    else if fge_b abs_value 1000000000
    then sign +:+ format_fixed (fdiv_const abs_value 1000000000) precision
              +:+ "B"
    else if fge_b abs_value 1000000
    then sign +:+ format_fixed (fdiv_const abs_value 1000000) precision +:+ "M"
    else if fge_b abs_value 1000
    then sign +:+ format_fixed (fdiv_const abs_value 1000) precision +:+ "K"
    else sign +:+ format_fixed abs_value precision.

Definition format_percentage (value : pyfloat) (precision : Z) : string :=
  if is_nan value then "N/A"
  else format_fixed value precision +:+ "%".
End Formatting.

(** The suffixes of [format_large_number] with the factor each stands
    for. *)
Definition suffix_factors : list (string * Q) :=
  [ ("T", 1000000000000%Q); ("B", 1000000000%Q); ("M", 1000000%Q);
    ("K", 1000%Q); ("", 1%Q) ].

(** A printer for running examples: it shows the integer part only. *)
Definition sample_formatter : Formatter :=
  {| format_fixed := fun x _ =>
       match x with
       | Fin q => Py.str_of_int (Qtrunc q)
       | PosInf => "inf"
       | NegInf => "-inf"
       | NaN => "nan"
       end |}.

(** Further sample inputs. *)
Definition doubling_reversed : table := rev doubling.

Definition usa_row : observation := mkObs "United States" "USA" 2000 1.

Definition usa_key : string := cache_key "GDP" ["USA"] 2000 2001.

Definition silent_provider : provider := fun _ _ => NoReply.

Definition unavailable_provider : provider := fun _ _ => Reply 503 None.

Definition two_countries : gmap string pyval :=
  <["US" := PStr "United States"]> (<["FR" := PStr "France"]> ∅).

(** * Properties *)

(** ** Properties of the cache key *)

Section CacheKey.

Lemma append_inv_head (p s t : string) : p +:+ s = p +:+ t -> s = t.
Proof.
induction p as [|a p IH]; simpl; intros H; [exact H|].
injection H as H. auto.
Qed.

Lemma append_assoc (a b c : string) : (a +:+ b) +:+ c = a +:+ (b +:+ c).
Proof. induction a as [|x a IH]; simpl; [reflexivity|]. now f_equal. Qed.

Lemma append_nil_r (a : string) : a +:+ "" = a.
Proof. induction a as [|x a IH]; simpl; [reflexivity|]. now f_equal. Qed.

Lemma length_append (a b : string) :
String.length (a +:+ b) = (String.length a + String.length b)%nat.
Proof. induction a as [|x a IH]; simpl; [reflexivity|]. now f_equal. Qed.

Lemma append_inv_tail (s t q : string) : s +:+ q = t +:+ q -> s = t.
Proof.
revert t. induction s as [|a s IH]; intros [|b t] H; simpl in H.
- reflexivity.
- apply (f_equal String.length) in H. simpl in H.
  rewrite length_append in H. lia.
- apply (f_equal String.length) in H. simpl in H.
  rewrite length_append in H. lia.
- injection H as -> H. f_equal. now apply IH.
Qed.

Lemma word_split (c c' r r' : string) :
~ In "_"%char (list_ascii_of_string c) ->
~ In "_"%char (list_ascii_of_string c') ->
sep_or_end r -> sep_or_end r' ->
c +:+ r = c' +:+ r' -> c = c' /\ r = r'.
Proof.
revert c'. induction c as [|a c IH]; intros [|b c'] Hc Hc' Hr Hr' H;
  simpl in *.
- now split.
- exfalso. destruct Hr as [->|[r0 ->]]; [discriminate|].
  injection H as <- _. apply Hc'. now left.
- exfalso. destruct Hr' as [->|[r0 ->]]; [discriminate|].
  injection H as -> _. apply Hc. now left.
- injection H as -> H.
  destruct (IH c') as [-> ->]; auto.
Qed.

Lemma join_cons (c : string) (cs : list string) :
Py.join "_" (c :: cs) =
c +:+ match cs with [] => "" | _ => "_" +:+ Py.join "_" cs end.
Proof. destruct cs; simpl; [now rewrite append_nil_r | reflexivity]. Qed.

Lemma join_inj (cs cs' : list string) :
Forall iso_code cs -> Forall iso_code cs' ->
Py.join "_" cs = Py.join "_" cs' -> cs = cs'.
Proof.
revert cs'. induction cs as [|c cs IH]; intros cs' Hcs Hcs' H.
- destruct cs' as [|c' cs']; [reflexivity|exfalso].
  rewrite join_cons in H. apply Forall_inv in Hcs'. destruct Hcs' as [Hne _].
  destruct c'; [now apply Hne | discriminate].
- destruct cs' as [|c' cs'].
  + exfalso. rewrite join_cons in H. apply Forall_inv in Hcs.
    destruct Hcs as [Hne _]. destruct c; [now apply Hne | discriminate].
  + rewrite !join_cons in H.
    pose proof (Forall_inv Hcs) as [_ Hc].
    pose proof (Forall_inv Hcs') as [_ Hc'].
    apply word_split in H; auto.
    * destruct H as [-> H]. f_equal.
      apply Forall_inv_tail in Hcs, Hcs'.
      destruct cs as [|d cs], cs' as [|d' cs']; try discriminate; auto.
      apply IH; auto. simpl in H. now injection H.
    * destruct cs; [now left | right; simpl; eauto].
    * destruct cs'; [now left | right; simpl; eauto].
Qed.

End CacheKey.

(** C1 (as stated) fails: the key keeps the order of the codes. *)
Lemma cache_key_order_sensitive :
  Permutation ["USA"; "CHN"] ["CHN"; "USA"] /\
  cache_key "GDP" ["USA"; "CHN"] 2000 2023 = "GDP_USA_CHN_2000_2023" /\
  cache_key "GDP" ["CHN"; "USA"] 2000 2023 = "GDP_CHN_USA_2000_2023" /\
  cache_key "GDP" ["USA"; "CHN"] 2000 2023 <>
  cache_key "GDP" ["CHN"; "USA"] 2000 2023.
Proof.
  split; [apply perm_swap|]. split; [reflexivity|]. split; [reflexivity|].
  vm_compute. discriminate.
Qed.

(** C1 (amended): for a fixed indicator and year range, and lists of
    non-empty, underscore-free country codes, two requests get the same
    cache key exactly when their code lists are equal as sequences: the key
    is a deterministic function of the list in the order given, so
    reordering distinct codes changes the key. *)
Theorem cache_key_same_iff_same_sequence
    (indicator : string) (cs cs' : list string) (start_year end_year : Z) :
  Forall iso_code cs -> Forall iso_code cs' ->
  (cache_key indicator cs start_year end_year =
   cache_key indicator cs' start_year end_year <-> cs = cs').
Proof.
  intros Hcs Hcs'. split; [|now intros ->].
  unfold cache_key. intros H.
  apply append_inv_head in H. apply append_inv_head in H.
  rewrite <- !append_assoc in H.
  do 4 apply append_inv_tail in H.
  now apply join_inj.
Qed.

Lemma sample_codes_iso : Forall iso_code sample_codes.
Proof.
  repeat constructor; try discriminate;
    simpl; intros H; repeat (destruct H as [H|H]; [discriminate|]); exact H.
Qed.

Lemma cache_key_same_iff_same_sequence_witness :
  cache_key "GDP" sample_codes 2000 2023 =
  cache_key "GDP" sample_codes 2000 2023 <-> sample_codes = sample_codes.
Proof.
  apply (cache_key_same_iff_same_sequence "GDP" sample_codes sample_codes
           2000 2023 sample_codes_iso sample_codes_iso).
Defined.

(** ** Lists *)

Lemma last_cons {A : Type} (l : list A) (x y : A) :
  List.last (y :: l) x = List.last l y.
Proof.
  revert x y. induction l as [|z l IH]; intros x y; [reflexivity|].
  change (List.last (y :: z :: l) x) with (List.last (z :: l) x).
  now rewrite !IH.
Qed.

(** ** Row selection *)

Lemma select_snd_gen (f : observation -> bool) (df : table) (start : nat) :
  map snd (List.filter (fun ir : nat * observation => f (snd ir))
                  (combine (seq start (length df)) df)) = List.filter f df.
Proof.
  revert start. induction df as [|r df IH]; intros start; simpl; [reflexivity|].
  destruct (f r); simpl; now rewrite IH.
Qed.

Lemma select_country_rows (df : table) (c : string) :
  map snd (select_country df c) = rows_of df c.
Proof. apply (select_snd_gen (fun r => String.eqb (country r) c)). Qed.

Lemma select_country_nil (df : table) (c : string) :
  rows_of df c = [] -> select_country df c = [].
Proof.
  rewrite <- select_country_rows. destruct (select_country df c); [reflexivity|].
  discriminate.
Qed.

Lemma indexed_lookup (df : table) (i : nat) (r : observation) :
  In (i, r) (indexed df) -> nth_error df i = Some r.
Proof.
  unfold indexed.
  assert (G : forall start, In (i, r) (combine (seq start (length df)) df) ->
              exists k, i = (start + k)%nat /\ nth_error df k = Some r).
  { induction df as [|x df IH]; intros start; simpl; [tauto|].
    intros [H|H].
    - injection H as <- <-. exists 0%nat. split; [lia | reflexivity].
    - destruct (IH _ H) as (k & -> & Hk). exists (S k). split; [lia | exact Hk]. }
  intros H. destruct (G 0%nat H) as (k & -> & Hk). exact Hk.
Qed.

(** ** [compare_countries] *)

Lemma flat_map_all_nil {A B : Type} (f : A -> list B) (l : list A) :
  (forall x, In x l -> f x = []) -> flat_map f l = [].
Proof.
  induction l as [|x l IH]; intros H; simpl; [reflexivity|].
  rewrite (H x) by now left. apply IH. intros y Hy. apply H. now right.
Qed.

(** Rows selected for two different countries never share an index label,
    so the inner alignment made by [Series.corr] is empty. *)
Lemma align_inner_distinct (df : table) (c1 c2 : string) :
  c1 <> c2 ->
  align_inner (series (select_country df c1)) (series (select_country df c2)) = [].
Proof.
  intros Hne. unfold align_inner.
  apply flat_map_all_nil. intros [i v] Hi. simpl.
  destruct (List.filter _ _) as [|[j w] l] eqn:E; [reflexivity|exfalso].
  assert (Hj : In (j, w) (List.filter (fun y : nat * Q => Nat.eqb i (fst y))
                                 (series (select_country df c2))))
    by (rewrite E; now left).
  apply filter_In in Hj. destruct Hj as [Hj Heq]. simpl in Heq.
  apply Nat.eqb_eq in Heq. subst j.
  unfold series in Hi, Hj. apply in_map_iff in Hi, Hj.
  destruct Hi as ([i1 r1] & E1 & H1). destruct Hj as ([i2 r2] & E2 & H2).
  simpl in E1, E2. injection E1 as -> _. injection E2 as -> _.
  unfold select_country in H1, H2.
  apply filter_In in H1, H2. destruct H1 as [H1 K1]. destruct H2 as [H2 K2].
  apply indexed_lookup in H1, H2. rewrite H1 in H2. injection H2 as <-.
  simpl in K1, K2. apply String.eqb_eq in K1, K2. congruence.
Qed.

Lemma compare_countries_distinct_corr_nan (df : table) (c1 c2 : string) :
  c1 <> c2 ->
  series_corr (series (select_country df c1)) (series (select_country df c2))
  = None.
Proof. intros H. unfold series_corr. now rewrite align_inner_distinct. Qed.

Lemma positional_corr_two_series : positional_corr two_series "A" "B" = Some 1%R.
Proof.
  cbv -[Q2R sqrt Rdiv]. f_equal.
  replace (Q2R _) with 4%R at 1 by (unfold Q2R; simpl; lra).
  replace (Q2R _) with (4 * 4)%R by (unfold Q2R; simpl; lra).
  rewrite sqrt_square by lra. lra.
Qed.

(** C4: on a table holding two perfectly correlated series of equal length,
    already in year order, [compare_countries] reports the correlation as
    NaN: [Series.corr] pairs values by index label and the two selections
    share none.  Pairing by position, as the specification describes, gives 1. *)
Theorem compare_countries_correlation_by_label :
  length (rows_of two_series "A") = length (rows_of two_series "B") /\
  compare_countries two_series "A" "B" !! "correlation" = Some (CCorr None) /\
  positional_corr two_series "A" "B" = Some 1%R.
Proof.
  split; [reflexivity|]. split; [|apply positional_corr_two_series].
  vm_compute. reflexivity.
Qed.

(** C10: when either named country has no row in the table, the comparison
    is the empty dictionary: none of its keys is bound. *)
Theorem compare_countries_absent_country
    (df : table) (country1 country2 : string) :
  rows_of df country1 = [] \/ rows_of df country2 = [] ->
  compare_countries df country1 country2 = ∅ /\
  forall key : string, compare_countries df country1 country2 !! key = None.
Proof.
  intros H.
  assert (E : compare_countries df country1 country2 = ∅).
  { unfold compare_countries. destruct H as [H|H];
      rewrite (select_country_nil _ _ H).
    - reflexivity.
    - now destruct (select_country df country1). }
  split; [exact E|]. intros key. rewrite E. apply lookup_empty.
Qed.

Lemma compare_countries_absent_country_witness :
  compare_countries two_series "A" "C" = ∅ /\
  forall key : string, compare_countries two_series "A" "C" !! key = None.
Proof.
  apply (compare_countries_absent_country two_series "A" "C").
  right. reflexivity.
Defined.

(** ** [calculate_statistics] *)

(** On rows in strictly increasing year order the last value is the value
    at the greatest year: [calculate_statistics] is right on the frames
    [fetch_indicator] builds. *)
Lemma latest_of_year_sorted (rows : table) :
  StronglySorted (fun a b => year a < year b) rows ->
  agg_last (map value rows) = value_at_max_year rows.
Proof.
  destruct rows as [|r rest]; [reflexivity|]. simpl. intros Hs. f_equal.
  revert r Hs. induction rest as [|x rest IH]; intros r Hs; [reflexivity|].
  apply StronglySorted_inv in Hs. destruct Hs as [Hs Hr].
  apply Forall_inv in Hr.
  change (map value (x :: rest)) with (value x :: map value rest).
  rewrite last_cons. simpl fold_left.
  replace (year r <? year x) with true by (symmetry; now apply Z.ltb_lt).
  now apply IH.
Qed.

(** C2: on a table whose rows are not in year order, the 'latest' column is
    the value of the last row of the group (year 2019), not the value at
    the greatest year (2020). *)
Theorem calculate_statistics_latest_is_last_row :
  map (fun s => (st_country s, st_latest s)) (calculate_statistics unsorted_rows)
    = [("A", Fin 3)] /\
  value_at_max_year (rows_of unsorted_rows "A") = Fin 5.
Proof. split; reflexivity. Qed.

(** ** The stable sort *)

Section StableSortFacts.
Context {A : Type} (leb : A -> A -> bool).

Lemma insert_sorted_perm (x : A) (l : list A) :
  Permutation (insert_sorted leb x l) (x :: l).
Proof.
  induction l as [|y l IH]; simpl; [reflexivity|].
  destruct (leb x y); [reflexivity|].
  rewrite IH. apply perm_swap.
Qed.

Lemma stable_sort_perm (l : list A) : Permutation (stable_sort leb l) l.
Proof.
  induction l as [|x l IH]; simpl; [reflexivity|].
  rewrite insert_sorted_perm. now constructor.
Qed.

Lemma stable_sort_In (l : list A) (x : A) :
  In x (stable_sort leb l) <-> In x l.
Proof.
  split; apply Permutation_in;
    [apply stable_sort_perm | symmetry; apply stable_sort_perm].
Qed.

Lemma stable_sort_length (l : list A) :
  length (stable_sort leb l) = length l.
Proof. apply Permutation_length, stable_sort_perm. Qed.

Hypothesis leb_total : forall a b, leb a b = true \/ leb b a = true.
Hypothesis leb_trans :
  forall a b c, leb a b = true -> leb b c = true -> leb a c = true.

Let R (a b : A) : Prop := leb a b = true.

Lemma insert_sorted_sorted (x : A) (l : list A) :
  StronglySorted R l -> StronglySorted R (insert_sorted leb x l).
Proof.
  induction 1 as [|y l Hl IH Hy]; simpl.
  - constructor; constructor.
  - destruct (leb x y) eqn:E.
    + constructor; [now constructor|].
      constructor; [exact E|].
      rewrite List.Forall_forall in Hy |- *. intros z Hz.
      apply (leb_trans x y z E). now apply Hy.
    + constructor; [exact IH|].
      rewrite List.Forall_forall in Hy |- *. intros z Hz.
      apply (Permutation_in _ (insert_sorted_perm x l)) in Hz.
      destruct Hz as [<-|Hz]; [|now apply Hy].
      destruct (leb_total x y) as [H|H]; [congruence | exact H].
Qed.

Lemma stable_sort_sorted (l : list A) : StronglySorted R (stable_sort leb l).
Proof.
  induction l as [|x l IH]; simpl; [constructor|].
  now apply insert_sorted_sorted.
Qed.

(** In a sorted list an earlier element is below a later one. *)
Lemma sorted_lookup_le (l : list A) (i j : nat) (a b : A) :
  StronglySorted R l -> (i < j)%nat ->
  l !! i = Some a -> l !! j = Some b -> leb a b = true.
Proof.
  intros Hs. revert i j. induction Hs as [|x l Hl IH Hx]; intros i j Hij Hi Hj.
  - discriminate.
  - destruct j as [|j]; [lia|]. simpl in Hj.
    destruct i as [|i]; simpl in Hi.
    + injection Hi as ->. rewrite List.Forall_forall in Hx. apply Hx.
      apply list_elem_of_In. eapply list_elem_of_lookup_2. exact Hj.
    + apply (IH i j); [lia|assumption..].
Qed.
End StableSortFacts.

(** ** The order on strings and on rows *)

Lemma string_compare_refl (s : string) : String.compare s s = Eq.
Proof.
  pose proof (String.compare_antisym s s) as H.
  destruct (String.compare s s); simpl in H; congruence.
Qed.

Lemma string_compare_Lt_trans (a b c : string) :
  String.compare a b = Lt -> String.compare b c = Lt -> String.compare a c = Lt.
Proof.
  intros Hab Hbc.
  assert (Lab : String.le a b) by (unfold String.le, String.leb; now rewrite Hab).
  assert (Lbc : String.le b c) by (unfold String.le, String.leb; now rewrite Hbc).
  assert (Lac : String.le a c) by (etransitivity; eassumption).
  unfold String.le, String.leb in Lac.
  destruct (String.compare a c) eqn:E; [|reflexivity|contradiction].
  apply String.compare_eq_iff in E. subst c.
  rewrite String.compare_antisym, Hab in Hbc. discriminate.
Qed.

Lemma country_year_leb_total (a b : observation) :
  country_year_leb a b = true \/ country_year_leb b a = true.
Proof.
  unfold country_year_leb. rewrite (String.compare_antisym (country b)).
  destruct (String.compare (country a) (country b)); simpl; auto.
  destruct (Z.leb_spec (year a) (year b)); [now left|right].
  apply Z.leb_le. lia.
Qed.

Lemma country_year_leb_trans (a b c : observation) :
  country_year_leb a b = true -> country_year_leb b c = true ->
  country_year_leb a c = true.
Proof.
  unfold country_year_leb.
  destruct (String.compare (country a) (country b)) eqn:Eab; try discriminate;
  destruct (String.compare (country b) (country c)) eqn:Ebc; try discriminate;
  intros Hab Hbc.
  - apply String.compare_eq_iff in Eab, Ebc. rewrite Eab, Ebc.
    rewrite string_compare_refl. apply Z.leb_le.
    apply Z.leb_le in Hab, Hbc. lia.
  - apply String.compare_eq_iff in Eab. now rewrite Eab, Ebc.
  - apply String.compare_eq_iff in Ebc. now rewrite <- Ebc, Eab.
  - now rewrite (string_compare_Lt_trans _ _ _ Eab Ebc).
Qed.

Lemma year_leb_total (a b : observation) :
  year_leb a b = true \/ year_leb b a = true.
Proof.
  unfold year_leb. destruct (Z.leb_spec (year a) (year b)); [now left|right].
  apply Z.leb_le. lia.
Qed.

Lemma year_leb_trans (a b c : observation) :
  year_leb a b = true -> year_leb b c = true -> year_leb a c = true.
Proof. unfold year_leb. rewrite !Z.leb_le. lia. Qed.

Lemma sort_by_country_year_sorted (df : table) :
  StronglySorted (fun a b => country_year_leb a b = true)
                 (sort_by_country_year df).
Proof.
  apply stable_sort_sorted;
    [apply country_year_leb_total | apply country_year_leb_trans].
Qed.

Lemma sort_by_year_sorted (df : table) :
  StronglySorted (fun a b => year_leb a b = true) (sort_by_year df).
Proof.
  apply stable_sort_sorted; [apply year_leb_total | apply year_leb_trans].
Qed.

(** ** [calculate_growth_rate] *)

Lemma lookup_map {A B : Type} (f : A -> B) (l : list A) (i : nat) :
  map f l !! i = option_map f (l !! i).
Proof.
  revert i. induction l as [|x l IH]; intros [|i]; simpl; auto.
Qed.

Lemma pct_change_lookup (rows seen : table) (i : nat) (r : observation) :
  rows !! i = Some r ->
  pct_change_by_country seen rows !! i =
  Some (pct_cell (prev_value (rev (take i rows) ++ seen) (country r))
                 (value r)).
Proof.
  revert seen i. induction rows as [|x rows IH]; intros seen i Hi;
    [discriminate|].
  destruct i as [|i]; simpl in Hi |- *.
  - injection Hi as ->. reflexivity.
  - rewrite (IH (x :: seen) i Hi). now rewrite <- app_assoc.
Qed.

Lemma pct_change_length (rows seen : table) :
  length (pct_change_by_country seen rows) = length rows.
Proof.
  revert seen. induction rows as [|x rows IH]; intros seen; simpl;
    [reflexivity|]. now rewrite IH.
Qed.

Lemma growth_obs (df : table) :
  map g_obs (calculate_growth_rate df) = sort_by_country_year df.
Proof.
  unfold calculate_growth_rate. rewrite map_map. simpl.
  generalize (pct_change_length (sort_by_country_year df) []).
  generalize (pct_change_by_country [] (sort_by_country_year df)).
  induction (sort_by_country_year df) as [|x l IH]; intros [|p ps] H;
    simpl in *; try discriminate; [reflexivity|].
  f_equal. apply IH. lia.
Qed.

Lemma growth_lookup (df : table) (i : nat) (g : growth_row) :
  calculate_growth_rate df !! i = Some g ->
  sort_by_country_year df !! i = Some (g_obs g) /\
  growth_rate g =
  fscale (pct_cell (prev_value (rev (take i (sort_by_country_year df)))
                               (country (g_obs g)))
                   (value (g_obs g))) 100.
Proof.
  intros H.
  assert (Ho : sort_by_country_year df !! i = Some (g_obs g)).
  { rewrite <- growth_obs. rewrite lookup_map, H. reflexivity. }
  split; [exact Ho|].
  unfold calculate_growth_rate in H. cbv zeta in H.
  rewrite lookup_map in H.
  destruct (combine _ _ !! i) as [[o p]|] eqn:E; [|discriminate].
  injection H as <-. simpl in Ho |- *.
  assert (Hp : pct_change_by_country [] (sort_by_country_year df) !! i = Some p).
  { revert E. generalize (pct_change_by_country [] (sort_by_country_year df)).
    generalize (sort_by_country_year df). clear. intros l.
    revert i. induction l as [|x l IH]; intros i [|q qs] E; simpl in E;
      try discriminate.
    destruct i as [|i]; simpl in E |- *; [now injection E as _ -> | eauto]. }
  assert (Hq : sort_by_country_year df !! i = Some o) by congruence.
  rewrite (pct_change_lookup _ [] i o Hq), app_nil_r in Hp.
  now injection Hp as <-.
Qed.

Lemma country_year_leb_country (a b : observation) :
  country_year_leb a b = true -> String.compare (country a) (country b) <> Gt.
Proof.
  unfold country_year_leb.
  destruct (String.compare (country a) (country b)); congruence.
Qed.

Lemma string_compare_antisym_eq (a b : string) :
  String.compare a b <> Gt -> String.compare b a <> Gt -> a = b.
Proof.
  intros H1 H2. rewrite String.compare_antisym in H2.
  destruct (String.compare a b) eqn:E; simpl in *; try congruence.
  now apply String.compare_eq_iff.
Qed.

Lemma rows_of_nil (l : table) (c : string) :
  (forall o, In o l -> country o <> c) -> rows_of l c = [].
Proof.
  induction l as [|x l IH]; intros H; simpl; [reflexivity|].
  destruct (String.eqb_spec (country x) c) as [E|_].
  - exfalso. apply (H x); [now left | exact E].
  - apply IH. intros o Ho. apply H. now right.
Qed.

Lemma first_of_country_no_prev (df : table) (i : nat) (g : growth_row) :
  calculate_growth_rate df !! i = Some g ->
  first_of_country (calculate_growth_rate df) i ->
  prev_value (rev (take i (sort_by_country_year df))) (country (g_obs g)) = None.
Proof.
  intros Hg Hfirst. unfold prev_value.
  rewrite rows_of_nil; [reflexivity|].
  intros o Ho Heq. apply in_rev in Ho. apply list_elem_of_In in Ho.
  apply list_elem_of_lookup in Ho. destruct Ho as [j Hj].
  apply lookup_take_Some in Hj. destruct Hj as [Hj Hlt].
  destruct i as [|k]; [lia|].
  destruct Hfirst as (p & r & Hp & Hr & Hne).
  rewrite Hg in Hr. injection Hr as <-.
  apply growth_lookup in Hg, Hp. destruct Hg as [Hg _], Hp as [Hp _].
  pose proof (sort_by_country_year_sorted df) as Hs.
  assert (Hpg : country_year_leb (g_obs p) (g_obs g) = true)
    by (apply (sorted_lookup_le _ _ k (S k) _ _ Hs); auto).
  assert (Hop : String.compare (country o) (country (g_obs p)) <> Gt).
  { destruct (decide (j = k)) as [->|Hjk].
    - rewrite Hp in Hj. injection Hj as ->. rewrite string_compare_refl.
      discriminate.
    - apply country_year_leb_country.
      apply (sorted_lookup_le _ _ j k _ _ Hs); auto. lia. }
  apply Hne. apply string_compare_antisym_eq.
  - now apply country_year_leb_country.
  - now rewrite <- Heq.
Qed.

Lemma same_country_prev (l : table) (i : nat) (p : observation) (c : string) :
  l !! i = Some p -> country p = c ->
  prev_value (rev (take (S i) l)) c = Some (value p).
Proof.
  intros Hp Hc. rewrite (take_S_r _ _ _ Hp), rev_app_distr. simpl.
  unfold prev_value. simpl. subst c. now rewrite String.eqb_refl.
Qed.

Lemma pct_formula (v p : Q) :
  ~ (p == 0)%Q ->
  feq (fscale (fsub_const (fdiv v p) 1) 100) (Fin ((v - p) / p * 100)).
Proof.
  intros Hp. unfold fdiv.
  destruct (Qeq_bool p 0) eqn:E; [apply Qeq_bool_eq in E; contradiction|].
  simpl. field. exact Hp.
Qed.

Lemma pct_zero_base (v p : Q) :
  (p == 0)%Q ->
  fscale (fsub_const (fdiv v p) 1) 100 =
  if Qgtb v 0 then PosInf else if Qltb v 0 then NegInf else NaN.
Proof.
  intros Hp. unfold fdiv. rewrite (Qeq_eq_bool _ _ Hp).
  now destruct (Qgtb v 0), (Qltb v 0).
Qed.

(** C3 (as stated) fails: the first-year row is not dropped, and neither is
    a row whose previous value is zero. *)
Lemma calculate_growth_rate_drops_nothing :
  map (fun g => year (g_obs g)) (calculate_growth_rate series_2018_2020)
    = [2018; 2019; 2020] /\
  map (fun g => year (g_obs g)) (calculate_growth_rate series_2018_2020)
    <> [2019; 2020] /\
  map (fun g => (year (g_obs g), growth_rate g))
      (calculate_growth_rate zero_base_series)
    = [(2018, NaN); (2019, PosInf)].
Proof. split; [reflexivity|]. split; [discriminate|reflexivity]. Qed.

(** C3 (amended): the output of [calculate_growth_rate] holds every row of
    the input, sorted by (country, year), with a growth-rate column.  The
    first row of each country carries NaN; any later row carries
    [(value[t] - value[t-1]) / value[t-1] * 100] when the previous value is
    not zero, and an infinity or NaN (no fault) when it is zero.  The series
    [100, 110, 99] for 2018-2020 gives NaN, +10 and -10. *)
Theorem calculate_growth_rate_column (df : table) :
  let out := calculate_growth_rate df in
  map g_obs out = sort_by_country_year df /\
  Permutation (map g_obs out) df /\
  (forall i g, out !! i = Some g -> first_of_country out i ->
               growth_rate g = NaN) /\
  (forall i p g,
     out !! i = Some p -> out !! S i = Some g ->
     country (g_obs p) = country (g_obs g) ->
     let prev := value (g_obs p) in
     let cur := value (g_obs g) in
     (~ (prev == 0)%Q ->
      feq (growth_rate g) (Fin ((cur - prev) / prev * 100))) /\
     ((prev == 0)%Q ->
      growth_rate g =
      if Qgtb cur 0 then PosInf else if Qltb cur 0 then NegInf else NaN)) /\
  Forall2 (fun g e => year (g_obs g) = fst e /\ feq (growth_rate g) (snd e))
          (calculate_growth_rate series_2018_2020)
          [(2018, NaN); (2019, Fin 10); (2020, Fin (-10))].
Proof.
  intros out. subst out. split; [apply growth_obs|].
  split; [rewrite growth_obs; apply stable_sort_perm|].
  split; [|split].
  - intros i g Hg Hfirst.
    destruct (growth_lookup df i g Hg) as [_ ->].
    now rewrite (first_of_country_no_prev df i g Hg Hfirst).
  - intros i p g Hp Hg Hc prev cur.
    destruct (growth_lookup df _ _ Hp) as [Hp' _].
    destruct (growth_lookup df _ _ Hg) as [_ ->].
    rewrite (same_country_prev _ _ _ _ Hp' Hc). simpl.
    split; [apply pct_formula | apply pct_zero_base].
  - repeat constructor; simpl; reflexivity.
Qed.

(** ** [calculate_cagr] *)

Lemma unique_In (l : list string) (x : string) : In x (unique l) <-> In x l.
Proof.
  induction l as [|y l IH]; simpl; [tauto|].
  rewrite filter_In, IH. split.
  - intros [H|[H _]]; auto.
  - intros [H|H]; [now left|].
    destruct (String.eqb_spec x y) as [->|Hne]; [now left|right].
    split; [exact H|reflexivity].
Qed.

Lemma rows_of_In (df : table) (c : string) (o : observation) :
  In o (rows_of df c) <-> In o df /\ country o = c.
Proof.
  unfold rows_of. rewrite filter_In. now rewrite String.eqb_eq.
Qed.

Lemma country_data_In (df : table) (c : string) (o : observation) :
  In o (sort_by_year (rows_of df c)) <-> In o df /\ country o = c.
Proof. unfold sort_by_year. now rewrite stable_sort_In, rows_of_In. Qed.

(** The head of a year-sorted list has the least year, its last element
    the greatest. *)
Lemma sorted_head_least (x : observation) (l : table) :
  StronglySorted (fun a b => year_leb a b = true) (x :: l) ->
  forall o, In o (x :: l) -> year x <= year o.
Proof.
  intros Hs o [<-|Ho]; [lia|].
  apply StronglySorted_inv in Hs. destruct Hs as [_ Hx].
  rewrite List.Forall_forall in Hx. apply Z.leb_le. now apply Hx.
Qed.

Lemma sorted_last_greatest (x : observation) (l : table) :
  StronglySorted (fun a b => year_leb a b = true) (x :: l) ->
  forall o, In o (x :: l) -> year o <= year (List.last l x).
Proof.
  revert x. induction l as [|y l IH]; intros x Hs o Ho.
  - destruct Ho as [<-|[]]. simpl. lia.
  - apply StronglySorted_inv in Hs. destruct Hs as [Hs Hx].
    rewrite last_cons. destruct Ho as [<-|Ho].
    + assert (Hxy : year x <= year y).
      { apply Z.leb_le. rewrite List.Forall_forall in Hx. apply Hx. now left. }
      specialize (IH y Hs y (or_introl eq_refl)). lia.
    + now apply IH.
Qed.

Lemma last_In (x : observation) (l : table) : In (List.last l x) (x :: l).
Proof.
  revert x. induction l as [|y l IH]; intros x; [now left|].
  right. rewrite last_cons. apply IH.
Qed.

(** An argument that is absent or not zero is true exactly when it is
    given. *)
Lemma truthy_given (y : option Z) :
  y <> Some 0 ->
  truthy y = match y with Some _ => true | None => false end.
Proof.
  destruct y as [n|]; [|reflexivity]. intros Hn. simpl.
  destruct (Z.eqb_spec n 0) as [->|]; [congruence | reflexivity].
Qed.

Section Endpoints.
Variables (df : table) (c : string).
Hypothesis Hkey : key_unique df.

Let country_data := sort_by_year (rows_of df c).

Lemma filter_year_head (y : Z) (s : observation) :
  (exists rest,
     List.filter (fun r => year r =? y) country_data = s :: rest) <->
  In s df /\ country s = c /\ year s = y.
Proof.
  split.
  - intros [rest E].
    assert (Hs : In s (List.filter (fun r => year r =? y) country_data))
      by (rewrite E; now left).
    apply filter_In in Hs. destruct Hs as [Hs Hy].
    apply country_data_In in Hs. apply Z.eqb_eq in Hy. tauto.
  - intros (Hs & Hc & Hy).
    destruct (List.filter (fun r => year r =? y) country_data)
      as [|s' rest] eqn:E.
    + exfalso.
      assert (Hin : In s (List.filter (fun r => year r =? y) country_data)).
      { apply filter_In. split; [now apply country_data_In|].
        now apply Z.eqb_eq. }
      now rewrite E in Hin.
    + exists rest. f_equal.
      assert (Hs' : In s' (List.filter (fun r => year r =? y) country_data))
        by (rewrite E; now left).
      apply filter_In in Hs'. destruct Hs' as [Hs' Hy'].
      apply country_data_In in Hs'. apply Z.eqb_eq in Hy'.
      apply Hkey; intuition congruence.
Qed.

Lemma start_data_head (start_year : option Z) (s : observation) :
  start_year <> Some 0 ->
  (exists rest, start_data country_data start_year = s :: rest) <->
  is_start df start_year c s.
Proof.
  intros Hz. unfold start_data, is_start. rewrite (truthy_given _ Hz).
  destruct start_year as [y|].
  - simpl. rewrite filter_year_head. tauto.
  - pose proof (sort_by_year_sorted (rows_of df c)) as Hs.
    fold country_data in Hs.
    pose proof (country_data_In df c) as Hin. fold country_data in Hin.
    destruct country_data as [|x l]; simpl.
    + split; [intros [? ?]; discriminate|].
      intros (H1 & H2 & _). exfalso. apply (proj2 (Hin s)). auto.
    + split.
      * intros [rest E]. injection E as <- _.
        destruct (proj1 (Hin x) (or_introl eq_refl)) as [Hx Hc].
        repeat split; auto. intros o Ho Hoc.
        apply (sorted_head_least x l Hs). apply Hin. auto.
      * intros (H1 & H2 & Hmin). exists []. f_equal.
        destruct (proj1 (Hin x) (or_introl eq_refl)) as [Hx Hc].
        apply Hkey; auto; [congruence|].
        assert (year x <= year s)
          by (apply (sorted_head_least x l Hs), Hin; auto).
        specialize (Hmin x Hx Hc). lia.
Qed.

Lemma end_data_head (end_year : option Z) (e : observation) :
  end_year <> Some 0 ->
  (exists rest, end_data country_data end_year = e :: rest) <->
  is_end df end_year c e.
Proof.
  intros Hz. unfold end_data, is_end. rewrite (truthy_given _ Hz).
  destruct end_year as [y|].
  - simpl. rewrite filter_year_head. tauto.
  - pose proof (sort_by_year_sorted (rows_of df c)) as Hs.
    fold country_data in Hs.
    pose proof (country_data_In df c) as Hin. fold country_data in Hin.
    destruct country_data as [|x l]; simpl.
    + split; [intros [? ?]; discriminate|].
      intros (H1 & H2 & _). exfalso. apply (proj2 (Hin e)). auto.
    + pose proof (last_In x l) as Hl.
      destruct (proj1 (Hin _) Hl) as [Hx Hc].
      split.
      * intros [rest E]. injection E as <- _.
        repeat split; auto. intros o Ho Hoc.
        apply (sorted_last_greatest x l Hs). apply Hin. auto.
      * intros (H1 & H2 & Hmax). exists []. f_equal.
        apply Hkey; auto; [congruence|].
        assert (year e <= year (List.last l x))
          by (apply (sorted_last_greatest x l Hs), Hin; auto).
        specialize (Hmax _ Hx Hc). lia.
Qed.

(** For year arguments that are absent or not zero, one loop iteration
    yields a record exactly when both endpoints exist, the end year is
    later and the start value is positive. *)
Lemma cagr_of_country_Some (start_year end_year : option Z) (r : cagr_row) :
  start_year <> Some 0 -> end_year <> Some 0 ->
  cagr_of_country df start_year end_year c = Some r <->
  exists s e,
    is_start df start_year c s /\ is_end df end_year c e /\
    year s < year e /\ (0 < value s)%Q /\
    r = {| cg_country := c;
           cg_start_year := year s; cg_end_year := year e;
           cg_start_value := value s; cg_end_value := value e;
           cg_cagr := cagr_value (value s) (value e) (year e - year s) |}.
Proof.
  intros Hs0 He0. unfold cagr_of_country. fold country_data.
  pose proof (start_data_head start_year) as HS.
  pose proof (end_data_head end_year) as HE.
  destruct (start_data country_data start_year) as [|s srest].
  { split; [discriminate|]. intros (s & e & Hs & _).
    apply HS in Hs; [|exact Hs0]. destruct Hs as [? ?]. discriminate. }
  destruct (end_data country_data end_year) as [|e erest].
  { split; [discriminate|]. intros (s' & e & _ & He & _).
    apply HE in He; [|exact He0]. destruct He as [? ?]. discriminate. }
  assert (Hs : is_start df start_year c s) by (apply HS; eauto).
  assert (He : is_end df end_year c e) by (apply HE; eauto).
  split.
  - destruct (0 <? year e - year s) eqn:Ey; [|discriminate].
    destruct (Qltb 0 (value s)) eqn:Ev; [|discriminate].
    simpl. intros H. injection H as <-.
    exists s, e. split; [exact Hs|]. split; [exact He|].
    split; [apply Z.ltb_lt in Ey; lia|]. split; [|reflexivity].
    unfold Qltb in Ev. apply negb_true_iff in Ev.
    apply Qnot_le_lt. intros Hle. apply Qle_bool_iff in Hle. congruence.
  - intros (s' & e' & Hs' & He' & Hy & Hv & ->).
    apply HS in Hs'; [|exact Hs0]. apply HE in He'; [|exact He0].
    destruct Hs' as [? Hs'], He' as [? He'].
    injection Hs' as <- _. injection He' as <- _.
    replace (0 <? year e - year s) with true
      by (symmetry; apply Z.ltb_lt; lia).
    replace (Qltb 0 (value s)) with true; [reflexivity|].
    symmetry. unfold Qltb. apply negb_true_iff.
    destruct (Qle_bool (value s) 0) eqn:E; [|reflexivity].
    apply Qle_bool_iff in E. exfalso. apply (Qlt_not_le _ _ Hv E).
Qed.
End Endpoints.

Lemma Qltb_true (a b : Q) : (a < b)%Q -> Qltb a b = true.
Proof.
  intros H. unfold Qltb. apply negb_true_iff.
  destruct (Qle_bool b a) eqn:E; [|reflexivity].
  apply Qle_bool_iff in E. exfalso. exact (Qlt_not_le _ _ H E).
Qed.

(** With positive endpoints the float computation is the real formula. *)
Lemma cagr_value_formula (s e : Q) (years : Z) :
  (0 < s)%Q -> (0 < e)%Q ->
  cagr_value s e years = Some (cagr_formula s e years).
Proof.
  intros Hs He. unfold cagr_value, float_root, cagr_formula.
  assert (Hr : (0 < e / s)%Q).
  { unfold Qdiv. apply Qmult_lt_0_compat; [exact He|].
    now apply Qinv_lt_0_compat. }
  rewrite (Qltb_true _ _ Hr). simpl.
  rewrite Qreals.Q2R_div; [reflexivity|].
  intros E. rewrite E in Hs. now apply Qlt_irrefl in Hs.
Qed.

Lemma tenth_root_of_two :
  (1.07177 < Rpower 2 (1 / 10) < 1.07178)%R.
Proof.
  set (y := Rpower 2 (1 / 10)).
  assert (Hy : (0 < y)%R) by (unfold y, Rpower; apply exp_pos).
  assert (Hp : (y ^ 10 = 2)%R).
  { rewrite <- (Rpower_pow 10 y Hy). unfold y. rewrite Rpower_mult.
    replace (1 / 10 * INR 10)%R with 1%R by (simpl; field).
    apply Rpower_1. lra. }
  split.
  - destruct (Rlt_le_dec 1.07177 y) as [H|H]; [exact H|exfalso].
    assert (K : (y ^ 10 <= 1.07177 ^ 10)%R) by (apply pow_incr; lra).
    rewrite Hp in K. lra.
  - destruct (Rlt_le_dec y 1.07178) as [H|H]; [exact H|exfalso].
    assert (K : (1.07178 ^ 10 <= y ^ 10)%R) by (apply pow_incr; lra).
    rewrite Hp in K. lra.
Qed.

Lemma doubling_key_unique : key_unique doubling.
Proof.
  intros a b Ha Hb Hc Hy. simpl in Ha, Hb.
  repeat (destruct Ha as [<-|Ha]; [|]); try contradiction;
    repeat (destruct Hb as [<-|Hb]; [|]); try contradiction;
    simpl in Hc, Hy; try reflexivity; discriminate.
Qed.

Lemma doubling_cagr :
  exists r : R,
    calculate_cagr doubling None None =
      [ {| cg_country := "A"; cg_start_year := 2000; cg_end_year := 2010;
           cg_start_value := 100; cg_end_value := 200; cg_cagr := Some r |} ]
    /\ (7.177 < r < 7.178)%R.
Proof.
  exists (cagr_formula 100 200 10). split.
  - rewrite <- (cagr_value_formula 100 200 10) by reflexivity. reflexivity.
  - unfold cagr_formula.
    replace (Q2R 200 / Q2R 100)%R with 2%R by (unfold Q2R; simpl; field).
    pose proof tenth_root_of_two. lra.
Qed.

Lemma Qltb_false (a b : Q) : (b <= a)%Q -> Qltb a b = false.
Proof.
  intros H. unfold Qltb. apply negb_false_iff. now apply Qle_bool_iff.
Qed.

Lemma Qeq_bool_false (a b : Q) : ~ (a == b)%Q -> Qeq_bool a b = false.
Proof.
  intros H. destruct (Qeq_bool a b) eqn:E; [|reflexivity].
  apply Qeq_bool_eq in E. contradiction.
Qed.

(** The value stored in a record is the value of the expression of the
    specification, whatever the sign of the end value. *)
Lemma cagr_value_is_cagr (s e : Q) (years : Z) :
  (0 < s)%Q -> 0 < years -> is_cagr s e years (cagr_value s e years).
Proof.
  intros Hs Hy.
  assert (Hs0 : ~ (s == 0)%Q)
    by (intros E; rewrite E in Hs; now apply Qlt_irrefl in Hs).
  assert (Hneg : (e < 0)%Q -> (e / s < 0)%Q).
  { intros He. apply Qlt_shift_div_r; [exact Hs|]. now rewrite Qmult_0_l. }
  unfold is_cagr. split; [|split; [|split]].
  - intros He. now apply cagr_value_formula.
  - intros He. unfold cagr_value, float_root.
    assert (E : (e / s == 0)%Q) by (rewrite He; field; exact Hs0).
    rewrite Qltb_false by (rewrite E; apply Qle_refl).
    replace (Qeq_bool (e / s) 0) with true
      by (symmetry; now apply Qeq_bool_iff).
    simpl. f_equal. lra.
  - intros He ->. specialize (Hneg He). unfold cagr_value, float_root.
    rewrite Qltb_false by (now apply Qlt_le_weak).
    rewrite Qeq_bool_false
      by (intros E; rewrite E in Hneg; now apply Qlt_irrefl in Hneg).
    simpl. f_equal. rewrite Qreals.Q2R_div by exact Hs0. reflexivity.
  - intros He Hy1. specialize (Hneg He). unfold cagr_value, float_root.
    rewrite Qltb_false by (now apply Qlt_le_weak).
    rewrite Qeq_bool_false
      by (intros E; rewrite E in Hneg; now apply Qlt_irrefl in Hneg).
    replace (years =? 1) with false by (symmetry; apply Z.eqb_neq; lia).
    reflexivity.
Qed.

Lemma around_zero_key_unique : key_unique around_zero.
Proof.
  intros a b Ha Hb Hc Hy. simpl in Ha, Hb.
  repeat (destruct Ha as [<-|Ha]; [|]); try contradiction;
    repeat (destruct Hb as [<-|Hb]; [|]); try contradiction;
    simpl in Hc, Hy; try reflexivity; discriminate.
Qed.

(** C5: [calculate_cagr] tests its year arguments by truth value
    ([if start_year:]), so a requested year of 0 is taken as absent.  On
    the series with observations at the years -10, 0 and 10 (one row per
    year) and [start_year = 0], the record starts at the earliest
    observation (year -10, value 1) although the start observation, the one
    at the requested year, is the row of year 0; in general a year argument
    of 0 gives what no argument gives.  For year arguments that are absent
    or not zero, and a table with at most one row per country and year,
    the specification holds: a country has a record exactly when it has a
    start and an end observation, the end year is after the start year and
    the start value is positive; other countries are left out and nothing
    is raised; a record carries its endpoints and the value of
    [((end / start) ** (1 / years) - 1) * 100].  Start 100 at 2000 and end
    200 at 2010 give a rate between 7.177 and 7.178; a country with start
    value -5 is left out. *)
Theorem calculate_cagr_records :
  (key_unique around_zero /\
   map (fun r => (cg_country r, cg_start_year r, cg_end_year r,
                  cg_start_value r, cg_end_value r))
       (calculate_cagr around_zero (Some 0) None)
   = [("A", -10, 10, 1%Q, 4%Q)] /\
   (forall s, is_start around_zero (Some 0) "A" s <->
              s = mkObs "A" "AAA" 0 3)) /\
  (forall df start_year end_year,
     calculate_cagr df (Some 0) end_year = calculate_cagr df None end_year /\
     calculate_cagr df start_year (Some 0)
     = calculate_cagr df start_year None) /\
  (forall df start_year end_year,
     key_unique df -> start_year <> Some 0 -> end_year <> Some 0 ->
     (forall c,
        (exists r, In r (calculate_cagr df start_year end_year) /\
                   cg_country r = c)
        <->
        (exists s e, is_start df start_year c s /\ is_end df end_year c e /\
                     year s < year e /\ (0 < value s)%Q)) /\
     (forall r,
        In r (calculate_cagr df start_year end_year) ->
        exists s e,
          is_start df start_year (cg_country r) s /\
          is_end df end_year (cg_country r) e /\
          cg_start_year r = year s /\ cg_end_year r = year e /\
          cg_start_value r = value s /\ cg_end_value r = value e /\
          is_cagr (value s) (value e) (year e - year s) (cg_cagr r))) /\
  (exists r : R,
     calculate_cagr doubling None None =
       [ {| cg_country := "A"; cg_start_year := 2000; cg_end_year := 2010;
            cg_start_value := 100; cg_end_value := 200; cg_cagr := Some r |} ]
     /\ (7.177 < r < 7.178)%R).
Proof.
  split; [|split; [|split; [|exact doubling_cagr]]].
  - split; [exact around_zero_key_unique|]. split; [reflexivity|].
    intros s. unfold is_start, around_zero. simpl. split.
    + intros ([<-|[<-|[<-|[]]]] & _ & Hy); simpl in Hy;
        [discriminate | reflexivity | discriminate].
    + intros ->. simpl. tauto.
  - intros df start_year end_year. split; reflexivity.
  - intros df start_year end_year Hkey Hs0 He0.
    assert (Hin : forall r,
              In r (calculate_cagr df start_year end_year) <->
              exists c, In c (map country df) /\
                        cagr_of_country df start_year end_year c = Some r).
    { intros r. unfold calculate_cagr.
      rewrite <- list_elem_of_In, list_elem_of_omap.
      split; intros (c & Hc & Hr); exists c; split; auto.
      - apply unique_In. now apply list_elem_of_In.
      - apply list_elem_of_In. now apply unique_In. }
    split.
    + intros c. split.
      * intros (r & Hr & <-). apply Hin in Hr. destruct Hr as (c & _ & Hr).
        apply (cagr_of_country_Some df c Hkey _ _ _ Hs0 He0) in Hr.
        destruct Hr as (s & e & Hs & He & Hy & Hv & ->). simpl. eauto 6.
      * intros (s & e & Hs & He & Hy & Hv).
        eexists. split; [|shelve]. apply Hin. exists c. split.
        -- destruct Hs as (Hs & <- & _). now apply in_map.
        -- apply (cagr_of_country_Some df c Hkey _ _ _ Hs0 He0). exists s, e.
           repeat (split; [eassumption|]). reflexivity.
        Unshelve. reflexivity.
    + intros r Hr. apply Hin in Hr. destruct Hr as (c & _ & Hr).
      apply (cagr_of_country_Some df c Hkey _ _ _ Hs0 He0) in Hr.
      destruct Hr as (s & e & Hs & He & Hy & Hv & ->). simpl.
      exists s, e. repeat (split; [assumption || reflexivity|]).
      apply cagr_value_is_cagr; [exact Hv | lia].
Qed.

Lemma calculate_cagr_records_witness :
  key_unique doubling /\
  forall c,
    (exists r, In r (calculate_cagr doubling (Some 2000) (Some 2010)) /\
               cg_country r = c)
    <->
    (exists s e, is_start doubling (Some 2000) c s /\
                 is_end doubling (Some 2010) c e /\
                 year s < year e /\ (0 < value s)%Q).
Proof.
  split; [exact doubling_key_unique|].
  refine (proj1 (proj1 (proj2 (proj2 calculate_cagr_records))
                   doubling (Some 2000) (Some 2010)
                   doubling_key_unique _ _)); discriminate.
Defined.

(** ** The cache *)

Lemma row_of_record_dict (o : observation) : row_of_dict (record_dict o) = Some o.
Proof. now destruct o. Qed.

Lemma decode_records (data : table) :
  mapM row_of_dict (map record_dict data) = Some data.
Proof.
  apply mapM_Some.
  induction data as [|o data IH]; simpl; constructor;
    [apply row_of_record_dict | exact IH].
Qed.

Lemma Qgtb_false (a b : Q) : (a <= b)%Q -> Qgtb a b = false.
Proof.
  intros H. unfold Qgtb. apply negb_false_iff. now apply Qle_bool_iff.
Qed.

Lemma Qgtb_true (a b : Q) : (b < a)%Q -> Qgtb a b = true.
Proof.
  intros H. unfold Qgtb. apply negb_true_iff.
  destruct (Qle_bool a b) eqn:E; [|reflexivity].
  apply Qle_bool_iff in E. exfalso. exact (Qlt_not_le _ _ H E).
Qed.

Section CacheFacts.
Context `{Runtime}.
Variables (fs : gmap string file) (filename cache_dir : string).

Let filepath := path_join cache_dir (filename +:+ ".json").

(** Reading back what [save_data_cache] wrote. *)
Lemma read_saved_entry (put_time get_time max_age_hours : Z) (data : table) :
  fromisoformat (isoformat put_time) = Some (Naive put_time) ->
  load_data_cache (save_data_cache fs put_time data filename cache_dir)
                  get_time filename cache_dir max_age_hours =
  if Qgtb (age_hours (get_time - put_time)) (inject_Z max_age_hours)
  then ret None
  else ret (Some (Obs data)).
Proof.
  intros Hiso. unfold load_data_cache, save_data_cache.
  rewrite lookup_insert_eq. unfold read_entry. simpl.
  rewrite Hiso. simpl.
  destruct (Qgtb _ _); [reflexivity|].
  simpl. unfold pd_DataFrame, to_dict_records.
  now rewrite decode_records.
Qed.

(** Whatever the [try] body raises becomes a miss. *)
Lemma load_catches (f : file) (now max_age_hours : Z) (e : exn) :
  fs !! filepath = Some f ->
  read_entry f now max_age_hours = inl e ->
  load_data_cache fs now filename cache_dir max_age_hours = ret None.
Proof.
  intros Hf He. unfold load_data_cache. fold filepath.
  now rewrite Hf, He.
Qed.
End CacheFacts.

(** C6: after [save_data_cache] has written a table under a key, a read of
    the same key returns that table, hence the same set of
    (country_code, year, value) triples, as long as the age of the entry is
    at most the freshness window; once the age exceeds the window the read
    is a miss.  The timestamp is assumed to survive printing and parsing,
    as [datetime.isoformat] and [datetime.fromisoformat] guarantee. *)
Theorem cache_round_trip `{Runtime}
    (fs : gmap string file) (filename cache_dir : string)
    (put_time get_time max_age_hours : Z) (data : table) :
  fromisoformat (isoformat put_time) = Some (Naive put_time) ->
  let fs' := save_data_cache fs put_time data filename cache_dir in
  let age := age_hours (get_time - put_time) in
  ((age <= inject_Z max_age_hours)%Q ->
   exists t, load_data_cache fs' get_time filename cache_dir max_age_hours
             = ret (Some (Obs t)) /\
             t = data /\
             (forall x, In x (triples t) <-> In x (triples data))) /\
  ((inject_Z max_age_hours < age)%Q ->
   load_data_cache fs' get_time filename cache_dir max_age_hours = ret None).
Proof.
  intros Hiso fs' age. subst fs' age. split; intros Hage.
  - exists data. rewrite read_saved_entry by exact Hiso.
    rewrite Qgtb_false by exact Hage. repeat split; auto.
  - rewrite read_saved_entry by exact Hiso.
    now rewrite Qgtb_true by exact Hage.
Qed.

Lemma cache_round_trip_witness :
  let fs' := @save_data_cache sample_runtime ∅ 0 doubling "GDP_USA_2000_2023"
               DEFAULT_CACHE_DIR in
  (exists t, @load_data_cache sample_runtime fs' (24 * one_hour)
               "GDP_USA_2000_2023" DEFAULT_CACHE_DIR DEFAULT_MAX_AGE_HOURS
             = ret (Some (Obs t)) /\
             t = doubling /\
             (forall x, In x (triples t) <-> In x (triples doubling))) /\
  @load_data_cache sample_runtime fs' (24 * one_hour + 1)
    "GDP_USA_2000_2023" DEFAULT_CACHE_DIR DEFAULT_MAX_AGE_HOURS = ret None.
Proof.
  pose proof (@cache_round_trip sample_runtime ∅ "GDP_USA_2000_2023"
                DEFAULT_CACHE_DIR 0 (24 * one_hour) DEFAULT_MAX_AGE_HOURS
                doubling eq_refl) as [Hhit _].
  pose proof (@cache_round_trip sample_runtime ∅ "GDP_USA_2000_2023"
                DEFAULT_CACHE_DIR 0 (24 * one_hour + 1) DEFAULT_MAX_AGE_HOURS
                doubling eq_refl) as [_ Hmiss].
  split; [apply Hhit | apply Hmiss]; vm_compute; [discriminate|reflexivity].
Defined.

(** C9: [load_data_cache] never raises.  A missing file is a miss, and so
    is every failure met while reading an existing one: a file that cannot
    be opened, text that is not JSON, a document without a timestamp, a
    timestamp that is not a string or not ISO-8601 or that carries a UTC
    offset, a document without data, data the frame constructor rejects. *)
Theorem load_data_cache_never_raises `{Runtime}
    (fs : gmap string file) (now : Z) (filename cache_dir : string)
    (max_age_hours : Z) :
  let filepath := path_join cache_dir (filename +:+ ".json") in
  let load := load_data_cache fs now filename cache_dir max_age_hours in
  (exists r, load = ret r) /\
  (fs !! filepath = None -> load = ret None) /\
  (forall f e, fs !! filepath = Some f ->
               read_entry f now max_age_hours = raise e -> load = ret None) /\
  (fs !! filepath = Some Unreadable -> load = ret None) /\
  (forall text, fs !! filepath = Some (Garbage text) -> load = ret None) /\
  (forall doc, fs !! filepath = Some (JsonFile doc) ->
               py_getitem doc "timestamp" = raise KeyError -> load = ret None) /\
  (forall doc s, fs !! filepath = Some (JsonFile doc) ->
                 py_getitem doc "timestamp" = ret (PStr s) ->
                 fromisoformat s = None -> load = ret None).
Proof.
  intros filepath load. subst load. unfold load_data_cache. fold filepath.
  split; [|split; [|split; [|split; [|split; [|split]]]]].
  - destruct (fs !! filepath) as [f|]; [|now exists None].
    destruct (read_entry f now max_age_hours) as [e|r]; simpl; eauto.
  - now intros ->.
  - intros f e -> ->. reflexivity.
  - now intros ->.
  - now intros text ->.
  - intros doc -> Hk. unfold read_entry. simpl. now rewrite Hk.
  - intros doc s -> Hk Hs. unfold read_entry. simpl. rewrite Hk. simpl.
    now rewrite Hs.
Qed.

(** ** The client: parsing one reply *)

Section ClientFacts.
Context `{Builtins} (session_get : provider).

Lemma record_of_entry_None (entry : pyval) :
  record_of_entry entry = ret None -> has_value entry = false.
Proof.
  unfold record_of_entry, has_value.
  destruct (py_getitem entry "value") as [e|v]; simpl; [discriminate|].
  destruct (is_none v) eqn:E; [reflexivity|].
  destruct (py_getitem entry "country") as [?|c]; simpl; [discriminate|].
  destruct (py_getitem c "value"); simpl; [discriminate|].
  destruct (py_getitem entry "countryiso3code"); simpl; [discriminate|].
  destruct (py_getitem entry "date") as [?|d]; simpl; [discriminate|].
  destruct (py_int d); simpl; [discriminate|].
  destruct (py_float v); simpl; discriminate.
Qed.

Lemma record_of_entry_Some (entry : pyval) (r : raw_record) :
  record_of_entry entry = ret (Some r) ->
  has_value entry = true /\ converted entry r.
Proof.
  unfold record_of_entry, has_value, converted.
  destruct (py_getitem entry "value") as [e|v]; simpl; [discriminate|].
  destruct (is_none v) eqn:E; [discriminate|].
  destruct (py_getitem entry "country") as [?|c]; simpl; [discriminate|].
  destruct (py_getitem c "value") as [?|name] eqn:En; simpl; [discriminate|].
  destruct (py_getitem entry "countryiso3code") as [?|code]; simpl;
    [discriminate|].
  destruct (py_getitem entry "date") as [?|d]; simpl; [discriminate|].
  destruct (py_int d) as [?|y] eqn:Ey; simpl; [discriminate|].
  destruct (py_float v) as [?|x] eqn:Ex; simpl; [discriminate|].
  intros Hr. injection Hr as <-. split; [reflexivity|].
  exists c, d, v. simpl. repeat split; auto.
  intros ->. discriminate.
Qed.

Lemma well_formed_record (entry : pyval) :
  well_formed_entry entry -> exists r, record_of_entry entry = ret r.
Proof.
  intros (d & v & -> & Hv & Hrest). unfold record_of_entry. simpl.
  rewrite Hv. simpl.
  destruct Hrest as [->|(cd & name & code & dt & y & x &
                          Hc & Hn & Hcode & Hd & Hy & Hx)];
    [now exists None|].
  destruct (is_none v); [now exists None|].
  rewrite Hc. simpl. rewrite Hn, Hcode, Hd. simpl. rewrite Hy. simpl.
  rewrite Hx. simpl. eauto.
Qed.

(** The loop appends, in order, the conversion of each entry that has a
    value, and nothing for an entry whose value is null. *)
Lemma collect_records_converted (entries : list pyval)
    (acc recs : list raw_record) :
  collect_records entries acc = ret recs ->
  exists new, recs = acc ++ new /\
              Forall2 converted (List.filter has_value entries) new.
Proof.
  revert acc. induction entries as [|entry entries IH]; intros acc; simpl.
  - intros Hr. injection Hr as <-. exists []. split;
      [now rewrite app_nil_r | constructor].
  - destruct (record_of_entry entry) as [e|[r|]] eqn:E; simpl;
      [discriminate| |].
    + intros Hr. destruct (IH _ Hr) as (new & -> & Hnew).
      destruct (record_of_entry_Some _ _ E) as [-> Hc].
      exists (r :: new). split; [now rewrite <- app_assoc|].
      now constructor.
    + intros Hr. destruct (IH _ Hr) as (new & -> & Hnew).
      rewrite (record_of_entry_None _ E). eauto.
Qed.

Lemma collect_records_total (entries : list pyval) (acc : list raw_record) :
  Forall well_formed_entry entries ->
  exists recs, collect_records entries acc = ret recs.
Proof.
  intros Hwf. revert acc.
  induction Hwf as [|entry entries Hw _ IH]; intros acc; simpl; [eauto|].
  destruct (well_formed_record _ Hw) as [r ->]. simpl. apply IH.
Qed.

Lemma lacks_value_raises (entry : pyval) :
  lacks_value entry -> record_of_entry entry = raise KeyError.
Proof.
  intros (d & -> & Hv). unfold record_of_entry. simpl. now rewrite Hv.
Qed.

(** An entry without a value member makes the loop raise, whatever comes
    before or after it. *)
Lemma collect_records_lacking (entries : list pyval) (acc : list raw_record) :
  List.Exists lacks_value entries ->
  exists e, collect_records entries acc = raise e.
Proof.
  intros Hex. revert acc.
  induction Hex as [entry rest Hl | entry rest _ IH]; intros acc; simpl.
  - rewrite (lacks_value_raises _ Hl). simpl. eauto.
  - destruct (record_of_entry entry) as [e|r]; simpl; [eauto|]. apply IH.
Qed.

Lemma collect_records_first_lacking (pre post : list pyval) (entry : pyval)
    (acc : list raw_record) :
  Forall well_formed_entry pre -> lacks_value entry ->
  collect_records (pre ++ entry :: post) acc = raise KeyError.
Proof.
  intros Hwf Hl. revert acc.
  induction Hwf as [|x pre Hx _ IH]; intros acc; simpl.
  - now rewrite (lacks_value_raises _ Hl).
  - destruct (well_formed_record _ Hx) as [r ->]. simpl. apply IH.
Qed.

(** C8 (amended): on a reply with a success status and a JSON body,
    [_fetch_country_indicator] returns no observation when the records
    array is absent (fewer than two elements) or null; otherwise, when it
    returns, its result is, in order, the conversion of every entry whose
    value is not null (year by [int], value by [float]), entries with a
    null value being dropped; and it does return when every entry is well
    formed.  An entry lacking the value member is not dropped on its own:
    the call raises and returns no record at all, and the exception is
    [KeyError] when the entries before that one are well formed. *)
Theorem fetch_country_drops_null_values
    (indicator_code country_code : string) (start_year end_year : Z)
    (status : Z) (json_data : pyval) :
  session_get (request_url indicator_code country_code)
              (request_params start_year end_year)
    = Reply status (Some json_data) ->
  raise_for_status status = ret tt ->
  let out := _fetch_country_indicator session_get indicator_code
               country_code start_year end_year in
  (forall n, py_len json_data = ret n -> (n < 2)%nat -> out = ret []) /\
  (forall items, json_data = PList items ->
                 nth_error items 1 = Some PNone -> out = ret []) /\
  (forall items entries,
     json_data = PList items -> nth_error items 1 = Some (PList entries) ->
     (forall recs, out = ret recs ->
                   Forall2 converted (List.filter has_value entries) recs) /\
     (Forall well_formed_entry entries -> exists recs, out = ret recs) /\
     (List.Exists lacks_value entries -> exists e, out = raise e) /\
     (forall pre entry post,
        entries = pre ++ entry :: post ->
        Forall well_formed_entry pre -> lacks_value entry ->
        out = raise KeyError)).
Proof.
  intros Hget Hst out. subst out. unfold _fetch_country_indicator.
  cbv zeta. rewrite Hget, Hst. unfold response_json. cbn [bind ret].
  split; [|split].
  - intros n Hlen Hn. rewrite Hlen. cbn [bind ret].
    apply Nat.ltb_lt in Hn. now rewrite Hn.
  - intros items -> Hnull. unfold py_len, py_getitem_int. cbn [bind ret].
    destruct (length items <? 2)%nat; [reflexivity|].
    rewrite Hnull. reflexivity.
  - intros items entries -> Hrec. unfold py_len, py_getitem_int.
    cbn [bind ret].
    assert (Hlen : (length items <? 2)%nat = false).
    { apply Nat.ltb_ge. assert (1 < length items)%nat; [|lia].
      apply nth_error_Some. now rewrite Hrec. }
    rewrite Hlen, Hrec. cbn [bind ret is_none py_iter].
    split; [|split; [|split]].
    + intros recs Hr.
      destruct (collect_records_converted _ _ _ Hr) as (new & -> & Hnew).
      exact Hnew.
    + apply collect_records_total.
    + apply collect_records_lacking.
    + intros pre entry post -> Hwf Hl.
      now apply collect_records_first_lacking.
Qed.

(** ** The client: the loop over countries *)

Variables (indicator_code : string) (start_year end_year : Z).

Lemma fetch_loop_contributions (country_codes : list string)
    (all_data : list raw_record) :
  fetch_loop session_get indicator_code country_codes start_year end_year
             all_data
  = all_data ++
    flat_map (contribution session_get indicator_code start_year end_year)
             country_codes.
Proof.
  revert all_data.
  induction country_codes as [|c rest IH]; intros all_data; simpl.
  - now rewrite app_nil_r.
  - unfold contribution at 1.
    destruct (_fetch_country_indicator session_get indicator_code c
                start_year end_year) as [e|data]; simpl.
    + now rewrite IH.
    + now rewrite IH, app_assoc.
Qed.

End ClientFacts.




Section FetchIndicatorFacts.
Context `{Builtins} `{Pandas} (session_get : provider).
Variables (indicator_code : string) (start_year end_year : Z).



(** The frame returned is built from the contributions. *)
Lemma fetch_indicator_contributions (country_codes : list string) :
  fetch_indicator session_get indicator_code country_codes start_year end_year
  = DataFrame_sorted
      (flat_map (contribution session_get indicator_code start_year end_year)
                country_codes).
Proof.
  unfold fetch_indicator. rewrite fetch_loop_contributions. simpl.
  now destruct (flat_map _ country_codes).
Qed.

End FetchIndicatorFacts.

(** C8 (as stated) fails for an absent value member: the entry is not
    dropped with the others converted, the whole parse raises [KeyError];
    with a null value in its place the first entry is converted. *)
Lemma absent_value_member_raises :
  @_fetch_country_indicator decimal_builtins
    (usa_only (PList records_with_gap)) gdp "USA" 2000 2001 = raise KeyError /\
  @_fetch_country_indicator decimal_builtins
    (usa_only (PList records_with_null)) gdp "USA" 2000 2001 = ret [usa_2000].
Proof. split; vm_compute; reflexivity. Qed.

Lemma fetch_country_drops_null_values_witness :
  raise_for_status 200 = ret tt /\
  forall recs,
    @_fetch_country_indicator decimal_builtins
      (usa_only (PList records_with_null)) gdp "USA" 2000 2001 = ret recs ->
    Forall2 (@converted decimal_builtins)
            (List.filter has_value records_with_null) recs.
Proof.
  split; [reflexivity|].
  pose proof (@fetch_country_drops_null_values decimal_builtins
                (usa_only (PList records_with_null)) gdp "USA" 2000 2001
                200 (PList [metadata; PList records_with_null])
                eq_refl eq_refl) as (_ & _ & Hc).
  exact (proj1 (Hc _ _ eq_refl eq_refl)).
Defined.


(** * Further properties of the helpers *)

(** ** [get_latest_values] *)

Lemma group_tail_In (l : table) (r : observation) :
  In r (group_tail l) -> In r l.
Proof.
  induction l as [|x l IH]; simpl; [tauto|].
  destruct (existsb _ l); simpl; intuition.
Qed.

Lemma group_tail_covers (l : table) (o : observation) :
  In o l -> exists r, In r (group_tail l) /\ country r = country o.
Proof.
  revert o. induction l as [|x l IH]; intros o; simpl; [tauto|].
  destruct (existsb (fun o' => String.eqb (country o') (country x)) l) eqn:E.
  - intros [<-|Ho]; [|now apply IH].
    apply existsb_exists in E. destruct E as (o' & Ho' & Heq).
    apply String.eqb_eq in Heq. destruct (IH _ Ho') as (r & Hr & Hc).
    exists r. split; [exact Hr | congruence].
  - intros [<-|Ho]; [exists x; split; [now left | reflexivity]|].
    destruct (IH _ Ho) as (r & Hr & Hc). exists r. split; [now right | exact Hc].
Qed.

Lemma group_tail_NoDup (l : table) : List.NoDup (map country (group_tail l)).
Proof.
  induction l as [|x l IH]; simpl; [constructor|].
  destruct (existsb (fun o' => String.eqb (country o') (country x)) l) eqn:E;
    [exact IH|].
  simpl. constructor; [|exact IH].
  intros Hin. apply in_map_iff in Hin. destruct Hin as (r & Hc & Hr).
  apply group_tail_In in Hr.
  assert (existsb (fun o' => String.eqb (country o') (country x)) l = true);
    [|congruence].
  apply existsb_exists. exists r. split; [exact Hr|]. now apply String.eqb_eq.
Qed.

Lemma group_tail_latest (l : table) :
  StronglySorted (fun a b => year_leb a b = true) l ->
  forall r, In r (group_tail l) ->
  forall o, In o l -> country o = country r -> year o <= year r.
Proof.
  induction 1 as [|x l Hs IH Hx]; simpl; [tauto|].
  rewrite List.Forall_forall in Hx.
  assert (Hle : forall r, In r l -> year x <= year r)
    by (intros r Hr; apply Z.leb_le; now apply Hx).
  destruct (existsb (fun o' => String.eqb (country o') (country x)) l) eqn:E.
  - intros r Hr o [<-|Ho] Hc; [|now apply IH].
    apply Hle. now apply group_tail_In.
  - intros r [<-|Hr] o [<-|Ho] Hc; try lia.
    + exfalso.
      assert (existsb (fun o' => String.eqb (country o') (country x)) l = true);
        [|congruence].
      apply existsb_exists. exists o. split; [exact Ho|]. now apply String.eqb_eq.
    + apply Hle. now apply group_tail_In.
    + now apply IH.
Qed.

Lemma NoDup_map_inv {A B : Type} (f : A -> B) (l : list A) :
  List.NoDup (map f l) -> List.NoDup l.
Proof.
  induction l as [|x l IH]; simpl; intros H; [constructor|].
  apply List.NoDup_cons_iff in H. destruct H as [Hx Hl].
  constructor; [|now apply IH].
  intros Hin. apply Hx. now apply in_map.
Qed.

Lemma key_unique_perm (df df' : table) :
  Permutation df df' -> key_unique df -> key_unique df'.
Proof.
  intros Hp Hk a b Ha Hb.
  apply Hk; apply (Permutation_in _ (Permutation_sym Hp)); assumption.
Qed.

Lemma get_latest_values_In (df : table) (r : observation) :
  In r (get_latest_values df) <-> In r (group_tail (sort_by_year df)).
Proof. unfold get_latest_values. cbv zeta. apply stable_sort_In. Qed.

Lemma sort_by_year_In (df : table) (r : observation) :
  In r (sort_by_year df) <-> In r df.
Proof. apply stable_sort_In. Qed.

Lemma latest_values_are_latest_rows (df : table) (r : observation) :
  In r (get_latest_values df) -> latest_row df r.
Proof.
  intros Hr. apply get_latest_values_In in Hr. split.
  - apply sort_by_year_In. now apply group_tail_In.
  - intros o Ho Hc.
    apply (group_tail_latest _ (sort_by_year_sorted df) r Hr); auto.
    now apply sort_by_year_In.
Qed.

Lemma latest_values_countries_NoDup (df : table) :
  List.NoDup (map country (get_latest_values df)).
Proof.
  unfold get_latest_values. cbv zeta.
  eapply Permutation_NoDup;
    [symmetry; apply Permutation_map, stable_sort_perm|].
  apply group_tail_NoDup.
Qed.

Lemma latest_values_countries (df : table) (c : string) :
  In c (map country (get_latest_values df)) <-> In c (map country df).
Proof.
  rewrite !in_map_iff. split.
  - intros (r & Hc & Hr). exists r. split; [exact Hc|].
    now apply latest_values_are_latest_rows in Hr as [Hr _].
  - intros (o & Hc & Ho). apply sort_by_year_In in Ho.
    destruct (group_tail_covers _ _ Ho) as (r & Hr & Hrc).
    exists r. split; [congruence|]. now apply get_latest_values_In.
Qed.

Lemma latest_row_is_returned (df : table) (r : observation) :
  key_unique df -> latest_row df r -> In r (get_latest_values df).
Proof.
  intros Hkey [Hr Hmax].
  assert (Hc : In (country r) (map country (get_latest_values df)))
    by (apply latest_values_countries; now apply in_map).
  apply in_map_iff in Hc. destruct Hc as (r' & Hc & Hr').
  destruct (latest_values_are_latest_rows df r' Hr') as [Hin' Hmax'].
  assert (r' = r); [|now subst].
  apply Hkey; auto.
  pose proof (Hmax r' Hin' Hc). pose proof (Hmax' r Hr (eq_sym Hc)). lia.
Qed.

(** Every row returned is a row of the table carrying the greatest year of
    its own country, and every country of the table is represented once. *)
Theorem get_latest_values_per_country (df : table) :
  (forall r, In r (get_latest_values df) -> latest_row df r) /\
  List.NoDup (map country (get_latest_values df)) /\
  (forall c, In c (map country (get_latest_values df)) <->
             In c (map country df)).
Proof.
  split; [|split].
  - apply latest_values_are_latest_rows.
  - apply latest_values_countries_NoDup.
  - apply latest_values_countries.
Qed.

(** With one row per country and year, the rows returned are exactly the
    latest rows of the table. *)
Theorem get_latest_values_exact (df : table) (r : observation) :
  key_unique df ->
  (In r (get_latest_values df) <-> latest_row df r).
Proof.
  intros Hkey. split.
  - apply latest_values_are_latest_rows.
  - now apply latest_row_is_returned.
Qed.

Lemma Qle_bool_total (a b : Q) : Qle_bool a b = true \/ Qle_bool b a = true.
Proof.
  destruct (Qlt_le_dec b a) as [H|H].
  - right. apply Qle_bool_iff. now apply Qlt_le_weak.
  - left. now apply Qle_bool_iff.
Qed.

Lemma Qle_bool_trans (a b c : Q) :
  Qle_bool a b = true -> Qle_bool b c = true -> Qle_bool a c = true.
Proof. rewrite !Qle_bool_iff. apply Qle_trans. Qed.

Lemma StronglySorted_weaken {A : Type} (P Q : A -> A -> Prop) (l : list A) :
  (forall a b, P a b -> Q a b) -> StronglySorted P l -> StronglySorted Q l.
Proof.
  intros HPQ. induction 1 as [|x l Hs IH Hx]; constructor; [exact IH|].
  rewrite List.Forall_forall in Hx |- *. auto.
Qed.

(** The rows come out by value, greatest first. *)
Theorem get_latest_values_descending (df : table) :
  StronglySorted (fun a b => (value b <= value a)%Q) (get_latest_values df).
Proof.
  unfold get_latest_values. cbv zeta.
  apply (StronglySorted_weaken (fun a b => value_desc_leb a b = true)).
  - intros a b Hab. now apply Qle_bool_iff.
  - apply stable_sort_sorted.
    + intros a b. apply Qle_bool_total.
    + intros a b c Hab Hbc. unfold value_desc_leb in *.
      eapply Qle_bool_trans; eassumption.
Qed.

(** With one row per country and year, the order of the rows of the input
    has no influence on which rows are returned. *)
Theorem get_latest_values_order_independent (df df' : table) :
  key_unique df -> Permutation df df' ->
  Permutation (get_latest_values df) (get_latest_values df').
Proof.
  intros Hkey Hp.
  pose proof (key_unique_perm _ _ Hp Hkey) as Hkey'.
  assert (Hrows : forall l l' : table,
            Permutation l l' -> forall r, latest_row l r -> latest_row l' r).
  { intros l l' Hl r [Hr Hmax]. split; [now apply (Permutation_in _ Hl)|].
    intros o Ho. apply Hmax.
    now apply (Permutation_in _ (Permutation_sym Hl)). }
  apply Permutation.NoDup_Permutation.
  - eapply NoDup_map_inv. apply latest_values_countries_NoDup.
  - eapply NoDup_map_inv. apply latest_values_countries_NoDup.
  - intros r. split; intros Hr.
    + apply (latest_row_is_returned df' r Hkey').
      apply (Hrows df df' Hp), latest_values_are_latest_rows, Hr.
    + apply (latest_row_is_returned df r Hkey).
      apply (Hrows df' df (Permutation_sym Hp)).
      apply latest_values_are_latest_rows, Hr.
Qed.

(** ** [get_year_range] *)

Lemma fold_left_Zmin (l : list Z) (a : Z) :
  In (fold_left Z.min l a) (a :: l) /\
  forall x, In x (a :: l) -> fold_left Z.min l a <= x.
Proof.
  revert a. induction l as [|y l IH]; intros a; simpl.
  - split; [now left|]. intros x [<-|[]]. lia.
  - destruct (IH (Z.min a y)) as [Hin Hle]. split.
    + destruct Hin as [Hin|Hin]; [|now right; right].
      rewrite <- Hin. destruct (Z.min_spec a y) as [[_ ->]|[_ ->]]; auto.
    + intros x [<-|[<-|Hx]].
      * specialize (Hle (Z.min a y) (or_introl eq_refl)). lia.
      * specialize (Hle (Z.min a y) (or_introl eq_refl)). lia.
      * apply Hle. now right.
Qed.

Lemma fold_left_Zmax (l : list Z) (a : Z) :
  In (fold_left Z.max l a) (a :: l) /\
  forall x, In x (a :: l) -> x <= fold_left Z.max l a.
Proof.
  revert a. induction l as [|y l IH]; intros a; simpl.
  - split; [now left|]. intros x [<-|[]]. lia.
  - destruct (IH (Z.max a y)) as [Hin Hle]. split.
    + destruct Hin as [Hin|Hin]; [|now right; right].
      rewrite <- Hin. destruct (Z.max_spec a y) as [[_ ->]|[_ ->]]; auto.
    + intros x [<-|[<-|Hx]].
      * specialize (Hle (Z.max a y) (or_introl eq_refl)). lia.
      * specialize (Hle (Z.max a y) (or_introl eq_refl)). lia.
      * apply Hle. now right.
Qed.

(** The empty frame gives the fixed range 2000-2023; any other frame gives
    the least and the greatest year it holds, so every row lies within the
    range and the range is never inverted. *)
Theorem get_year_range_bounds (df : table) :
  (df = [] -> get_year_range df = (2000, 2023)) /\
  (df <> [] ->
   In (fst (get_year_range df)) (map year df) /\
   In (snd (get_year_range df)) (map year df) /\
   fst (get_year_range df) <= snd (get_year_range df) /\
   forall r, In r df ->
             fst (get_year_range df) <= year r <= snd (get_year_range df)).
Proof.
  split; [now intros ->|].
  destruct df as [|r rest]; [congruence|]. intros _. simpl.
  destruct (fold_left_Zmin (map year rest) (year r)) as [Hmin Hle].
  destruct (fold_left_Zmax (map year rest) (year r)) as [Hmax Hge].
  split; [exact Hmin|]. split; [exact Hmax|]. split.
  - specialize (Hle _ (or_introl eq_refl)).
    specialize (Hge _ (or_introl eq_refl)). lia.
  - intros o Ho.
    assert (Hy : In (year o) (year r :: map year rest))
      by (destruct Ho as [<-|Ho]; [now left | right; now apply in_map]).
    split; [now apply Hle | now apply Hge].
Qed.

(** ** [calculate_statistics] *)

Lemma last_In_list {A : Type} (l : list A) (x : A) : In (List.last l x) (x :: l).
Proof.
  revert x. induction l as [|y l IH]; intros x; [now left|].
  right. rewrite last_cons. apply IH.
Qed.

Lemma fold_left_Qmin_le (l : list Q) (a x : Q) :
  In x (a :: l) -> (fold_left Qmin l a <= x)%Q.
Proof.
  revert a x. induction l as [|y l IH]; intros a x; simpl.
  - intros [<-|[]]. apply Qle_refl.
  - intros [<-|[<-|Hx]].
    + eapply Qle_trans; [apply IH; now left | apply Q.le_min_l].
    + eapply Qle_trans; [apply IH; now left | apply Q.le_min_r].
    + apply IH. now right.
Qed.

Lemma fold_left_Qmax_ge (l : list Q) (a x : Q) :
  In x (a :: l) -> (x <= fold_left Qmax l a)%Q.
Proof.
  revert a x. induction l as [|y l IH]; intros a x; simpl.
  - intros [<-|[]]. apply Qle_refl.
  - intros [<-|[<-|Hx]].
    + eapply Qle_trans; [apply Q.le_max_l | apply IH; now left].
    + eapply Qle_trans; [apply Q.le_max_r | apply IH; now left].
    + apply IH. now right.
Qed.

Lemma Qlen_cons (x : Q) (l : list Q) : (Qlen (x :: l) == Qlen l + 1)%Q.
Proof.
  unfold Qlen. simpl length. rewrite Nat2Z.inj_succ, <- Z.add_1_r.
  rewrite inject_Z_plus. reflexivity.
Qed.

Lemma Qlen_nonneg (l : list Q) : (0 <= Qlen l)%Q.
Proof.
  unfold Qlen. change 0%Q with (inject_Z 0). rewrite <- Zle_Qle. lia.
Qed.

Lemma Qsum_lower (l : list Q) (m : Q) :
  (forall x, In x l -> (m <= x)%Q) -> (Qlen l * m <= Qsum l)%Q.
Proof.
  induction l as [|x l IH]; intros H.
  - unfold Qlen, Qsum. simpl. rewrite Qmult_0_l. apply Qle_refl.
  - rewrite Qlen_cons. change (Qsum (x :: l)) with (x + Qsum l)%Q.
    assert (m <= x)%Q by (apply H; now left).
    assert (Qlen l * m <= Qsum l)%Q by (apply IH; intros; apply H; now right).
    Lqa.lra.
Qed.

Lemma Qsum_upper (l : list Q) (M : Q) :
  (forall x, In x l -> (x <= M)%Q) -> (Qsum l <= Qlen l * M)%Q.
Proof.
  induction l as [|x l IH]; intros H.
  - unfold Qlen, Qsum. simpl. rewrite Qmult_0_l. apply Qle_refl.
  - rewrite Qlen_cons. change (Qsum (x :: l)) with (x + Qsum l)%Q.
    assert (x <= M)%Q by (apply H; now left).
    assert (Qsum l <= Qlen l * M)%Q by (apply IH; intros; apply H; now right).
    Lqa.lra.
Qed.

Lemma aggregates_within_range (vs : list Q) : vs <> [] -> within_range vs.
Proof.
  destruct vs as [|v vs]; [congruence|]. intros _.
  set (l := v :: vs).
  set (mn := fold_left Qmin vs v). set (mx := fold_left Qmax vs v).
  assert (Hmn : forall x, In x l -> (mn <= x)%Q)
    by (intros x; apply fold_left_Qmin_le).
  assert (Hmx : forall x, In x l -> (x <= mx)%Q)
    by (intros x; apply fold_left_Qmax_ge).
  assert (Hlen : (0 < Qlen l)%Q).
  { unfold l. rewrite Qlen_cons. pose proof (Qlen_nonneg vs). Lqa.lra. }
  assert (Hsorted : forall k, (k < length l)%nat ->
            In (nth k (stable_sort Qle_bool l) 0%Q) l).
  { intros k Hk. apply (stable_sort_In Qle_bool). apply nth_In.
    now rewrite stable_sort_length. }
  exists mn, mx, (Qsum l / Qlen l)%Q.
  destruct (Nat.even (length l)) eqn:Ev.
  - assert (Hn : (2 <= length l)%nat).
    { destruct vs; [discriminate Ev | simpl; lia]. }
    assert (H1 : (length l / 2 - 1 < length l)%nat)
      by (pose proof (Nat.div_lt (length l) 2); lia).
    assert (H2 : (length l / 2 < length l)%nat)
      by (apply Nat.div_lt; lia).
    eexists. exists (List.last vs v).
    split; [reflexivity|]. split; [reflexivity|]. split; [reflexivity|].
    split; [unfold agg_median; fold l; cbv zeta; rewrite Ev; reflexivity|].
    split; [reflexivity|].
    pose proof (Hmn _ (Hsorted _ H1)). pose proof (Hmx _ (Hsorted _ H1)).
    pose proof (Hmn _ (Hsorted _ H2)). pose proof (Hmx _ (Hsorted _ H2)).
    pose proof (Hmn _ (last_In_list vs v)).
    pose proof (Hmx _ (last_In_list vs v)).
    split; [|split; [|split]].
    + split; [apply Qle_shift_div_l | apply Qle_shift_div_r]; auto;
        rewrite Qmult_comm; [now apply Qsum_lower | now apply Qsum_upper].
    + unfold Qdiv. change (/ 2)%Q with (1 # 2)%Q. split; Lqa.lra.
    + split; assumption.
    + intros x Hx. split; auto.
  - assert (H2 : (length l / 2 < length l)%nat)
      by (apply Nat.div_lt; simpl; lia).
    eexists. exists (List.last vs v).
    split; [reflexivity|]. split; [reflexivity|]. split; [reflexivity|].
    split; [unfold agg_median; fold l; cbv zeta; rewrite Ev; reflexivity|].
    split; [reflexivity|].
    pose proof (Hmn _ (Hsorted _ H2)). pose proof (Hmx _ (Hsorted _ H2)).
    pose proof (Hmn _ (last_In_list vs v)).
    pose proof (Hmx _ (last_In_list vs v)).
    split; [|split; [|split]].
    + split; [apply Qle_shift_div_l | apply Qle_shift_div_r]; auto;
        rewrite Qmult_comm; [now apply Qsum_lower | now apply Qsum_upper].
    + split; assumption.
    + split; assumption.
    + intros x Hx. split; auto.
Qed.

Lemma group_keys_In (df : table) (c : string) :
  In c (group_keys df) <-> In c (map country df).
Proof. unfold group_keys. now rewrite stable_sort_In, unique_In. Qed.

Lemma rows_of_nonempty (df : table) (c : string) :
  In c (map country df) -> rows_of df c <> [].
Proof.
  intros Hc. apply in_map_iff in Hc. destruct Hc as (o & Hc & Ho).
  assert (In o (rows_of df c)) by (apply rows_of_In; auto).
  intros E. now rewrite E in H.
Qed.

Lemma calculate_statistics_In (df : table) (s : stats_row) :
  In s (calculate_statistics df) ->
  In (st_country s) (map country df) /\
  let vs := map value (rows_of df (st_country s)) in
  st_mean s = agg_mean vs /\ st_median s = agg_median vs /\
  st_min s = agg_min vs /\ st_max s = agg_max vs /\
  st_std s = agg_std vs /\ st_latest s = agg_last vs.
Proof.
  unfold calculate_statistics. intros Hs. apply in_map_iff in Hs.
  destruct Hs as (c & <- & Hc). simpl.
  split; [now apply group_keys_In|]. repeat split.
Qed.

Lemma fold_left_Qmin_In (l : list Q) (a : Q) : In (fold_left Qmin l a) (a :: l).
Proof.
  revert a. induction l as [|y l IH]; intros a; [now left|]. simpl.
  destruct (IH (Qmin a y)) as [E|Hin]; [|now right; right].
  rewrite <- E. unfold Qmin, GenericMinMax.gmin.
  destruct (a ?= y)%Q; [now left | now left | right; now left].
Qed.

Lemma fold_left_Qmax_In (l : list Q) (a : Q) : In (fold_left Qmax l a) (a :: l).
Proof.
  revert a. induction l as [|y l IH]; intros a; [now left|]. simpl.
  destruct (IH (Qmax a y)) as [E|Hin]; [|now right; right].
  rewrite <- E. unfold Qmax, GenericMinMax.gmax.
  destruct (a ?= y)%Q; [now left | right; now left | now left].
Qed.

(** In every statistics row the minimum, the maximum and the latest figure
    are values of observations of the row's country, and every observation
    of the country lies between the minimum and the maximum reported. *)
Theorem calculate_statistics_in_range (df : table) :
  Forall (stats_attained df) (calculate_statistics df).
Proof.
  apply List.Forall_forall. intros s Hs.
  destruct (calculate_statistics_In df s Hs)
    as (Hc & _ & _ & Hmin & Hmax & _ & Hlast).
  pose proof (rows_of_nonempty df _ Hc) as Hne.
  pose proof (rows_of_In df (st_country s)) as Hrows.
  destruct (rows_of df (st_country s)) as [|x l]; [congruence|].
  cbn [map agg_min agg_max agg_last] in Hmin, Hmax, Hlast.
  assert (Hval : forall v, In v (value x :: map value l) ->
                 exists o, In o df /\ country o = st_country s /\
                           v = value o).
  { intros v Hv. change (value x :: map value l) with (map value (x :: l)) in Hv.
    apply in_map_iff in Hv. destruct Hv as (o & <- & Ho).
    exists o. apply Hrows in Ho. tauto. }
  destruct (Hval _ (fold_left_Qmin_In (map value l) (value x)))
    as (lo & Hlo & Hloc & Elo).
  destruct (Hval _ (fold_left_Qmax_In (map value l) (value x)))
    as (hi & Hhi & Hhic & Ehi).
  destruct (Hval _ (last_In_list (map value l) (value x)))
    as (la & Hla & Hlac & Ela).
  exists lo, hi, la.
  split; [split; [exact Hlo|]; split; [exact Hloc|]; now rewrite Hmin, Elo|].
  split; [split; [exact Hhi|]; split; [exact Hhic|]; now rewrite Hmax, Ehi|].
  split; [split; [exact Hla|]; split; [exact Hlac|]; now rewrite Hlast, Ela|].
  intros o Ho Hoc.
  assert (Hin : In (value o) (value x :: map value l)).
  { change (value x :: map value l) with (map value (x :: l)).
    apply in_map. apply Hrows. tauto. }
  rewrite <- Elo, <- Ehi. split;
    [now apply fold_left_Qmin_le | now apply fold_left_Qmax_ge].
Qed.

Lemma unique_NoDup (l : list string) : List.NoDup (unique l).
Proof.
  induction l as [|x l IH]; simpl; constructor.
  - intros Hin. apply filter_In in Hin. destruct Hin as [_ Hx].
    now rewrite String.eqb_refl in Hx.
  - now apply List.NoDup_filter.
Qed.

Lemma string_leb_trans (a b c : string) :
  String.leb a b = true -> String.leb b c = true -> String.leb a c = true.
Proof.
  intros Hab Hbc. apply Is_true_true.
  change (String.le a c). transitivity b; apply Is_true_true; assumption.
Qed.

(** There is one statistics row per country of the table, and the rows come
    in ascending order of country name. *)
Theorem calculate_statistics_countries (df : table) :
  StronglySorted (fun a b => String.leb a b = true)
                 (map st_country (calculate_statistics df)) /\
  List.NoDup (map st_country (calculate_statistics df)) /\
  (forall c, In c (map st_country (calculate_statistics df)) <->
             In c (map country df)).
Proof.
  assert (E : map st_country (calculate_statistics df) = group_keys df).
  { unfold calculate_statistics. rewrite map_map. simpl. apply map_id. }
  rewrite E. split; [|split].
  - apply stable_sort_sorted; [apply String.leb_total | apply string_leb_trans].
  - unfold group_keys.
    eapply Permutation_NoDup; [symmetry; apply stable_sort_perm|].
    apply unique_NoDup.
  - apply group_keys_In.
Qed.

Lemma StronglySorted_filter {A : Type} (P : A -> A -> Prop) (f : A -> bool)
    (l : list A) :
  StronglySorted P l -> StronglySorted P (List.filter f l).
Proof.
  induction 1 as [|x l Hs IH Hx]; simpl; [constructor|].
  destruct (f x); [|exact IH]. constructor; [exact IH|].
  rewrite List.Forall_forall in Hx |- *. intros y Hy.
  apply filter_In in Hy. now apply Hx.
Qed.

Lemma rows_of_year_sorted (df : table) (c : string) :
  year_ordered df ->
  StronglySorted (fun a b => year a < year b) (rows_of df c).
Proof.
  intros Hs. unfold rows_of.
  assert (G : forall l, Forall (fun o => country o = c) l ->
            StronglySorted (fun a b => country a = country b -> year a < year b) l ->
            StronglySorted (fun a b => year a < year b) l).
  { induction l as [|x l IH]; intros Hc Hl; [constructor|].
    apply StronglySorted_inv in Hl. destruct Hl as [Hl Hx].
    rewrite List.Forall_forall in Hc, Hx.
    constructor.
    - apply IH; [|exact Hl]. apply List.Forall_forall.
      intros y Hy. apply Hc. now right.
    - apply List.Forall_forall. intros y Hy. apply Hx; [exact Hy|].
      rewrite (Hc x) by now left. symmetry. apply Hc. now right. }
  apply G.
  - apply List.Forall_forall. intros o Ho. apply filter_In in Ho.
    now apply String.eqb_eq.
  - now apply StronglySorted_filter.
Qed.

(** On a table whose rows are in strictly increasing year order within each
    country (a frame sorted by (country, year) that holds no year twice),
    'latest' is the value at the greatest year of the country. *)
Theorem calculate_statistics_latest_when_ordered (df : table) :
  year_ordered df ->
  Forall (fun s => st_latest s = value_at_max_year (rows_of df (st_country s)))
         (calculate_statistics df).
Proof.
  intros Hs. apply List.Forall_forall. intros s Hin.
  destruct (calculate_statistics_In df s Hin) as (_ & _ & _ & _ & _ & _ & ->).
  apply latest_of_year_sorted. now apply rows_of_year_sorted.
Qed.

(** ** [calculate_cagr], whatever the table *)

Lemma start_data_In (cd : table) (start_year : option Z) (s : observation) :
  In s (start_data cd start_year) ->
  In s cd /\ (truthy start_year = true -> Some (year s) = start_year).
Proof.
  unfold start_data. destruct (truthy start_year) eqn:Et.
  - destruct start_year as [y|]; [|discriminate]. simpl.
    intros Hs. apply filter_In in Hs. destruct Hs as [Hs Hy].
    apply Z.eqb_eq in Hy. split; [exact Hs | intros _; now subst].
  - intros Hs. split; [|discriminate].
    destruct cd as [|x cd]; simpl in Hs; [contradiction|].
    destruct Hs as [<-|[]]. now left.
Qed.

Lemma end_data_In (cd : table) (end_year : option Z) (e : observation) :
  In e (end_data cd end_year) ->
  In e cd /\ (truthy end_year = true -> Some (year e) = end_year).
Proof.
  unfold end_data. destruct (truthy end_year) eqn:Et.
  - destruct end_year as [y|]; [|discriminate]. simpl.
    intros He. apply filter_In in He. destruct He as [He Hy].
    apply Z.eqb_eq in Hy. split; [exact He | intros _; now subst].
  - intros He. split; [|discriminate].
    destruct cd as [|x cd]; simpl in He; [contradiction|].
    destruct He as [<-|[]]. apply last_In_list.
Qed.

Lemma Qltb_inv (a b : Q) : Qltb a b = true -> (a < b)%Q.
Proof.
  unfold Qltb. intros H. apply negb_true_iff in H.
  apply Qnot_le_lt. intros Hle. apply Qle_bool_iff in Hle. congruence.
Qed.

Lemma cagr_of_country_sound (df : table) (start_year end_year : option Z)
    (c : string) (r : cagr_row) :
  cagr_of_country df start_year end_year c = Some r ->
  cg_country r = c /\ cagr_record_sound df start_year end_year r.
Proof.
  unfold cagr_of_country.
  destruct (start_data _ start_year) as [|s srest] eqn:Es; [discriminate|].
  destruct (end_data _ end_year) as [|e erest] eqn:Ee; [discriminate|].
  destruct (0 <? year e - year s) eqn:Ey; [|discriminate].
  destruct (Qltb 0 (value s)) eqn:Ev; [|discriminate].
  simpl. intros Hr. injection Hr as <-. simpl.
  assert (Hs : In s (start_data (sort_by_year (rows_of df c)) start_year))
    by (rewrite Es; now left).
  assert (He : In e (end_data (sort_by_year (rows_of df c)) end_year))
    by (rewrite Ee; now left).
  apply start_data_In in Hs. apply end_data_In in He.
  destruct Hs as [Hs Hsy], He as [He Hey].
  apply country_data_In in Hs, He.
  split; [reflexivity|]. unfold cagr_record_sound. simpl.
  split; [exists s, e; tauto|].
  split; [apply Z.ltb_lt in Ey; lia|].
  split; [now apply Qltb_inv|]. auto.
Qed.

Lemma omap_keys_NoDup {A B : Type} (f : A -> option B) (g : B -> A)
    (l : list A) :
  (forall a b, f a = Some b -> g b = a) ->
  List.NoDup l -> List.NoDup (map g (omap f l)).
Proof.
  intros Hfg. induction 1 as [|x l Hx Hl IH]; simpl; [constructor|].
  destruct (f x) as [b|] eqn:E; simpl; [|exact IH].
  constructor; [|exact IH].
  rewrite (Hfg _ _ E). intros Hin. apply Hx.
  apply in_map_iff in Hin. destruct Hin as (b' & Hb' & Hin).
  apply list_elem_of_In, list_elem_of_omap in Hin.
  destruct Hin as (a & Ha & Hfa). apply list_elem_of_In in Ha.
  rewrite (Hfg _ _ Hfa) in Hb'. now subst.
Qed.

Lemma cagr_records_sound (df : table) (start_year end_year : option Z)
    (r : cagr_row) :
  In r (calculate_cagr df start_year end_year) ->
  cagr_record_sound df start_year end_year r.
Proof.
  intros Hr. unfold calculate_cagr in Hr.
  apply list_elem_of_In, list_elem_of_omap in Hr.
  destruct Hr as (c & _ & Hr).
  now apply cagr_of_country_sound in Hr.
Qed.

Lemma truthy_false (y : option Z) :
  y = None \/ y = Some 0 -> truthy y = false.
Proof. now intros [->| ->]. Qed.

Lemma truthy_true (y : option Z) (n : Z) :
  y = Some n -> n <> 0 -> truthy y = true.
Proof.
  intros -> Hn. simpl. now destruct (Z.eqb_spec n 0).
Qed.

(** Without a usable year argument the start is the first row of the
    country's year-sorted rows, the end the last one. *)
Lemma start_data_least (cd : table) (start_year : option Z) (s : observation) :
  truthy start_year = false ->
  StronglySorted (fun a b => year_leb a b = true) cd ->
  In s (start_data cd start_year) ->
  forall o, In o cd -> year s <= year o.
Proof.
  intros Et Hs. unfold start_data. rewrite Et.
  destruct cd as [|x l]; simpl; [contradiction|].
  intros [<-|[]]. now apply sorted_head_least.
Qed.

Lemma end_data_greatest (cd : table) (end_year : option Z) (e : observation) :
  truthy end_year = false ->
  StronglySorted (fun a b => year_leb a b = true) cd ->
  In e (end_data cd end_year) ->
  forall o, In o cd -> year o <= year e.
Proof.
  intros Et Hs. unfold end_data. rewrite Et.
  destruct cd as [|x l]; simpl; [contradiction|].
  intros [<-|[]]. now apply sorted_last_greatest.
Qed.

Lemma cagr_of_country_resolved (df : table) (start_year end_year : option Z)
    (c : string) (r : cagr_row) :
  cagr_of_country df start_year end_year c = Some r ->
  cagr_record_resolved df start_year end_year r.
Proof.
  unfold cagr_of_country.
  set (cd := sort_by_year (rows_of df c)).
  assert (Hsorted : StronglySorted (fun a b => year_leb a b = true) cd)
    by apply sort_by_year_sorted.
  assert (Hcd : forall o, In o cd <-> In o df /\ country o = c)
    by (intros o; apply country_data_In).
  destruct (start_data cd start_year) as [|s srest] eqn:Es; [discriminate|].
  destruct (end_data cd end_year) as [|e erest] eqn:Ee; [discriminate|].
  destruct (0 <? year e - year s) eqn:Ey; [|discriminate].
  destruct (Qltb 0 (value s)) eqn:Ev; [|discriminate].
  simpl. intros Hr. injection Hr as <-.
  assert (Hs : In s (start_data cd start_year)) by (rewrite Es; now left).
  assert (He : In e (end_data cd end_year)) by (rewrite Ee; now left).
  destruct (start_data_In _ _ _ Hs) as [Hs1 Hs2].
  destruct (end_data_In _ _ _ He) as [He1 He2].
  apply Z.ltb_lt in Ey. apply Qltb_inv in Ev.
  unfold cagr_record_resolved, cagr_endpoints_resolved. cbn.
  split; [exists s, e; apply Hcd in Hs1, He1; tauto|].
  split; [lia|]. split; [exact Ev|]. split.
  - split; [|split; [|split]].
    + intros y Hy Hy0. specialize (Hs2 (truthy_true _ _ Hy Hy0)). congruence.
    + intros Hf o Ho Hoc.
      apply (start_data_least cd start_year s (truthy_false _ Hf) Hsorted Hs).
      apply Hcd. auto.
    + intros y Hy Hy0. specialize (He2 (truthy_true _ _ Hy Hy0)). congruence.
    + intros Hf o Ho Hoc.
      apply (end_data_greatest cd end_year e (truthy_false _ Hf) Hsorted He).
      apply Hcd. auto.
  - apply cagr_value_is_cagr; [exact Ev | lia].
Qed.

(** Whatever the table and the year arguments, every CAGR record comes from
    two rows of its country, spans a positive number of years, starts from
    a positive value and carries the value of the growth expression; a year
    argument that is given and not zero is the year of the endpoint, while
    an argument that is absent or zero selects the earliest row for the
    start and the latest for the end; no country gets two records. *)
Theorem calculate_cagr_sound
    (df : table) (start_year end_year : option Z) :
  Forall (cagr_record_resolved df start_year end_year)
         (calculate_cagr df start_year end_year) /\
  List.NoDup (map cg_country (calculate_cagr df start_year end_year)).
Proof.
  split.
  - apply List.Forall_forall. intros r Hr. unfold calculate_cagr in Hr.
    apply list_elem_of_In, list_elem_of_omap in Hr.
    destruct Hr as (c & _ & Hr).
    now apply cagr_of_country_resolved in Hr.
  - unfold calculate_cagr. apply omap_keys_NoDup; [|apply unique_NoDup].
    intros c r Hr. now apply cagr_of_country_sound in Hr.
Qed.

(** The sign of the rate: for positive endpoints the root is above, at or
    below one as the end value is above, at or below the start value. *)
Lemma Rpower_vs_one (q y : R) :
  (0 < q)%R -> (0 < y)%R ->
  ((1 < q -> 1 < Rpower q y) /\ (q = 1 -> Rpower q y = 1) /\
   (q < 1 -> Rpower q y < 1))%R.
Proof.
  intros Hq Hy. unfold Rpower. split; [|split].
  - intros H. rewrite <- exp_0. apply exp_increasing.
    apply Rmult_lt_0_compat; [exact Hy|].
    rewrite <- ln_1. now apply ln_increasing; [lra|].
  - intros ->. now rewrite ln_1, Rmult_0_r, exp_0.
  - intros H. rewrite <- exp_0. apply exp_increasing.
    assert (ln q < 0)%R by (rewrite <- ln_1; now apply ln_increasing).
    nra.
Qed.

Lemma cagr_value_sign (s e : Q) (years : Z) :
  (0 < s)%Q -> (0 < e)%Q -> 0 < years ->
  exists x, cagr_value s e years = Some x /\
            (-100 < x)%R /\
            ((0 < x)%R <-> (s < e)%Q) /\
            (x = 0%R <-> (s == e)%Q).
Proof.
  intros Hs He Hy. exists (cagr_formula s e years).
  split; [now apply cagr_value_formula|].
  unfold cagr_formula.
  assert (Hs' : (0 < Q2R s)%R)
    by (rewrite <- RMicromega.Q2R_0; now apply Qreals.Qlt_Rlt).
  assert (He' : (0 < Q2R e)%R)
    by (rewrite <- RMicromega.Q2R_0; now apply Qreals.Qlt_Rlt).
  set (q := (Q2R e / Q2R s)%R).
  assert (Hq : (0 < q)%R) by (unfold q; now apply Rdiv_lt_0_compat).
  assert (Hyr : (0 < 1 / IZR years)%R).
  { apply Rdiv_lt_0_compat; [lra|]. now apply IZR_lt. }
  destruct (Rpower_vs_one q _ Hq Hyr) as (Hgt & Heq & Hlt).
  assert (Hpos : (0 < Rpower q (1 / IZR years))%R)
    by (unfold Rpower; apply exp_pos).
  assert (Hq1 : (1 < q)%R <-> (s < e)%Q).
  { unfold q. split.
    - intros H. apply Qreals.Rlt_Qlt.
      apply (Rmult_lt_compat_r (Q2R s)) in H; [|exact Hs'].
      unfold Rdiv in H. rewrite Rmult_assoc, Rinv_l in H; lra.
    - intros H. apply Qreals.Qlt_Rlt in H.
      apply (Rmult_lt_reg_r (Q2R s)); [exact Hs'|].
      unfold Rdiv. rewrite Rmult_assoc, Rinv_l; lra. }
  assert (Hq2 : q = 1%R <-> (s == e)%Q).
  { unfold q. split.
    - intros H. apply Qreals.eqR_Qeq.
      apply (f_equal (fun z => (z * Q2R s)%R)) in H.
      unfold Rdiv in H. rewrite Rmult_assoc, Rinv_l in H; lra.
    - intros H. apply Qreals.Qeq_eqR in H. rewrite H.
      unfold Rdiv. apply Rinv_r. lra. }
  split; [lra|]. split.
  - split.
    + intros Hx. apply Hq1.
      destruct (Rtotal_order q 1) as [H|[H|H]];
        [specialize (Hlt H); lra | rewrite (Heq H) in Hx; lra | exact H].
    + intros H. apply Hq1 in H. specialize (Hgt H). lra.
  - split.
    + intros Hx. apply Hq2.
      destruct (Rtotal_order q 1) as [H|[H|H]]; [|exact H|].
      * specialize (Hlt H). lra.
      * specialize (Hgt H). lra.
    + intros H. apply Hq2 in H. rewrite (Heq H). lra.
Qed.

(** For a record with a positive end value the rate is defined, above
    -100, positive exactly when the end value exceeds the start value and
    zero exactly when they are equal. *)
Theorem calculate_cagr_sign
    (df : table) (start_year end_year : option Z) :
  Forall (fun r =>
            (0 < cg_end_value r)%Q ->
            exists x, cg_cagr r = Some x /\ (-100 < x)%R /\
                      ((0 < x)%R <-> (cg_start_value r < cg_end_value r)%Q) /\
                      (x = 0%R <-> (cg_start_value r == cg_end_value r)%Q))
         (calculate_cagr df start_year end_year).
Proof.
  apply List.Forall_forall. intros r Hr He.
  destruct (cagr_records_sound df _ _ r Hr) as (_ & Hy & Hv & _ & _ & ->).
  apply cagr_value_sign; auto. lia.
Qed.

Lemma float_root_one_year (x : Q) : float_root x 1 = Some (Q2R x).
Proof.
  unfold float_root. destruct (Qltb 0 x) eqn:E.
  - f_equal. replace (1 / IZR 1)%R with 1%R by (simpl; field).
    apply Rpower_1. rewrite <- RMicromega.Q2R_0.
    now apply Qreals.Qlt_Rlt, Qltb_inv.
  - destruct (Qeq_bool x 0) eqn:E0; [|reflexivity].
    f_equal. apply Qeq_bool_eq in E0. rewrite (Qreals.Qeq_eqR _ _ E0).
    symmetry. apply RMicromega.Q2R_0.
Qed.

(** Over a span of one year the compound rate is the plain percentage
    change [(end - start) / start * 100], whatever the sign of the end
    value. *)
Theorem calculate_cagr_one_year
    (df : table) (start_year end_year : option Z) :
  Forall (fun r =>
            cg_end_year r = cg_start_year r + 1 ->
            cg_cagr r =
            Some (Q2R ((cg_end_value r - cg_start_value r)
                       / cg_start_value r * 100)))
         (calculate_cagr df start_year end_year).
Proof.
  apply List.Forall_forall. intros r Hr Hy.
  destruct (cagr_records_sound df _ _ r Hr) as (_ & _ & Hv & _ & _ & ->).
  replace (cg_end_year r - cg_start_year r) with 1 by lia.
  unfold cagr_value. rewrite float_root_one_year. simpl. f_equal.
  assert (Hne : ~ (cg_start_value r == 0)%Q)
    by (intros E; rewrite E in Hv; now apply Qlt_irrefl in Hv).
  rewrite (Qreals.Qeq_eqR
             ((cg_end_value r - cg_start_value r) / cg_start_value r * 100)
             ((cg_end_value r / cg_start_value r - 1) * 100))
    by (field; exact Hne).
  rewrite Qreals.Q2R_mult, Qreals.Q2R_minus, RMicromega.Q2R_1.
  f_equal. unfold Q2R. simpl. field.
Qed.

(** ** Independence of row order *)

Section SortedUnique.
Context {A : Type} (leb : A -> A -> bool).

(** Two sorted lists with the same elements are equal when the order is
    antisymmetric on those elements. *)
Lemma sorted_perm_unique (l1 l2 : list A) :
  (forall a b, In a l1 -> In b l1 ->
               leb a b = true -> leb b a = true -> a = b) ->
  StronglySorted (fun a b => leb a b = true) l1 ->
  StronglySorted (fun a b => leb a b = true) l2 ->
  Permutation l1 l2 -> l1 = l2.
Proof.
  revert l2. induction l1 as [|x l1 IH]; intros l2 Hanti H1 H2 Hp.
  - apply Permutation_nil in Hp. now subst.
  - destruct l2 as [|y l2];
      [symmetry in Hp; now apply Permutation_nil_cons in Hp|].
    apply StronglySorted_inv in H1, H2.
    destruct H1 as [H1 Hx], H2 as [H2 Hy].
    rewrite List.Forall_forall in Hx, Hy.
    assert (Hxy : x = y).
    { assert (Hyin : In y (x :: l1))
        by (apply (Permutation_in _ (Permutation_sym Hp)); now left).
      assert (Hxin : In x (y :: l2))
        by (apply (Permutation_in _ Hp); now left).
      destruct Hyin as [E|Hyin]; [exact E|].
      destruct Hxin as [E|Hxin]; [now symmetry|].
      apply Hanti; [now left | now right | now apply Hx | now apply Hy]. }
    subst y. f_equal. apply IH; auto.
    + intros a b Ha Hb. apply Hanti; now right.
    + now apply Permutation_cons_inv in Hp.
Qed.

Hypothesis leb_total : forall a b, leb a b = true \/ leb b a = true.
Hypothesis leb_trans :
  forall a b c, leb a b = true -> leb b c = true -> leb a c = true.

Lemma stable_sort_perm_eq (l1 l2 : list A) :
  (forall a b, In a l1 -> In b l1 ->
               leb a b = true -> leb b a = true -> a = b) ->
  Permutation l1 l2 -> stable_sort leb l1 = stable_sort leb l2.
Proof.
  intros Hanti Hp. apply sorted_perm_unique.
  - intros a b Ha Hb. apply Hanti; now apply (stable_sort_In leb).
  - now apply stable_sort_sorted.
  - now apply stable_sort_sorted.
  - rewrite !stable_sort_perm. exact Hp.
Qed.
End SortedUnique.

Lemma country_year_leb_antisym (df : table) (a b : observation) :
  key_unique df -> In a df -> In b df ->
  country_year_leb a b = true -> country_year_leb b a = true -> a = b.
Proof.
  intros Hkey Ha Hb. unfold country_year_leb.
  rewrite (String.compare_antisym (country a) (country b)).
  destruct (String.compare (country b) (country a)) eqn:E; simpl;
    try discriminate.
  apply String.compare_eq_iff in E. intros H1 H2.
  apply Z.leb_le in H1, H2. apply Hkey; auto. lia.
Qed.

Lemma sort_by_country_year_perm (df df' : table) :
  key_unique df -> Permutation df df' ->
  sort_by_country_year df = sort_by_country_year df'.
Proof.
  intros Hkey Hp. apply stable_sort_perm_eq; auto.
  - apply country_year_leb_total.
  - apply country_year_leb_trans.
  - intros a b Ha Hb. now apply (country_year_leb_antisym df).
Qed.

(** With one row per country and year, the growth table does not depend on
    the order of the input rows. *)
Theorem calculate_growth_rate_order_independent (df df' : table) :
  key_unique df -> Permutation df df' ->
  calculate_growth_rate df = calculate_growth_rate df'.
Proof.
  intros Hkey Hp. unfold calculate_growth_rate.
  now rewrite (sort_by_country_year_perm df df' Hkey Hp).
Qed.

Lemma Permutation_filter_list {A : Type} (f : A -> bool) (l l' : list A) :
  Permutation l l' -> Permutation (List.filter f l) (List.filter f l').
Proof.
  induction 1 as [|x l l' Hp IH|x y l|l l' l'' H1 IH1 H2 IH2]; simpl.
  - constructor.
  - destruct (f x); [now constructor | exact IH].
  - destruct (f x), (f y); try reflexivity. apply perm_swap.
  - now transitivity (List.filter f l').
Qed.

Lemma country_data_perm (df df' : table) (c : string) :
  key_unique df -> Permutation df df' ->
  sort_by_year (rows_of df c) = sort_by_year (rows_of df' c).
Proof.
  intros Hkey Hp. apply stable_sort_perm_eq.
  - apply year_leb_total.
  - apply year_leb_trans.
  - intros a b Ha Hb H1 H2. apply rows_of_In in Ha, Hb.
    unfold year_leb in H1, H2. apply Z.leb_le in H1, H2.
    apply Hkey; try tauto; [|lia]. destruct Ha, Hb. congruence.
  - now apply Permutation_filter_list.
Qed.

Lemma unique_perm (l l' : list string) :
  Permutation l l' -> Permutation (unique l) (unique l').
Proof.
  intros Hp. apply Permutation.NoDup_Permutation; try apply unique_NoDup.
  intros x. rewrite !unique_In. split; apply Permutation_in;
    [exact Hp | now symmetry].
Qed.

Lemma omap_perm {A B : Type} (f : A -> option B) (l l' : list A) :
  Permutation l l' -> Permutation (omap f l) (omap f l').
Proof.
  induction 1 as [|x l l' Hp IH|x y l|l l' l'' H1 IH1 H2 IH2]; simpl.
  - constructor.
  - destruct (f x); [now constructor | exact IH].
  - destruct (f x), (f y); try reflexivity. apply perm_swap.
  - now transitivity (omap f l').
Qed.

(** With one row per country and year, the CAGR records do not depend on
    the order of the input rows, up to the order of the records. *)
Theorem calculate_cagr_order_independent
    (df df' : table) (start_year end_year : option Z) :
  key_unique df -> Permutation df df' ->
  Permutation (calculate_cagr df start_year end_year)
              (calculate_cagr df' start_year end_year).
Proof.
  intros Hkey Hp. unfold calculate_cagr.
  transitivity (omap (cagr_of_country df start_year end_year)
                     (unique (map country df'))).
  - apply omap_perm, unique_perm. now apply Permutation_map.
  - assert (E : forall c, cagr_of_country df start_year end_year c =
                          cagr_of_country df' start_year end_year c).
    { intros c. unfold cagr_of_country.
      now rewrite (country_data_perm df df' c Hkey Hp). }
    rewrite (list_omap_ext _ (cagr_of_country df' start_year end_year)
               _ (unique (map country df'))); [reflexivity|].
    apply Forall_Forall2_diag, List.Forall_forall. intros c _. apply E.
Qed.

(** ** The cache as a store *)

Lemma starts_with_slash_json (f : string) :
  starts_with_slash (f +:+ ".json") = starts_with_slash f.
Proof. now destruct f. Qed.

Lemma path_join_json_inj (dir f1 f2 : string) :
  starts_with_slash f1 = false -> starts_with_slash f2 = false ->
  path_join dir (f1 +:+ ".json") = path_join dir (f2 +:+ ".json") ->
  f1 = f2.
Proof.
  intros H1 H2. unfold path_join. rewrite !starts_with_slash_json, H1, H2.
  destruct (String.eqb dir "" || ends_with_slash dir); intros E.
  - apply append_inv_head in E. now apply append_inv_tail in E.
  - do 2 apply append_inv_head in E. now apply append_inv_tail in E.
Qed.

Lemma plain_name_no_slash (s : string) :
  plain_name s -> starts_with_slash s = false.
Proof.
  destruct s as [|a s]; [reflexivity|]. intros Hp.
  destruct (ascii_dec a "/") as [->|Hne];
    [exfalso; apply Hp; now left|].
  destruct a as [[] [] [] [] [] [] [] []]; try reflexivity.
  now contradiction Hne.
Qed.

(** For file names without a path separator (distinct names are then
    distinct files of the cache directory), writing the entry of one key
    leaves the entry of every other key as it was: a later read of the
    other key gives what it gave before. *)
Theorem cache_entries_independent `{Runtime}
    (fs : gmap string file) (put_time now max_age_hours : Z) (data : table)
    (key other cache_dir : string) :
  plain_name key -> plain_name other -> key <> other ->
  load_data_cache (save_data_cache fs put_time data key cache_dir)
                  now other cache_dir max_age_hours
  = load_data_cache fs now other cache_dir max_age_hours.
Proof.
  intros H1 H2 Hne. unfold load_data_cache, save_data_cache.
  rewrite lookup_insert_ne; [reflexivity|].
  intros E. apply Hne.
  apply (path_join_json_inj cache_dir); auto using plain_name_no_slash.
Qed.

(** A second write under the same key fully replaces the first: the file
    system is the one the second write alone would leave. *)
Theorem save_data_cache_replaces `{Runtime}
    (fs : gmap string file) (t1 t2 : Z) (d1 d2 : table)
    (key cache_dir : string) :
  save_data_cache (save_data_cache fs t1 d1 key cache_dir) t2 d2 key cache_dir
  = save_data_cache fs t2 d2 key cache_dir.
Proof. unfold save_data_cache. apply insert_insert_eq. Qed.

(** ** [fetch_data] *)

Section FetchDataFacts.
Context `{Builtins} `{Runtime} `{Pandas} `{Disk}.

(** After a miss, [fetch_data] returns what the wrapper of the indicator
    fetched, written to the cache unless it is the empty table; an unknown
    indicator gives the empty table. *)
Lemma fetch_data_miss (session_get : provider) (fs : gmap string file)
    (read_time write_time : Z) (indicator : string)
    (countries : list string) (start_year end_year : Z)
    (d : frame) (fs' : gmap string file) :
  load_data_cache fs read_time
    (cache_key indicator countries start_year end_year)
    DEFAULT_CACHE_DIR DEFAULT_MAX_AGE_HOURS = ret None ->
  fetch_data session_get fs read_time write_time indicator countries
    start_year end_year = ret (d, fs') ->
  (d = Obs [] /\ fs' = fs) \/
  (d <> Obs [] /\
   (exists name,
      In (indicator, name) DASHBOARD_INDICATORS /\
      fetch_indicator session_get (indicator_code_of name) countries
        start_year end_year = ret d) /\
   store_fetched fs write_time d
     (cache_key indicator countries start_year end_year) = ret fs').
Proof.
  intros Hmiss. unfold fetch_data. cbv zeta. rewrite Hmiss. cbn [bind ret].
  assert (G : forall name,
            In (indicator, name) DASHBOARD_INDICATORS ->
            (let* data := fetch_indicator session_get (indicator_code_of name)
                            countries start_year end_year in
             match data with
             | Obs [] => ret (data, fs)
             | _ =>
                 let* fs1 := store_fetched fs write_time data
                               (cache_key indicator countries
                                  start_year end_year) in
                 ret (data, fs1)
             end) = ret (d, fs') ->
            (d = Obs [] /\ fs' = fs) \/
            (d <> Obs [] /\
             (exists name,
                In (indicator, name) DASHBOARD_INDICATORS /\
                fetch_indicator session_get (indicator_code_of name) countries
                  start_year end_year = ret d) /\
             store_fetched fs write_time d
               (cache_key indicator countries start_year end_year) = ret fs')).
  { intros name Hname.
    destruct (fetch_indicator session_get (indicator_code_of name) countries
                start_year end_year) as [e|data] eqn:Ef;
      cbn [bind ret]; [discriminate|].
    destruct data as [[|r t]|x].
    - intros E. injection E as <- <-. now left.
    - destruct (store_fetched _ _ _ _) as [e|fs1] eqn:Es;
        cbn [bind ret]; [discriminate|].
      intros E. injection E as <- <-. right.
      split; [discriminate|]. split; [|exact Es]. now exists name.
    - destruct (store_fetched _ _ _ _) as [e|fs1] eqn:Es;
        cbn [bind ret]; [discriminate|].
      intros E. injection E as <- <-. right.
      split; [discriminate|]. split; [|exact Es]. now exists name. }
  destruct (String.eqb_spec indicator "GDP") as [->|_];
    [apply (G "gdp"); simpl; tauto|].
  destruct (String.eqb_spec indicator "Inflation") as [->|_];
    [apply (G "inflation"); simpl; tauto|].
  destruct (String.eqb_spec indicator "Unemployment") as [->|_];
    [apply (G "unemployment"); simpl; tauto|].
  intros E. injection E as <- <-. now left.
Qed.

Lemma store_fetched_changes (fs fs' : gmap string file) (now : Z)
    (data : frame) (filename : string) :
  store_fetched fs now data filename = ret fs' ->
  forall p, p <> path_join DEFAULT_CACHE_DIR (filename +:+ ".json") ->
            fs' !! p = fs !! p.
Proof.
  unfold store_fetched. cbv zeta.
  destruct (writable fs _); [|discriminate].
  intros E p Hp. injection E as <-.
  destruct data; [unfold save_data_cache|]; now rewrite lookup_insert_ne.
Qed.

(** When [fetch_data] returns: on a cache hit it returns the cached frame
    and leaves the file system as it was; on a miss, the empty table (every
    country failed, or an unknown indicator) is returned with the file
    system as it was, and any other result is the frame the wrapper of the
    indicator has just fetched, written under the key of the request with
    the time of the write.  No file but the one of the request's key is
    ever changed. *)
Theorem fetch_data_caches_only_data (session_get : provider)
    (fs : gmap string file) (read_time write_time : Z) (indicator : string)
    (countries : list string) (start_year end_year : Z)
    (d : frame) (fs' : gmap string file) :
  fetch_data session_get fs read_time write_time indicator countries
    start_year end_year = ret (d, fs') ->
  (forall df,
     load_data_cache fs read_time
       (cache_key indicator countries start_year end_year)
       DEFAULT_CACHE_DIR DEFAULT_MAX_AGE_HOURS = ret (Some df) ->
     d = df /\ fs' = fs) /\
  (load_data_cache fs read_time
     (cache_key indicator countries start_year end_year)
     DEFAULT_CACHE_DIR DEFAULT_MAX_AGE_HOURS = ret None ->
   (d = Obs [] /\ fs' = fs) \/
   ((exists name,
       In (indicator, name) DASHBOARD_INDICATORS /\
       fetch_indicator session_get (indicator_code_of name) countries
         start_year end_year = ret d) /\
    ((exists data,
        data <> [] /\ d = Obs data /\
        fs' = save_data_cache fs write_time data
                (cache_key indicator countries start_year end_year)
                DEFAULT_CACHE_DIR) \/
     (exists x,
        d = Foreign x /\
        fs' = <[path_join DEFAULT_CACHE_DIR
                  (cache_key indicator countries start_year end_year
                   +:+ ".json") :=
                  JsonFile
                    (PDict [ ("timestamp", PStr (isoformat write_time));
                             ("data", to_dict_records_foreign x) ])]> fs)))) /\
  (forall p,
     p <> path_join DEFAULT_CACHE_DIR
            (cache_key indicator countries start_year end_year +:+ ".json") ->
     fs' !! p = fs !! p).
Proof.
  intros E.
  destruct (load_data_cache fs read_time
              (cache_key indicator countries start_year end_year)
              DEFAULT_CACHE_DIR DEFAULT_MAX_AGE_HOURS) as [e|[df|]] eqn:Hl.
  - unfold fetch_data in E. cbv zeta in E. rewrite Hl in E. discriminate.
  - unfold fetch_data in E. cbv zeta in E. rewrite Hl in E.
    injection E as <- <-.
    split; [intros df' Hdf; injection Hdf as <-; now split|].
    split; [discriminate | reflexivity].
  - destruct (fetch_data_miss _ _ _ _ _ _ _ _ _ _ Hl E)
      as [[-> ->]|(Hd & Hname & Hs)].
    + split; [discriminate|]. split; [now left | reflexivity].
    + split; [discriminate|]. split.
      * intros _. right. split; [exact Hname|].
        unfold store_fetched in Hs. cbv zeta in Hs.
        destruct (writable fs _); [|discriminate].
        injection Hs as <-. destruct d as [t|x].
        -- left. exists t. split; [congruence|]. now split.
        -- right. now exists x.
      * now apply (store_fetched_changes _ _ _ _ _ Hs).
Qed.

(** After a call that missed the cache and fetched a non-empty table, a
    second call with the same arguments made within the freshness window is
    served from the cache: it returns the same table and leaves the file
    system alone, whatever the provider would answer by then. *)
Theorem fetch_data_second_call_hits (first second : provider)
    (fs fs1 : gmap string file) (t0 t1 t2 t3 : Z) (indicator : string)
    (countries : list string) (start_year end_year : Z) (df : table) :
  load_data_cache fs t0 (cache_key indicator countries start_year end_year)
    DEFAULT_CACHE_DIR DEFAULT_MAX_AGE_HOURS = ret None ->
  fetch_data first fs t0 t1 indicator countries start_year end_year
    = ret (Obs df, fs1) ->
  df <> [] ->
  fromisoformat (isoformat t1) = Some (Naive t1) ->
  (age_hours (t2 - t1) <= inject_Z DEFAULT_MAX_AGE_HOURS)%Q ->
  fetch_data second fs1 t2 t3 indicator countries start_year end_year
    = ret (Obs df, fs1).
Proof.
  intros Hmiss Hfirst Hne Hiso Hage.
  destruct (fetch_data_miss _ _ _ _ _ _ _ _ _ _ Hmiss Hfirst)
    as [[Hd _]|(_ & _ & Hs)];
    [injection Hd as ->; congruence|].
  unfold store_fetched in Hs. cbv zeta in Hs.
  destruct (writable fs _); [|discriminate]. injection Hs as <-.
  unfold fetch_data. cbv zeta.
  rewrite (read_saved_entry fs _ _ t1 t2 _ df Hiso).
  now rewrite (Qgtb_false _ _ Hage).
Qed.

(** For an indicator name other than "GDP", "Inflation" and
    "Unemployment" the provider plays no part in the result. *)
Theorem fetch_data_unknown_indicator (p p' : provider)
    (fs : gmap string file) (read_time write_time : Z) (indicator : string)
    (countries : list string) (start_year end_year : Z) :
  indicator <> "GDP" -> indicator <> "Inflation" ->
  indicator <> "Unemployment" ->
  fetch_data p fs read_time write_time indicator countries start_year end_year
  = fetch_data p' fs read_time write_time indicator countries
      start_year end_year /\
  (load_data_cache fs read_time
     (cache_key indicator countries start_year end_year)
     DEFAULT_CACHE_DIR DEFAULT_MAX_AGE_HOURS = ret None ->
   fetch_data p fs read_time write_time indicator countries start_year end_year
   = ret (Obs [], fs)).
Proof.
  intros Hg Hi Hu. apply String.eqb_neq in Hg, Hi, Hu.
  unfold fetch_data. cbv zeta. rewrite Hg, Hi, Hu.
  split; [reflexivity|]. now intros ->.
Qed.
End FetchDataFacts.

(** ** [get_all_countries] *)

Lemma popular_countries_keys (k : string) (v : pyval) :
  POPULAR_COUNTRIES !! k = Some v -> String.length k = 3%nat.
Proof.
  unfold POPULAR_COUNTRIES. intros Hk.
  apply elem_of_list_to_map_2, list_elem_of_In in Hk.
  apply in_map_iff in Hk. destruct Hk as ([k' n] & E & Hin).
  injection E as <- _. simpl.
  assert (G : Forall (fun kv : string * string => String.length (fst kv) = 3%nat)
                     POPULAR_COUNTRIES_ITEMS)
    by (repeat constructor).
  rewrite List.Forall_forall in G. exact (G _ Hin).
Qed.

Lemma popular_countries_nonempty : POPULAR_COUNTRIES <> ∅.
Proof.
  intros E. assert (H : POPULAR_COUNTRIES !! "USA" = None)
    by (rewrite E; apply lookup_empty).
  vm_compute in H. discriminate.
Qed.

Lemma collect_countries_bindings (entries : list pyval)
    (acc d : gmap string pyval) :
  collect_countries entries acc = ret d ->
  forall k v, d !! k = Some v ->
              acc !! k = Some v \/
              (code_length_ok k /\ from_entry entries k v).
Proof.
  revert acc. induction entries as [|entry rest IH]; intros acc; simpl.
  - intros E. injection E as <-. auto.
  - assert (Hrest : forall acc',
              collect_countries rest acc' = ret d ->
              (forall k v, acc' !! k = Some v ->
                 acc !! k = Some v \/
                 (code_length_ok k /\ from_entry (entry :: rest) k v)) ->
              forall k v, d !! k = Some v ->
                acc !! k = Some v \/
                (code_length_ok k /\ from_entry (entry :: rest) k v)).
    { intros acc' E Hacc k v Hk.
      destruct (IH _ E k v Hk) as [Hk'|[Hlen (e & c & Hin & Hrest)]];
        [now apply Hacc|].
      right. split; [exact Hlen|]. exists e, c. split; [now right | exact Hrest]. }
    destruct (py_getitem entry "capitalCity") as [?|capital] eqn:Ecap;
      simpl; [discriminate|].
    destruct (py_truthy capital) eqn:Et; [|intros E; apply (Hrest _ E); auto].
    destruct (py_getitem entry "iso2Code") as [?|code] eqn:Ecode;
      simpl; [discriminate|].
    destruct (py_getitem entry "name") as [?|name] eqn:Ename;
      simpl; [discriminate|].
    destruct (py_len code) as [?|n] eqn:En; simpl; [discriminate|].
    destruct ((n =? 2)%nat || (n =? 3)%nat) eqn:Elen;
      [|intros E; apply (Hrest _ E); auto].
    destruct code as [| | | |s| |]; simpl; try discriminate.
    intros E. apply (Hrest _ E). intros k v Hk.
    destruct (decide (s = k)) as [->|Hne].
    + rewrite lookup_insert_eq in Hk. injection Hk as <-. right. split.
      * simpl in En. injection En as <-. unfold code_length_ok.
        apply orb_true_iff in Elen. rewrite !Nat.eqb_eq in Elen. exact Elen.
      * exists entry, capital. split; [now left|]. auto.
    + rewrite lookup_insert_ne in Hk by exact Hne. now left.
Qed.

(** [get_all_countries] never raises and never returns an empty mapping,
    and every code it returns has two or three characters. *)
Theorem get_all_countries_total (session_get : provider) :
  exists d, get_all_countries session_get = ret d /\
            d <> ∅ /\
            forall k v, d !! k = Some v -> code_length_ok k.
Proof.
  assert (Hpop : POPULAR_COUNTRIES <> ∅ /\
                 forall k v, POPULAR_COUNTRIES !! k = Some v -> code_length_ok k).
  { split; [apply popular_countries_nonempty|].
    intros k v Hk. right. now apply (popular_countries_keys k v). }
  unfold get_all_countries.
  destruct (read_countries session_get) as [e|d] eqn:E; simpl;
    [exists POPULAR_COUNTRIES; now split|].
  exists d. split; [reflexivity|].
  unfold read_countries in E.
  destruct (session_get countries_url countries_params) as [|status body];
    [discriminate|].
  destruct (raise_for_status status); simpl in E; [discriminate|].
  destruct (response_json body) as [?|json_data]; simpl in E; [discriminate|].
  destruct (py_len json_data) as [?|n]; simpl in E; [discriminate|].
  destruct (n <? 2)%nat; [injection E as <-; exact Hpop|].
  destruct (py_getitem_int json_data 1) as [?|records]; simpl in E;
    [discriminate|].
  destruct (py_iter records) as [?|entries]; simpl in E; [discriminate|].
  destruct (collect_countries entries ∅) as [?|countries] eqn:Ec; simpl in E;
    [discriminate|].
  destruct (decide (countries = ∅)) as [_|Hne];
    injection E as <-; [exact Hpop|].
  split; [exact Hne|]. intros k v Hk.
  destruct (collect_countries_bindings _ _ _ Ec k v Hk) as [H0|[Hlen _]];
    [now rewrite lookup_empty in H0 | exact Hlen].
Qed.

(** On a reply whose second element is a list of entries, the mapping
    returned is the fallback table or else holds only bindings read off
    entries with a capital city: aggregates (entries whose capital is
    empty) contribute nothing. *)
Theorem get_all_countries_from_entries (session_get : provider)
    (status : Z) (items entries : list pyval) (d : gmap string pyval) :
  session_get countries_url countries_params
    = Reply status (Some (PList items)) ->
  nth_error items 1 = Some (PList entries) ->
  get_all_countries session_get = ret d ->
  d = POPULAR_COUNTRIES \/
  forall k v, d !! k = Some v -> from_entry entries k v.
Proof.
  intros Hget Hrec. unfold get_all_countries, read_countries.
  rewrite Hget.
  destruct (raise_for_status status); cbn [bind try_except ret];
    [intros E; injection E as <-; now left|].
  unfold response_json, py_len, py_getitem_int. cbn [bind ret].
  destruct (length items <? 2)%nat;
    [intros E; injection E as <-; now left|].
  rewrite Hrec. cbn [bind ret py_iter].
  destruct (collect_countries entries ∅) as [?|countries] eqn:Ec;
    cbn [bind try_except ret];
    [intros E; injection E as <-; now left|].
  destruct (decide (countries = ∅)); cbn [try_except];
    intros E; injection E as <-; [now left|].
  right. intros k v Hk.
  destruct (collect_countries_bindings _ _ _ Ec k v Hk) as [H0|[_ Hfrom]];
    [now rewrite lookup_empty in H0 | exact Hfrom].
Qed.

(** ** [fetch_indicator]: the order of the codes, and failing countries *)

Lemma mapM_omap {A B : Type} (f : A -> option B) (l : list A) (k : list B) :
  mapM f l = Some k <-> Forall (fun x => is_Some (f x)) l /\ omap f l = k.
Proof.
  revert k. induction l as [|x l IH]; intros k.
  - simpl. split; [intros E; injection E as <-; now split | intros [_ <-]; reflexivity].
  - rewrite mapM_Some. split.
    + intros HF. inversion HF as [|? y ? k' Hy Hrest]; subst.
      apply mapM_Some, IH in Hrest. destruct Hrest as [Hall <-].
      split; [constructor; [rewrite Hy; eauto | exact Hall]|].
      simpl. now rewrite Hy.
    + intros [Hall <-]. apply List.Forall_cons_iff in Hall.
      destruct Hall as [[y Hy] Hall]. simpl. rewrite Hy.
      constructor; [exact Hy|]. apply mapM_Some, IH. now split.
Qed.

Section FetchOrderFacts.
Context `{Builtins} `{Pandas} (session_get : provider).
Variables (indicator_code : string) (start_year end_year : Z).

(** The table fetched holds the same rows whatever the order in which the
    country codes are given (the provider answering each request the same
    way); with one row per country and year it is the very same table. *)
Theorem fetch_indicator_order_of_codes (codes codes' : list string)
    (df : table) :
  Permutation codes codes' ->
  fetch_indicator session_get indicator_code codes start_year end_year
    = ret (Obs df) ->
  exists df',
    fetch_indicator session_get indicator_code codes' start_year end_year
      = ret (Obs df') /\
    Permutation df df' /\
    (key_unique df -> df' = df).
Proof.
  intros Hp. rewrite !fetch_indicator_contributions. unfold DataFrame_sorted.
  set (c := contribution session_get indicator_code start_year end_year).
  assert (Hflat : Permutation (flat_map c codes) (flat_map c codes'))
    by (now apply Permutation_flat_map).
  destruct (mapM row_of_record (flat_map c codes)) as [rows|] eqn:E;
    [|destruct (sort_values_country_year _); discriminate].
  intros Hdf. injection Hdf as <-.
  apply mapM_omap in E. destruct E as [Hall Hrows].
  assert (E' : mapM row_of_record (flat_map c codes')
               = Some (omap row_of_record (flat_map c codes'))).
  { apply mapM_omap. split; [|reflexivity].
    rewrite List.Forall_forall in Hall |- *. intros r Hr. apply Hall.
    now apply (Permutation_in _ (Permutation_sym Hflat)). }
  rewrite E'.
  assert (Hrows' : Permutation rows (omap row_of_record (flat_map c codes')))
    by (rewrite <- Hrows; now apply omap_perm).
  exists (sort_by_country_year (omap row_of_record (flat_map c codes'))).
  split; [reflexivity|]. split.
  - unfold sort_by_country_year. now rewrite !stable_sort_perm.
  - intros Hkey. symmetry. apply sort_by_country_year_perm; [|exact Hrows'].
    intros a b Ha Hb. apply Hkey; now apply (stable_sort_In country_year_leb).
Qed.

(** When every request gets no reply or an HTTP error status (400-599),
    the result is the empty table and nothing is raised. *)
Theorem fetch_indicator_all_requests_fail (country_codes : list string) :
  (forall c, In c country_codes ->
     let reply := session_get (request_url indicator_code c)
                              (request_params start_year end_year) in
     reply = NoReply \/
     exists status body, reply = Reply status body /\ 400 <= status < 600) ->
  fetch_indicator session_get indicator_code country_codes start_year end_year
  = ret (Obs []).
Proof.
  intros Hfail. rewrite fetch_indicator_contributions.
  rewrite flat_map_all_nil; [reflexivity|].
  intros c Hc. unfold contribution, _fetch_country_indicator. cbv zeta.
  destruct (Hfail c Hc) as [->|(status & body & -> & Hs)]; [reflexivity|].
  unfold raise_for_status.
  replace ((400 <=? status) && (status <? 600)) with true; [reflexivity|].
  symmetry. apply andb_true_iff. split; [apply Z.leb_le | apply Z.ltb_lt]; lia.
Qed.
End FetchOrderFacts.

(** ** The growth frame of the chart and [calculate_growth_rate] *)

Lemma prev_value_cons (x : observation) (seen : table) (c : string) :
  prev_value (x :: seen) c =
  if String.eqb (country x) c then Some (value x) else prev_value seen c.
Proof. unfold prev_value, rows_of. simpl. now destruct (String.eqb (country x) c). Qed.

(** Within a frame the grouped [pct_change] gives each country the rates
    [pct_change] gives its own series. *)
Lemma pct_by_country_restrict (c : string) (rows seen : table) :
  List.filter (fun rg : observation * pyfloat => String.eqb (country (fst rg)) c)
              (combine rows (pct_change_by_country seen rows))
  = combine (rows_of rows c)
            (pct_change (prev_value seen c) (map value (rows_of rows c))).
Proof.
  revert seen. induction rows as [|x rows IH]; intros seen; [reflexivity|].
  simpl. rewrite IH, prev_value_cons.
  destruct (String.eqb_spec (country x) c) as [E|E]; [|reflexivity].
  simpl. now rewrite E.
Qed.

Lemma filter_map_comm {A B : Type} (f : A -> B) (p : B -> bool) (l : list A) :
  List.filter p (map f l) = map f (List.filter (fun x => p (f x)) l).
Proof.
  induction l as [|x l IH]; simpl; [reflexivity|].
  destruct (p (f x)); simpl; now rewrite IH.
Qed.

Lemma growth_rows_of_country (df : table) (c : string) :
  List.filter (fun g => String.eqb (country (g_obs g)) c)
              (calculate_growth_rate df)
  = map (fun rg => {| g_obs := fst rg; growth_rate := fscale (snd rg) 100 |})
        (combine (rows_of (sort_by_country_year df) c)
                 (pct_change None
                    (map value (rows_of (sort_by_country_year df) c)))).
Proof.
  unfold calculate_growth_rate. cbv zeta. rewrite filter_map_comm. simpl.
  now rewrite pct_by_country_restrict.
Qed.

Lemma StronglySorted_among {A : Type} (P P' : A -> A -> Prop) (Q : A -> Prop)
    (l : list A) :
  (forall a b, Q a -> Q b -> P a b -> P' a b) ->
  Forall Q l -> StronglySorted P l -> StronglySorted P' l.
Proof.
  intros HP HQ. induction 1 as [|x l Hs IH Hx]; [constructor|].
  apply List.Forall_cons_iff in HQ. destruct HQ as [Hqx HQ].
  constructor; [now apply IH|].
  rewrite List.Forall_forall in Hx, HQ |- *. intros y Hy.
  apply HP; auto.
Qed.

(** With one row per country and year, the rows a country has in the frame
    sorted by (country, year) are its rows sorted by year. *)
Lemma rows_of_sorted_frame (df : table) (c : string) :
  key_unique df ->
  rows_of (sort_by_country_year df) c = sort_by_year (rows_of df c).
Proof.
  intros Hkey.
  assert (Hin : forall o, In o (rows_of (sort_by_country_year df) c) ->
                          In o df /\ country o = c).
  { intros o Ho. apply rows_of_In in Ho. destruct Ho as [Ho Hc].
    split; [exact (proj1 (stable_sort_In country_year_leb df o) Ho) | exact Hc]. }
  apply (sorted_perm_unique year_leb).
  - intros a b Ha Hb H1 H2. apply Hin in Ha, Hb.
    unfold year_leb in H1, H2. apply Z.leb_le in H1, H2.
    apply Hkey; try tauto; [|lia]. destruct Ha, Hb. congruence.
  - apply (StronglySorted_among
             (fun a b => country_year_leb a b = true) _
             (fun o => country o = c)).
    + intros a b Ha Hb. unfold country_year_leb, year_leb.
      rewrite Ha, Hb, string_compare_refl. auto.
    + apply List.Forall_forall. intros o Ho. now apply Hin.
    + apply StronglySorted_filter, sort_by_country_year_sorted.
  - apply sort_by_year_sorted.
  - unfold sort_by_year. rewrite stable_sort_perm.
    apply Permutation_filter_list, stable_sort_perm.
Qed.

Lemma growth_rows_country_growth (df : table) (c : string) :
  key_unique df ->
  List.filter (fun g => String.eqb (country (g_obs g)) c)
              (calculate_growth_rate df)
  = country_growth df c.
Proof.
  intros Hkey. rewrite growth_rows_of_country.
  now rewrite (rows_of_sorted_frame df c Hkey).
Qed.

(** A list is, up to order, the concatenation of its groups by key. *)
Lemma group_by_key_perm {A : Type} (key : A -> string) (ks : list string)
    (l : list A) :
  List.NoDup ks -> (forall x, In x l -> In (key x) ks) ->
  Permutation l
    (concat (map (fun c => List.filter (fun x => String.eqb (key x) c) l) ks)).
Proof.
  intros Hnd. induction l as [|x l IH]; intros Hcov.
  - induction ks as [|k ks IHk]; simpl; [constructor|].
    apply IHk; [now apply List.NoDup_cons_iff in Hnd | intros x []].
  - set (g := fun c => List.filter (fun y => String.eqb (key y) c) l).
    assert (Hl : Permutation l (concat (map g ks)))
      by (apply IH; intros y Hy; apply Hcov; now right).
    assert (Hk : In (key x) ks) by (apply Hcov; now left).
    change (Permutation (x :: l)
              (concat (map (fun c => if String.eqb (key x) c
                                     then x :: g c else g c) ks))).
    clearbody g. clear IH Hcov.
    transitivity (x :: concat (map g ks)); [now constructor|].
    clear Hl.
    induction ks as [|k ks IHk]; [contradiction|].
    apply List.NoDup_cons_iff in Hnd. destruct Hnd as [Hnk Hnd].
    simpl. destruct (String.eqb_spec (key x) k) as [E|E].
    + simpl. constructor. apply Permutation_app_head.
      assert (G : map (fun c => if String.eqb (key x) c then x :: g c else g c) ks
                  = map g ks).
      { apply map_ext_in. intros c Hc.
        destruct (String.eqb_spec (key x) c) as [E'|_]; [|reflexivity].
        exfalso. apply Hnk. congruence. }
      now rewrite G.
    + destruct Hk as [Hk|Hk]; [congruence|].
      rewrite <- (IHk Hnd Hk). apply Permutation_middle.
Qed.

(** The chart code raises on the empty table ([pd.concat] of no frame) and
    on no other table. *)
Theorem chart_growth_data_raises_iff_empty (df : table) :
  (df = [] -> chart_growth_data df = raise ValueError) /\
  (df <> [] -> exists rows, chart_growth_data df = ret rows).
Proof.
  unfold chart_growth_data, pd_concat. cbv zeta. split.
  - now intros ->.
  - intros Hne. destruct df as [|r df]; [congruence|]. simpl. eauto.
Qed.

(** With one row per country and year, the frame the chart plots holds,
    up to order, the rows of [calculate_growth_rate] whose rate is not
    NaN. *)
Theorem chart_growth_data_matches_helper (df : table) :
  key_unique df -> df <> [] ->
  exists rows,
    chart_growth_data df = ret rows /\
    Permutation rows
      (List.filter (fun g => negb (is_nan (growth_rate g)))
                   (calculate_growth_rate df)).
Proof.
  intros Hkey Hne. unfold chart_growth_data, pd_concat. cbv zeta.
  destruct (map (country_growth df) (unique (map country df)))
    as [|f fs] eqn:E.
  { destruct df as [|r df]; [congruence | discriminate]. }
  rewrite <- E. cbn [bind ret]. eexists. split; [reflexivity|].
  apply Permutation_filter_list. symmetry.
  rewrite (map_ext _ (fun c => List.filter
                                 (fun g => String.eqb (country (g_obs g)) c)
                                 (calculate_growth_rate df)))
    by (intros c; symmetry; now apply growth_rows_country_growth).
  apply (group_by_key_perm (fun g => country (g_obs g))).
  - apply unique_NoDup.
  - intros g Hg. apply unique_In.
    apply (in_map g_obs) in Hg. rewrite growth_obs in Hg.
    apply (proj1 (stable_sort_In country_year_leb df _)) in Hg.
    now apply in_map.
Qed.

(** ** [format_large_number] *)

Lemma Qle_bool_false (a b : Q) : Qle_bool a b = false -> (b < a)%Q.
Proof.
  intros H. apply Qnot_le_lt. intros Hle. apply Qle_bool_iff in Hle. congruence.
Qed.

Lemma Qabs_opp_eq (q : Q) : Qabs.Qabs (- q) = Qabs.Qabs q.
Proof. destruct q as [n d]. unfold Qabs.Qabs, Qopp. simpl. now rewrite Z.abs_opp. Qed.

(** A finite number is printed as a sign, a mantissa and a suffix: the
    mantissa times the factor of the suffix is the magnitude, the mantissa
    is at least 1 from one thousand on and below 1000 up to 10^15.  A
    negative number prints as "-" followed by the print of its magnitude. *)
Theorem format_large_number_shape `{Formatter} (q : Q) (precision : Z) :
  (exists suffix factor m,
     In (suffix, factor) suffix_factors /\
     format_large_number (Fin q) precision =
       (if Qltb q 0 then "-" else "") +:+ format_fixed (Fin m) precision
       +:+ suffix /\
     (m * factor == Qabs.Qabs q)%Q /\
     ((1000 <= Qabs.Qabs q)%Q -> (1 <= m)%Q) /\
     ((Qabs.Qabs q < 1000000000000000)%Q -> (m < 1000)%Q)) /\
  ((0 < q)%Q ->
   format_large_number (Fin (- q)) precision =
   "-" +:+ format_large_number (Fin q) precision).
Proof.
  split.
  - unfold format_large_number. cbn [is_nan fabs fneg_b fge_b fdiv_const].
    set (a := Qabs.Qabs q).
    destruct (Qle_bool 1000000000000 a) eqn:E1.
    { apply Qle_bool_iff in E1.
      exists "T", 1000000000000%Q, (a / 1000000000000)%Q.
      split; [simpl; tauto|]. split; [reflexivity|].
      split; [field|]. unfold Qdiv.
      change (/ 1000000000000)%Q with (1 # 1000000000000)%Q.
      split; intros; Lqa.lra. }
    apply Qle_bool_false in E1.
    destruct (Qle_bool 1000000000 a) eqn:E2.
    { apply Qle_bool_iff in E2.
      exists "B", 1000000000%Q, (a / 1000000000)%Q.
      split; [simpl; tauto|]. split; [reflexivity|].
      split; [field|]. unfold Qdiv.
      change (/ 1000000000)%Q with (1 # 1000000000)%Q.
      split; intros; Lqa.lra. }
    apply Qle_bool_false in E2.
    destruct (Qle_bool 1000000 a) eqn:E3.
    { apply Qle_bool_iff in E3.
      exists "M", 1000000%Q, (a / 1000000)%Q.
      split; [simpl; tauto|]. split; [reflexivity|].
      split; [field|]. unfold Qdiv.
      change (/ 1000000)%Q with (1 # 1000000)%Q.
      split; intros; Lqa.lra. }
    apply Qle_bool_false in E3.
    destruct (Qle_bool 1000 a) eqn:E4.
    { apply Qle_bool_iff in E4.
      exists "K", 1000%Q, (a / 1000)%Q.
      split; [simpl; tauto|]. split; [reflexivity|].
      split; [field|]. unfold Qdiv.
      change (/ 1000)%Q with (1 # 1000)%Q.
      split; intros; Lqa.lra. }
    apply Qle_bool_false in E4.
    exists "", 1%Q, a.
    split; [simpl; tauto|].
    split; [now rewrite append_nil_r|].
    split; [ring|]. split; intros; Lqa.lra.
  - intros Hq. unfold format_large_number.
    cbn [is_nan fabs fneg_b fge_b fdiv_const]. rewrite Qabs_opp_eq.
    assert (Hn : Qltb (- q) 0 = true) by (apply Qltb_true; Lqa.lra).
    assert (Hp : Qltb q 0 = false).
    { unfold Qltb. apply negb_false_iff, Qle_bool_iff. Lqa.lra. }
    rewrite Hn, Hp.
    repeat (destruct (Qle_bool _ (Qabs.Qabs q)); [reflexivity|]).
    reflexivity.
Qed.

(** ** [compare_countries] with the countries swapped *)

Lemma agg_finite (vs : list Q) :
  vs <> [] ->
  exists a b c, agg_mean vs = Fin a /\ agg_median vs = Fin b /\
                agg_last vs = Fin c.
Proof.
  intros Hne.
  destruct (aggregates_within_range vs Hne)
    as (mn & mx & a & b & c & _ & _ & Ha & Hb & Hc & _).
  exists a, b, c. auto.
Qed.

Lemma select_country_values (df : table) (c : string) :
  map snd (series (select_country df c)) = map value (rows_of df c).
Proof.
  unfold series. rewrite map_map. simpl.
  rewrite <- select_country_rows. now rewrite map_map.
Qed.

Lemma compare_countries_present (df : table) (c1 c2 : string) :
  rows_of df c1 <> [] -> rows_of df c2 <> [] ->
  let v1 := map value (rows_of df c1) in
  let v2 := map value (rows_of df c2) in
  compare_countries df c1 c2 !! "mean_diff"
    = Some (CFloat (fsub (agg_mean v1) (agg_mean v2))) /\
  compare_countries df c1 c2 !! "median_diff"
    = Some (CFloat (fsub (agg_median v1) (agg_median v2))) /\
  compare_countries df c1 c2 !! "latest_diff"
    = Some (CFloat (fsub (agg_last v1) (agg_last v2))).
Proof.
  intros H1 H2 v1 v2. unfold compare_countries. cbv zeta.
  rewrite !select_country_values. fold v1 v2.
  destruct (select_country df c1) as [|a l1] eqn:E1.
  { exfalso. apply H1. rewrite <- select_country_rows, E1. reflexivity. }
  destruct (select_country df c2) as [|b l2] eqn:E2.
  { exfalso. apply H2. rewrite <- select_country_rows, E2. reflexivity. }
  repeat split; now simplify_map_eq.
Qed.

(** When both countries have rows, swapping them negates the difference of
    means, of medians and of latest values, all three being finite. *)
Theorem compare_countries_swap (df : table) (c1 c2 : string) :
  rows_of df c1 <> [] -> rows_of df c2 <> [] ->
  Forall (fun key =>
            exists x y,
              compare_countries df c1 c2 !! key = Some (CFloat (Fin x)) /\
              compare_countries df c2 c1 !! key = Some (CFloat (Fin y)) /\
              (y == - x)%Q)
         ["mean_diff"; "median_diff"; "latest_diff"].
Proof.
  intros H1 H2.
  destruct (compare_countries_present df c1 c2 H1 H2) as (M12 & D12 & L12).
  destruct (compare_countries_present df c2 c1 H2 H1) as (M21 & D21 & L21).
  assert (N1 : map value (rows_of df c1) <> [])
    by (destruct (rows_of df c1); [congruence | discriminate]).
  assert (N2 : map value (rows_of df c2) <> [])
    by (destruct (rows_of df c2); [congruence | discriminate]).
  destruct (agg_finite _ N1) as (a1 & b1 & l1 & Ea1 & Eb1 & El1).
  destruct (agg_finite _ N2) as (a2 & b2 & l2 & Ea2 & Eb2 & El2).
  rewrite Ea1, Ea2 in M12, M21. rewrite Eb1, Eb2 in D12, D21.
  rewrite El1, El2 in L12, L21.
  cbn [fsub] in M12, M21, D12, D21, L12, L21.
  apply List.Forall_cons;
    [exists (a1 - a2)%Q, (a2 - a1)%Q;
     split; [exact M12|]; split; [exact M21|]; ring|].
  apply List.Forall_cons;
    [exists (b1 - b2)%Q, (b2 - b1)%Q;
     split; [exact D12|]; split; [exact D21|]; ring|].
  apply List.Forall_cons;
    [exists (l1 - l2)%Q, (l2 - l1)%Q;
     split; [exact L12|]; split; [exact L21|]; ring|].
  apply List.Forall_nil.
Qed.

(** ** 'latest' of the statistics and [get_latest_values] *)

Lemma last_map {A B : Type} (f : A -> B) (l : list A) (x : A) :
  List.last (map f l) (f x) = f (List.last l x).
Proof.
  revert x. induction l as [|y l IH]; intros x; [reflexivity|].
  change (map f (y :: l)) with (f y :: map f l). rewrite !last_cons. apply IH.
Qed.

(** On a frame in year order with one row per country and year, the
    'latest' figure of a country is the value of the row
    [get_latest_values] returns for it. *)
Theorem statistics_latest_matches_latest_values (df : table) :
  key_unique df -> year_ordered df ->
  Forall (fun s => exists r,
            In r (get_latest_values df) /\ country r = st_country s /\
            st_latest s = Fin (value r))
         (calculate_statistics df).
Proof.
  intros Hkey Hord. apply List.Forall_forall. intros s Hs.
  destruct (calculate_statistics_In df s Hs) as (Hc & _ & _ & _ & _ & _ & Hl).
  pose proof (rows_of_nonempty df _ Hc) as Hne.
  pose proof (rows_of_year_sorted df (st_country s) Hord) as Hsorted.
  pose proof (rows_of_In df (st_country s)) as Hin.
  destruct (rows_of df (st_country s)) as [|x l]; [congruence|].
  exists (List.last l x).
  assert (Hlast : In (List.last l x) (x :: l)) by apply last_In_list.
  destruct (proj1 (Hin _) Hlast) as [Hdf Hcountry].
  split; [|split; [exact Hcountry|]].
  - apply (latest_row_is_returned df _ Hkey). split; [exact Hdf|].
    intros o Ho Hoc.
    apply (sorted_last_greatest x l).
    + apply (StronglySorted_weaken (fun a b => year a < year b));
        [|exact Hsorted].
      intros a b Hab. unfold year_leb. apply Z.leb_le. lia.
    + apply Hin. split; [exact Ho | congruence].
  - rewrite Hl. simpl. now rewrite last_map.
Qed.

(** ** Overwriting a cache entry *)

(** After two writes under one key, a read made while the second write is
    fresh returns the second table, whatever the first write stored and
    however old it is. *)
Theorem cache_overwrite_reads_latest `{Runtime}
    (fs : gmap string file) (t1 t2 now max_age_hours : Z) (d1 d2 : table)
    (key cache_dir : string) :
  fromisoformat (isoformat t2) = Some (Naive t2) ->
  (age_hours (now - t2) <= inject_Z max_age_hours)%Q ->
  load_data_cache
    (save_data_cache (save_data_cache fs t1 d1 key cache_dir)
                     t2 d2 key cache_dir)
    now key cache_dir max_age_hours
  = ret (Some (Obs d2)).
Proof.
  intros Hiso Hage. rewrite save_data_cache_replaces.
  rewrite (read_saved_entry fs key cache_dir t2 now max_age_hours d2 Hiso).
  now rewrite (Qgtb_false _ _ Hage).
Qed.

(** ** The further properties on sample inputs *)

Lemma doubling_reversed_perm : Permutation doubling doubling_reversed.
Proof. apply Permutation_rev. Qed.

Lemma two_series_key_unique : key_unique two_series.
Proof.
  intros a b Ha Hb Hc Hy. simpl in Ha, Hb.
  repeat (destruct Ha as [<-|Ha]; [|]); try contradiction;
    repeat (destruct Hb as [<-|Hb]; [|]); try contradiction;
    simpl in Hc, Hy; try reflexivity; discriminate.
Qed.

Lemma two_series_year_ordered : year_ordered two_series.
Proof.
  unfold year_ordered, two_series.
  repeat constructor; cbn [country year]; intros E; try lia;
    try discriminate E.
Qed.

Lemma get_latest_values_exact_witness :
  In (mkObs "A" "AAA" 2010 200) (get_latest_values doubling) <->
  latest_row doubling (mkObs "A" "AAA" 2010 200).
Proof.
  exact (get_latest_values_exact doubling (mkObs "A" "AAA" 2010 200)
           doubling_key_unique).
Defined.

Lemma get_latest_values_order_independent_witness :
  Permutation (get_latest_values doubling)
              (get_latest_values doubling_reversed).
Proof.
  exact (get_latest_values_order_independent doubling doubling_reversed
           doubling_key_unique doubling_reversed_perm).
Defined.

Lemma calculate_statistics_latest_when_ordered_witness :
  Forall (fun s => st_latest s
                   = value_at_max_year (rows_of two_series (st_country s)))
         (calculate_statistics two_series).
Proof.
  exact (calculate_statistics_latest_when_ordered two_series
           two_series_year_ordered).
Defined.

Lemma calculate_growth_rate_order_independent_witness :
  calculate_growth_rate doubling = calculate_growth_rate doubling_reversed.
Proof.
  exact (calculate_growth_rate_order_independent doubling doubling_reversed
           doubling_key_unique doubling_reversed_perm).
Defined.

Lemma calculate_cagr_order_independent_witness :
  Permutation (calculate_cagr doubling None None)
              (calculate_cagr doubling_reversed None None).
Proof.
  exact (calculate_cagr_order_independent doubling doubling_reversed None None
           doubling_key_unique doubling_reversed_perm).
Defined.

Lemma cache_entries_independent_witness :
  @load_data_cache sample_runtime
    (@save_data_cache sample_runtime ∅ 0 doubling usa_key DEFAULT_CACHE_DIR)
    one_hour "GDP_CHN_2000_2001" DEFAULT_CACHE_DIR DEFAULT_MAX_AGE_HOURS
  = @load_data_cache sample_runtime ∅
      one_hour "GDP_CHN_2000_2001" DEFAULT_CACHE_DIR DEFAULT_MAX_AGE_HOURS.
Proof.
  apply (@cache_entries_independent sample_runtime ∅ 0 one_hour
           DEFAULT_MAX_AGE_HOURS doubling usa_key "GDP_CHN_2000_2001"
           DEFAULT_CACHE_DIR).
  - vm_compute. intros Hin. repeat (destruct Hin as [E|Hin]; [discriminate E|]).
    exact Hin.
  - vm_compute. intros Hin. repeat (destruct Hin as [E|Hin]; [discriminate E|]).
    exact Hin.
  - vm_compute. discriminate.
Defined.

Lemma cache_overwrite_reads_latest_witness :
  @load_data_cache sample_runtime
    (@save_data_cache sample_runtime
       (@save_data_cache sample_runtime ∅ 0 two_series usa_key
          DEFAULT_CACHE_DIR)
       (48 * one_hour) doubling usa_key DEFAULT_CACHE_DIR)
    (49 * one_hour) usa_key DEFAULT_CACHE_DIR DEFAULT_MAX_AGE_HOURS
  = ret (Some (Obs doubling)).
Proof.
  apply (@cache_overwrite_reads_latest sample_runtime ∅ 0 (48 * one_hour)
           (49 * one_hour) DEFAULT_MAX_AGE_HOURS two_series doubling usa_key
           DEFAULT_CACHE_DIR); [reflexivity|].
  vm_compute. discriminate.
Defined.

Lemma usa_first_fetch :
  @fetch_data decimal_builtins sample_runtime sample_pandas sample_disk
    (usa_only (PList records_with_null)) ∅ 0 0 "GDP" ["USA"] 2000 2001
  = ret (Obs [usa_row],
         @save_data_cache sample_runtime ∅ 0 [usa_row] usa_key
           DEFAULT_CACHE_DIR).
Proof. vm_compute. reflexivity. Qed.

Lemma fetch_data_caches_only_data_witness :
  (forall df,
     @load_data_cache sample_runtime ∅ 0 (cache_key "GDP" ["USA"] 2000 2001)
       DEFAULT_CACHE_DIR DEFAULT_MAX_AGE_HOURS = ret (Some df) ->
     Obs [usa_row] = df /\
     @save_data_cache sample_runtime ∅ 0 [usa_row] usa_key DEFAULT_CACHE_DIR
     = ∅) /\
  (@load_data_cache sample_runtime ∅ 0 (cache_key "GDP" ["USA"] 2000 2001)
     DEFAULT_CACHE_DIR DEFAULT_MAX_AGE_HOURS = ret None ->
   (Obs [usa_row] = Obs [] /\
    @save_data_cache sample_runtime ∅ 0 [usa_row] usa_key DEFAULT_CACHE_DIR
    = ∅) \/
   ((exists name,
       In ("GDP", name) DASHBOARD_INDICATORS /\
       @fetch_indicator decimal_builtins sample_pandas
         (usa_only (PList records_with_null)) (indicator_code_of name)
         ["USA"] 2000 2001 = ret (Obs [usa_row])) /\
    ((exists data,
        data <> [] /\ Obs [usa_row] = Obs data /\
        @save_data_cache sample_runtime ∅ 0 [usa_row] usa_key
          DEFAULT_CACHE_DIR
        = @save_data_cache sample_runtime ∅ 0 data
            (cache_key "GDP" ["USA"] 2000 2001) DEFAULT_CACHE_DIR) \/
     (exists x,
        Obs [usa_row] = Foreign x /\
        @save_data_cache sample_runtime ∅ 0 [usa_row] usa_key
          DEFAULT_CACHE_DIR
        = <[path_join DEFAULT_CACHE_DIR
              (cache_key "GDP" ["USA"] 2000 2001 +:+ ".json") :=
              JsonFile
                (PDict [ ("timestamp", PStr (@isoformat sample_runtime 0));
                         ("data",
                          @to_dict_records_foreign sample_pandas x) ])]>
            ∅)))) /\
  (forall p,
     p <> path_join DEFAULT_CACHE_DIR
            (cache_key "GDP" ["USA"] 2000 2001 +:+ ".json") ->
     @save_data_cache sample_runtime ∅ 0 [usa_row] usa_key DEFAULT_CACHE_DIR
       !! p
     = (∅ : gmap string file) !! p).
Proof.
  exact (@fetch_data_caches_only_data decimal_builtins sample_runtime
           sample_pandas sample_disk
           (usa_only (PList records_with_null)) ∅ 0 0 "GDP" ["USA"] 2000 2001
           _ _ usa_first_fetch).
Defined.

Lemma fetch_data_second_call_hits_witness :
  @fetch_data decimal_builtins sample_runtime sample_pandas sample_disk
    silent_provider
    (@save_data_cache sample_runtime ∅ 0 [usa_row] usa_key DEFAULT_CACHE_DIR)
    one_hour one_hour "GDP" ["USA"] 2000 2001
  = ret (Obs [usa_row],
         @save_data_cache sample_runtime ∅ 0 [usa_row] usa_key
           DEFAULT_CACHE_DIR).
Proof.
  apply (@fetch_data_second_call_hits decimal_builtins sample_runtime
           sample_pandas sample_disk
           (usa_only (PList records_with_null)) silent_provider
           ∅ _ 0 0 one_hour one_hour "GDP" ["USA"] 2000 2001 [usa_row]).
  - reflexivity.
  - exact usa_first_fetch.
  - discriminate.
  - reflexivity.
  - vm_compute. discriminate.
Defined.

Lemma fetch_data_unknown_indicator_witness :
  @fetch_data decimal_builtins sample_runtime sample_pandas sample_disk
    (usa_only (PList records_with_null)) ∅ 0 0 "Population" ["USA"] 2000 2001
  = @fetch_data decimal_builtins sample_runtime sample_pandas sample_disk
      silent_provider ∅ 0 0 "Population" ["USA"] 2000 2001.
Proof.
  refine (proj1 (@fetch_data_unknown_indicator decimal_builtins
                   sample_runtime sample_pandas sample_disk
                   (usa_only (PList records_with_null))
                   silent_provider ∅ 0 0 "Population" ["USA"] 2000 2001
                   _ _ _)); discriminate.
Defined.

Lemma countries_provider_result :
  get_all_countries countries_provider = ret two_countries.
Proof. vm_compute. reflexivity. Qed.

Lemma get_all_countries_from_entries_witness :
  two_countries = POPULAR_COUNTRIES \/
  forall k v, two_countries !! k = Some v -> from_entry countries_reply k v.
Proof.
  exact (get_all_countries_from_entries countries_provider 200
           [metadata; PList countries_reply] countries_reply two_countries
           eq_refl eq_refl countries_provider_result).
Defined.

Lemma usa_then_unknown :
  @fetch_indicator decimal_builtins sample_pandas
    (usa_only (PList records_with_null))
    gdp ["USA"; "ZZZ"] 2000 2001 = ret (Obs [usa_row]).
Proof. vm_compute. reflexivity. Qed.

Lemma fetch_indicator_order_of_codes_witness :
  exists df',
    @fetch_indicator decimal_builtins sample_pandas
      (usa_only (PList records_with_null))
      gdp ["ZZZ"; "USA"] 2000 2001 = ret (Obs df') /\
    Permutation [usa_row] df' /\
    (key_unique [usa_row] -> df' = [usa_row]).
Proof.
  exact (@fetch_indicator_order_of_codes decimal_builtins sample_pandas
           (usa_only (PList records_with_null)) gdp 2000 2001
           ["USA"; "ZZZ"] ["ZZZ"; "USA"] [usa_row]
           (perm_swap "ZZZ" "USA" []) usa_then_unknown).
Defined.

Lemma fetch_indicator_all_requests_fail_witness :
  @fetch_indicator decimal_builtins sample_pandas unavailable_provider
    gdp ["USA"; "CHN"] 2000 2001 = ret (Obs []).
Proof.
  apply (@fetch_indicator_all_requests_fail decimal_builtins sample_pandas
           unavailable_provider gdp 2000 2001 ["USA"; "CHN"]).
  intros c _. right. exists 503, None. split; [reflexivity | lia].
Defined.

Lemma doubling_nonempty : doubling <> [].
Proof. discriminate. Qed.

Lemma chart_growth_data_matches_helper_witness :
  exists rows,
    chart_growth_data doubling = ret rows /\
    Permutation rows
      (List.filter (fun g => negb (is_nan (growth_rate g)))
                   (calculate_growth_rate doubling)).
Proof.
  exact (chart_growth_data_matches_helper doubling doubling_key_unique
           doubling_nonempty).
Defined.

Lemma two_series_has_A : rows_of two_series "A" <> [].
Proof. vm_compute. discriminate. Qed.

Lemma two_series_has_B : rows_of two_series "B" <> [].
Proof. vm_compute. discriminate. Qed.

Lemma compare_countries_swap_witness :
  Forall (fun key =>
            exists x y,
              compare_countries two_series "A" "B" !! key
                = Some (CFloat (Fin x)) /\
              compare_countries two_series "B" "A" !! key
                = Some (CFloat (Fin y)) /\
              (y == - x)%Q)
         ["mean_diff"; "median_diff"; "latest_diff"].
Proof.
  exact (compare_countries_swap two_series "A" "B"
           two_series_has_A two_series_has_B).
Defined.

Lemma statistics_latest_matches_latest_values_witness :
  Forall (fun s => exists r,
            In r (get_latest_values two_series) /\
            country r = st_country s /\ st_latest s = Fin (value r))
         (calculate_statistics two_series).
Proof.
  exact (statistics_latest_matches_latest_values two_series
           two_series_key_unique two_series_year_ordered).
Defined.
